(** * FSB/BANK extractor: a shallow embedding of FSB_BANK_Extractor_CPP.cpp

    The development follows the source file top-down: fixed-width integers
    and little-endian byte layout, IEEE binary32 samples, the [std::ifstream]
    used by the signature scanner, the BANK to FSB extractor, the WAV header
    writer, the three transcription loops of [AudioProcessor], the sound
    descriptor reader, [ProcessSubSound] and [main].

    Conventions.
    - Integers are [Z]; every conversion to a fixed-width type is written
      out with [wrap] (unsigned) or [sint32] (two's complement [int]).
    - Bytes are [Byte.byte]; multi-byte objects are little endian (the
      program is built for x86/x64).
    - Stateful objects (streams, the engine's sounds, the file system and
      the console) are passed explicitly and returned updated.
    - Loops whose termination depends on the engine take a [fuel] argument
      and yield [OutOfFuel] when it does not suffice; a value read from an
      uninitialised object or a conversion with undefined behaviour yields
      [Undefined].
    - The decoding engine (FMOD) and the platform's path and file-creation
      services are external and appear as the interfaces [FMOD] and [OS],
      whose operations are parameters of the model. *)

From Stdlib Require Import ZArith Lia List QArith Qround Ascii String.
From Stdlib Require Import Floats.SpecFloat.
From stdpp Require Import base option list strings gmap pretty.

Import ListNotations.
Local Open Scope Z_scope.

(** ** Fixed-width integers *)

(** [wrap w z] is the value an unsigned [w]-bit object holds after [z] is
    converted to it. *)
Definition wrap (w : Z) (z : Z) : Z := z mod 2 ^ w.

(** Two's-complement reading of a 32-bit pattern: what converting to [int]
    yields on the tested platform. *)
Definition sint32 (z : Z) : Z :=
  let u := wrap 32 z in if u <? 2 ^ 31 then u else u - 2 ^ 32.

(** ** Bytes and little-endian layout *)

Abbreviation byte := Byte.byte.

#[global] Instance byte_eq_dec : EqDecision byte := Byte.byte_eq_dec.

Definition Z_of_byte (b : byte) : Z := Z.of_N (Byte.to_N b).

Definition byte_of_Z (z : Z) : byte :=
  default Byte.x00 (Byte.of_N (Z.to_N (z mod 256))).

(** [le_encode n z]: the [n] bytes that
    [file.write(reinterpret_cast<const char*>(&data), sizeof(data))] emits
    for an [n]-byte unsigned object holding [z] (x86, little endian). *)
Fixpoint le_encode (n : nat) (z : Z) : list byte :=
  match n with
  | O => []
  | S k => byte_of_Z z :: le_encode k (z / 256)
  end.

(** The unsigned integer stored in a little-endian byte sequence. *)
Fixpoint le_decode (l : list byte) : Z :=
  match l with
  | [] => 0
  | b :: t => Z_of_byte b + 256 * le_decode t
  end.

(** The [len]-byte little-endian field at offset [off] of a byte image. *)
Definition field (off len : nat) (image : list byte) : Z :=
  le_decode (take len (drop off image)).

(** The bytes of a C string literal. *)
Definition bytes_of_string (s : string) : list byte :=
  map (fun a => byte_of_Z (Z.of_N (Ascii.N_of_ascii a))) (String.list_ascii_of_string s).

(** ** Constants (namespace [Constants]) *)

Module Constants.
Definition RIFF_HEADER : string := "RIFF".
Definition WAVE_FORMAT : string := "WAVE".
Definition FMT_CHUNK : string := "fmt ".
Definition DATA_CHUNK : string := "data".
Definition FORMAT_PCM : Z := 1.
Definition FORMAT_PCM_FLOAT : Z := 3.
Definition BITS_IN_BYTE : Z := 8.
Definition CHUNK_SIZE : Z := 4096.
End Constants.

(** ** Engine result codes and sample formats

    [fmod.hpp] is not part of the repository.  The result codes the source
    distinguishes are [FMOD_OK], [FMOD_ERR_TAGNOTFOUND] and "anything else";
    the sample formats are the labels of the [switch] in [GetSoundInfo] plus
    the zero value of the enumeration. *)

Inductive FMOD_RESULT :=
| FMOD_OK
| FMOD_ERR_TAGNOTFOUND
| FMOD_ERR (code : Z).

Definition is_FMOD_OK (r : FMOD_RESULT) : bool :=
  match r with FMOD_OK => true | _ => false end.

Inductive FMOD_SOUND_FORMAT :=
| FMOD_SOUND_FORMAT_NONE
| FMOD_SOUND_FORMAT_PCM8
| FMOD_SOUND_FORMAT_PCM16
| FMOD_SOUND_FORMAT_PCM24
| FMOD_SOUND_FORMAT_PCM32
| FMOD_SOUND_FORMAT_PCMFLOAT
| FMOD_SOUND_FORMAT_BITSTREAM
| FMOD_SOUND_FORMAT_MAX.

Definition is_PCMFLOAT (f : FMOD_SOUND_FORMAT) : bool :=
  match f with FMOD_SOUND_FORMAT_PCMFLOAT => true | _ => false end.

Definition is_PCM24 (f : FMOD_SOUND_FORMAT) : bool :=
  match f with FMOD_SOUND_FORMAT_PCM24 => true | _ => false end.

(** ** Output files ([std::ofstream])

    The exception mask of the output streams is never changed, so
    [write] never throws and the [catch] clauses around it are dead; an
    open stream is modelled as accepting every write. *)

Record ofstream := mk_ofstream {
  of_is_open : bool;
  of_written : list byte
}.

Definition of_write (f : ofstream) (data : list byte) : ofstream :=
  if of_is_open f then mk_ofstream true (of_written f ++ data) else f.

(** ** WriteWAVHeader *)

(** [static_cast<uint32_t>(static_cast<uint64_t>(sampleRate) * channels *
    bitsPerSample / Constants::BITS_IN_BYTE)]: the [int] operands are
    converted to 64-bit unsigned, the products wrap modulo 2^64. *)
Definition byteRate_field (sampleRate channels bitsPerSample : Z) : Z :=
  wrap 32
    (wrap 64 (wrap 64 (wrap 64 sampleRate * wrap 64 channels) * wrap 64 bitsPerSample)
       / wrap 64 Constants.BITS_IN_BYTE).

(** [static_cast<uint16_t>(channels * bitsPerSample / Constants::BITS_IN_BYTE)]:
    [int] arithmetic, division truncating toward zero. *)
Definition blockAlign_field (channels bitsPerSample : Z) : Z :=
  wrap 16 (Z.quot (sint32 (channels * bitsPerSample)) Constants.BITS_IN_BYTE).

Definition WAVHeader_bytes (sampleRate channels dataSize bitsPerSample : Z)
    (format : FMOD_SOUND_FORMAT) : list byte :=
  bytes_of_string Constants.RIFF_HEADER
  ++ le_encode 4 (wrap 32 (wrap 64 (36 + dataSize)))
  ++ bytes_of_string Constants.WAVE_FORMAT
  ++ bytes_of_string Constants.FMT_CHUNK
  ++ le_encode 4 16
  ++ le_encode 2 (if is_PCMFLOAT format then Constants.FORMAT_PCM_FLOAT
                  else Constants.FORMAT_PCM)
  ++ le_encode 2 (wrap 16 channels)
  ++ le_encode 4 (wrap 32 sampleRate)
  ++ le_encode 4 (byteRate_field sampleRate channels bitsPerSample)
  ++ le_encode 2 (blockAlign_field channels bitsPerSample)
  ++ le_encode 2 (wrap 16 bitsPerSample)
  ++ bytes_of_string Constants.DATA_CHUNK
  ++ le_encode 4 (wrap 32 dataSize).

Definition WriteWAVHeader (file : ofstream) (sampleRate channels dataSize bitsPerSample : Z)
    (format : FMOD_SOUND_FORMAT) : bool * ofstream :=
  if negb (of_is_open file) then (false, file)
  else (true, of_write file (WAVHeader_bytes sampleRate channels dataSize bitsPerSample format)).

(** Field positions of the canonical 44-byte header. *)
Definition hdr_riff_size (image : list byte) : Z := field 4 4 image.
Definition hdr_format_code (image : list byte) : Z := field 20 2 image.
Definition hdr_channels (image : list byte) : Z := field 22 2 image.
Definition hdr_sample_rate (image : list byte) : Z := field 24 4 image.
Definition hdr_byte_rate (image : list byte) : Z := field 28 4 image.
Definition hdr_block_align (image : list byte) : Z := field 32 2 image.
Definition hdr_bits_per_sample (image : list byte) : Z := field 34 2 image.
Definition hdr_data_size (image : list byte) : Z := field 40 4 image.

(** ** IEEE-754 binary32 samples

    A [float] is held as its 32-bit pattern; comparisons go through the
    Standard Library's specification of IEEE floats. *)

Module Float32.

Definition decode (bits : Z) : spec_float :=
  let s := Z.testbit bits 31 in
  let e := (bits / 2 ^ 23) mod 2 ^ 8 in
  let m := bits mod 2 ^ 23 in
  if e =? 0 then
    (if m =? 0 then S754_zero s else S754_finite s (Z.to_pos m) (-149))
  else if e =? 255 then
    (if m =? 0 then S754_infinity s else S754_nan)
  else S754_finite s (Z.to_pos (m + 2 ^ 23)) (e - 150).

(** [1.0f] and [-1.0f]. *)
Definition one_bits : Z := 0x3F800000.
Definition minus_one_bits : Z := 0xBF800000.

Definition is_nan (bits : Z) : bool :=
  match decode bits with S754_nan => true | _ => false end.

(** [a < b] and [a <= b] on floats. *)
Definition ltb (a b : Z) : bool := SFltb (decode a) (decode b).
Definition leb (a b : Z) : bool := SFleb (decode a) (decode b).

(** [std::clamp(v, lo, hi)]: [lo] if [v < lo], [hi] if [hi < v],
    otherwise [v]. *)
Definition clamp (v lo hi : Z) : Z :=
  if ltb v lo then lo else if ltb hi v then hi else v.

(** The sample lies within the inclusive range [-1.0, 1.0]. *)
Definition in_unit_range (bits : Z) : bool :=
  leb minus_one_bits bits && leb bits one_bits.

End Float32.

(** The exact value of a finite float, as a rational: [m * 2^e] with the
    sign applied. *)
Definition Q_of_float (f : spec_float) : option Q :=
  match f with
  | S754_zero _ => Some (0 # 1)%Q
  | S754_finite s m e =>
      let n := if s then Z.neg m else Z.pos m in
      Some (if 0 <=? e then Qmake (n * 2 ^ e) 1 else Qmake n (Z.to_pos (2 ^ (- e))))
  | _ => None
  end.

(** [static_cast<int>(f)]: the fractional part is discarded; the behaviour
    is undefined ([None]) when the truncated value is not representable. *)
Definition float_to_int (f : spec_float) : option Z :=
  match f with
  | S754_zero _ => Some 0
  | S754_finite s m e =>
      let mag := if 0 <=? e then Z.pos m * 2 ^ e else Z.pos m / 2 ^ (- e) in
      let t := if s then - mag else mag in
      if (- 2 ^ 31 <=? t) && (t <? 2 ^ 31) then Some t else None
  | _ => None
  end.

(** ** Input files ([std::ifstream])

    The content of the file, the read position and the two state bits that
    the control flow of the scanner depends on.  The operations follow the
    C++17 library clauses for unformatted input ([istream.unformatted]):
    - each operation first builds a sentry; when the stream is not
      [good()] the sentry calls [setstate(failbit)] and the operation does
      nothing more;
    - [read(s, n)] that meets the end of the file before [n] characters
      calls [setstate(failbit | eofbit)];
    - [peek()] at the end of the file sets [eofbit] and yields [EOF];
    - [seekg] first clears [eofbit], then seeks only "if [fail() != true]";
    - [tellg] yields -1 when [fail()].
    The stream is opened in binary mode, so positions are byte offsets. *)

Record ifstream := mk_ifstream {
  if_data : list byte;
  if_pos : Z;
  if_eofbit : bool;
  if_failbit : bool
}.

Definition if_good (s : ifstream) : bool := negb (if_eofbit s) && negb (if_failbit s).

Definition if_setstate (s : ifstream) (eof fail : bool) : ifstream :=
  mk_ifstream (if_data s) (if_pos s) (if_eofbit s || eof) (if_failbit s || fail).

Definition if_clear_eof (s : ifstream) : ifstream :=
  mk_ifstream (if_data s) (if_pos s) false (if_failbit s).

Definition if_set_pos (s : ifstream) (p : Z) : ifstream :=
  mk_ifstream (if_data s) p (if_eofbit s) (if_failbit s).

Definition if_sentry (s : ifstream) : bool * ifstream :=
  if if_good s then (true, s) else (false, if_setstate s false true).

Definition if_size (s : ifstream) : Z := Z.of_nat (length (if_data s)).

(** [tellg()]: -1 when the stream has failed. *)
Definition tellg (s : ifstream) : Z * ifstream :=
  let '(_, s) := if_sentry s in
  if if_failbit s then (-1, s) else (if_pos s, s).

(** [peek()]: [None] is [EOF]; reaching the end sets [eofbit]. *)
Definition peek (s : ifstream) : option byte * ifstream :=
  let '(ok, s) := if_sentry s in
  if ok then
    match if_data s !! Z.to_nat (if_pos s) with
    | Some b => (Some b, s)
    | None => (None, if_setstate s true false)
    end
  else (None, s).

(** [read(buf, n)]: the bytes extracted ([gcount()] is their number); a
    short read sets [eofbit | failbit]. *)
Definition read (s : ifstream) (n : Z) : list byte * ifstream :=
  let '(ok, s) := if_sentry s in
  if ok then
    let got := take (Z.to_nat n) (drop (Z.to_nat (if_pos s)) (if_data s)) in
    let s := if_set_pos s (if_pos s + Z.of_nat (length got)) in
    if Z.of_nat (length got) <? n then (got, if_setstate s true true) else (got, s)
  else ([], s).

(** [seekg(off, std::ios::cur)]: clears [eofbit] first; does nothing on a
    failed stream; a seek before the start of the file fails. *)
Definition seekg_cur (s : ifstream) (off : Z) : ifstream :=
  let s := if_clear_eof s in
  let '(_, s) := if_sentry s in
  if if_failbit s then s
  else if if_pos s + off <? 0 then if_setstate s false true
  else if_set_pos s (if_pos s + off).

(** [seekg(pos)]. *)
Definition seekg (s : ifstream) (p : Z) : ifstream :=
  let s := if_clear_eof s in
  let '(_, s) := if_sentry s in
  if if_failbit s then s
  else if p <? 0 then if_setstate s false true
  else if_set_pos s p.

(** ** Outcomes of code that may loop or read an indeterminate value *)

Inductive outcome (A : Type) :=
| Finished (a : A)
| OutOfFuel
| Undefined.
Arguments Finished {A} a.
Arguments OutOfFuel {A}.
Arguments Undefined {A}.

(** ** The file system and path operations ([std::filesystem])

    Paths are strings and files are byte sequences.  Path decomposition,
    the two well-known directories, and whether a given output file or
    directory can be created belong to the platform and are parameters. *)

Class OS := {
  stem : string -> string;
  filename : string -> string;
  parent_path : string -> string;
  path_append : string -> string -> string;
  current_path : string;
  temp_directory_path : string;
  ofstream_can_open : string -> bool;
  create_directory : string -> bool * bool
}.

(** ** BANKtoFSBExtractor *)

Module BANKtoFSBExtractor.

Definition FSB5 : list byte := bytes_of_string "FSB5".

Definition bytes_eqb (a b : list byte) : bool := bool_decide (a = b).

(** What one run of the [while] body of [FindFSB5Signature] leads to. *)
Inductive scan :=
| Returned (found : bool) (reader : ifstream)
| LeftLoop (reader : ifstream).

Fixpoint FindFSB5Signature_while (fuel : nat) (reader : ifstream) : outcome scan :=
  match fuel with
  | O => OutOfFuel
  | S fuel =>
      let '(c, reader) := peek reader in
      match c with
      | None => Finished (LeftLoop reader)
      | Some _ =>
          let '(signature, reader) := read reader 4 in
          if Z.of_nat (length signature) =? 4 then
            if bytes_eqb signature FSB5 then
              let reader := seekg_cur reader (-4) in
              Finished (Returned true reader)
            else
              let reader := seekg_cur reader (-3) in
              FindFSB5Signature_while fuel reader
          else Finished (LeftLoop reader)
      end
  end.

(** Each iteration moves the cursor one byte forward, so the number of
    bytes after the cursor (plus one) bounds the number of iterations. *)
Definition FindFSB5Signature_bound (reader : ifstream) : nat :=
  S (Z.to_nat (if_size reader - if_pos reader)).

Definition FindFSB5Signature (reader : ifstream) : outcome (bool * ifstream) :=
  let '(startPosition, reader) := tellg reader in
  match FindFSB5Signature_while (FindFSB5Signature_bound reader) reader with
  | Finished (Returned found reader) => Finished (found, reader)
  | Finished (LeftLoop reader) =>
      let reader := seekg reader startPosition in
      Finished (false, reader)
  | OutOfFuel => OutOfFuel
  | Undefined => Undefined
  end.

(** [bankFileStream.read(reinterpret_cast<char*>(&x), sizeof(x))] into an
    uninitialised [uint32_t]: the value is indeterminate after a short
    read. *)
Definition read_u32 (s : ifstream) : option Z * ifstream :=
  let '(got, s) := read s 4 in
  (if Z.of_nat (length got) =? 4 then Some (le_decode got) else None, s).

Definition tempFileName_of (baseBankFileName : string) (fsbCount : Z) : string :=
  if 1 <? fsbCount then baseBankFileName +:+ "_" +:+ pretty fsbCount +:+ ".fsb"
  else baseBankFileName +:+ ".fsb".

Section Extract.
Context {os : OS}.

(** The [while (FindFSB5Signature(bankFileStream))] loop.  Allocation
    of the copy buffer is taken to succeed. *)
Fixpoint ExtractFSBs_while (fuel : nat) (baseBankFileName tempPath : string)
    (bankFileStream : ifstream) (fsbCount : Z) (tempFsbFiles : list string)
    (fs : gmap string (list byte)) : outcome (list string * gmap string (list byte)) :=
  match fuel with
  | O => OutOfFuel
  | S fuel =>
      match FindFSB5Signature bankFileStream with
      | OutOfFuel => OutOfFuel
      | Undefined => Undefined
      | Finished (false, _) => Finished (tempFsbFiles, fs)
      | Finished (true, bankFileStream) =>
          let fsbCount := sint32 (fsbCount + 1) in
          let tempFileName := tempFileName_of baseBankFileName fsbCount in
          let tempFilePath := path_append tempPath tempFileName in
          let tempFsbFiles := tempFsbFiles ++ [tempFilePath] in
          if negb (ofstream_can_open tempFilePath) then
            ExtractFSBs_while fuel baseBankFileName tempPath bankFileStream fsbCount
              (removelast tempFsbFiles) fs
          else
            let fs := <[tempFilePath := []]> fs in
            let '(fsbSign, bankFileStream) := read bankFileStream 4 in
            let '(version, bankFileStream) := read_u32 bankFileStream in
            let '(numSamples, bankFileStream) := read_u32 bankFileStream in
            let '(shdrSize, bankFileStream) := read_u32 bankFileStream in
            let '(nameSize, bankFileStream) := read_u32 bankFileStream in
            let '(dataSize, bankFileStream) := read_u32 bankFileStream in
            match shdrSize, nameSize, dataSize with
            | Some shdrSize, Some nameSize, Some dataSize =>
                let fsbFileSize := wrap 32 (0x3C + shdrSize + nameSize + dataSize) in
                let bankFileStream := seekg_cur bankFileStream (-24) in
                let '(got, bankFileStream) := read bankFileStream fsbFileSize in
                let fsbData :=
                  got ++ replicate (Z.to_nat fsbFileSize - length got) Byte.x00 in
                let fs := <[tempFilePath := fsbData]> fs in
                ExtractFSBs_while fuel baseBankFileName tempPath bankFileStream fsbCount
                  tempFsbFiles fs
            | _, _, _ => Undefined
            end
      end
  end.

Definition ExtractFSBsFromBankFile (fuel : nat) (bankFilePath : string)
    (fs : gmap string (list byte)) : outcome (list string * gmap string (list byte)) :=
  let tempFsbFiles : list string := [] in
  let baseBankFileName := stem bankFilePath in
  let tempPath := temp_directory_path in
  match fs !! bankFilePath with
  | None => Finished (tempFsbFiles, fs)
  | Some content =>
      ExtractFSBs_while fuel baseBankFileName tempPath
        (mk_ifstream content 0 false false) 0 tempFsbFiles fs
  end.
End Extract.

End BANKtoFSBExtractor.

(** ** The decoding engine ([FMOD::System], [FMOD::Sound])

    Every operation returns its result code and what it stored through its
    output pointers; operations that advance the engine's read cursor also
    return the sound's next state. *)

Inductive FMOD_TIMEUNIT := FMOD_TIMEUNIT_PCMBYTES | FMOD_TIMEUNIT_MS.

Class FMOD := {
  System : Type;
  Sound : Type;
  FMOD_VERSION : Z;
  System_Create : FMOD_RESULT * System;
  getVersion : System -> FMOD_RESULT * Z;
  init : System -> FMOD_RESULT;
  createSound : System -> string -> option (list byte) -> FMOD_RESULT * Sound;
  getNumSubSounds : Sound -> FMOD_RESULT * Z;
  getSubSound : Sound -> Z -> FMOD_RESULT * Sound;
  seekData : Sound -> Z -> FMOD_RESULT * Sound;
  getFormat : Sound -> FMOD_RESULT * (Z * FMOD_SOUND_FORMAT * Z * Z);
  getDefaults : Sound -> FMOD_RESULT * (spec_float * Z);
  getLength : Sound -> FMOD_TIMEUNIT -> FMOD_RESULT * Z;
  getName : Sound -> FMOD_RESULT * string;
  readData : Sound -> Z -> FMOD_RESULT * list byte * Sound
}.

(** ** AudioProcessor: the three transcription loops *)

Module AudioProcessor.

Section Loops.
Context {Sound : Type}.
Variable readData : Sound -> Z -> FMOD_RESULT * list byte * Sound.

(** Result of a transcription: the returned flag, the sound and the
    output stream after the call, the chunk counter, and the value the
    local counter [totalBytesRead] had when the function returned.

    The chunk counter is an [int] that the caller passes by reference and
    that is used for log messages only.  The model holds the number of
    increments made: that is the value of the [int] as long as the count
    stays below 2^31; an increment beyond that is undefined in the source
    and is not modelled. *)
Definition transcript : Type := bool * Sound * ofstream * Z * Z.

(** [std::min<unsigned int>(Constants::CHUNK_SIZE, soundLengthBytes - totalBytesRead)]. *)
Definition bytesToRead_of (soundLengthBytes totalBytesRead : Z) : Z :=
  Z.min Constants.CHUNK_SIZE (wrap 32 (wrap 64 (soundLengthBytes - totalBytesRead))).

(** [WriteAudioDataChunk<BufferType>]: for [unsigned char], [short] and
    [int] the buffer holds [CHUNK_SIZE / sizeof(BufferType)] elements, 4096
    bytes in each case, and the bytes are written through unchanged. *)
Fixpoint WriteAudioDataChunk_while (fuel : nat) (subSound : Sound) (wavFile : ofstream)
    (soundLengthBytes : Z) (chunkCount : Z) (totalBytesRead : Z) : outcome transcript :=
  match fuel with
  | O => OutOfFuel
  | S fuel =>
      if totalBytesRead <? soundLengthBytes then
        let bytesToRead := bytesToRead_of soundLengthBytes totalBytesRead in
        let chunkCount := chunkCount + 1 in
        let '(fmodSystemResult, buffer, subSound) := readData subSound bytesToRead in
        let bytesRead := Z.of_nat (length buffer) in
        if negb (is_FMOD_OK fmodSystemResult) then
          Finished (false, subSound, wavFile, chunkCount, totalBytesRead)
        else
          let wavFile := of_write wavFile buffer in
          WriteAudioDataChunk_while fuel subSound wavFile soundLengthBytes chunkCount
            (wrap 32 (totalBytesRead + bytesRead))
      else Finished (true, subSound, wavFile, chunkCount, totalBytesRead)
  end.

Definition WriteAudioDataChunk (fuel : nat) (subSound : Sound) (wavFile : ofstream)
    (soundLengthBytes : Z) (chunkCount : Z) : outcome transcript :=
  WriteAudioDataChunk_while fuel subSound wavFile soundLengthBytes chunkCount 0.

(** [&buffer[i]], one byte. *)
Definition byte_at (buffer : list byte) (i : Z) : list byte :=
  take 1 (drop (Z.to_nat i) buffer).

(** The [for (unsigned int i = 0; i < bytesRead; i += 3)] loop of
    [WritePCM24DataChunk]; [n] bounds the number of iterations. *)
Fixpoint PCM24_for (n : nat) (i : Z) (buffer : list byte) (bytesRead : Z)
    (wavFile : ofstream) : ofstream :=
  match n with
  | O => wavFile
  | S n =>
      if i <? bytesRead then
        let wavFile :=
          if wrap 32 (i + 2) <? bytesRead then
            of_write (of_write (of_write wavFile (byte_at buffer i))
                        (byte_at buffer (i + 1))) (byte_at buffer (i + 2))
          else wavFile in
        PCM24_for n (wrap 32 (i + 3)) buffer bytesRead wavFile
      else wavFile
  end.

Fixpoint WritePCM24DataChunk_while (fuel : nat) (subSound : Sound) (wavFile : ofstream)
    (soundLengthBytes : Z) (chunkCount : Z) (totalBytesRead : Z) : outcome transcript :=
  match fuel with
  | O => OutOfFuel
  | S fuel =>
      if totalBytesRead <? soundLengthBytes then
        let bytesToRead := bytesToRead_of soundLengthBytes totalBytesRead in
        let chunkCount := chunkCount + 1 in
        let '(fmodSystemResult, buffer, subSound) := readData subSound bytesToRead in
        let bytesRead := Z.of_nat (length buffer) in
        if negb (is_FMOD_OK fmodSystemResult) then
          Finished (false, subSound, wavFile, chunkCount, totalBytesRead)
        else
          let wavFile := PCM24_for (length buffer) 0 buffer bytesRead wavFile in
          WritePCM24DataChunk_while fuel subSound wavFile soundLengthBytes chunkCount
            (wrap 32 (totalBytesRead + bytesRead))
      else Finished (true, subSound, wavFile, chunkCount, totalBytesRead)
  end.

Definition WritePCM24DataChunk (fuel : nat) (subSound : Sound) (wavFile : ofstream)
    (soundLengthBytes : Z) (chunkCount : Z) : outcome transcript :=
  WritePCM24DataChunk_while fuel subSound wavFile soundLengthBytes chunkCount 0.

(** The clamping loop [for (int i = 0; i < bytesRead / sizeof(float); ++i)]:
    the first [n] float slots of the buffer (slot [i] occupies bytes
    [4 i .. 4 i + 3]) are replaced by their clamped values. *)
Fixpoint clamp_for (n : nat) (floatBuffer : list byte) : list byte :=
  match n, floatBuffer with
  | S n, b0 :: b1 :: b2 :: b3 :: rest =>
      le_encode 4 (Float32.clamp (le_decode [b0; b1; b2; b3])
                     Float32.minus_one_bits Float32.one_bits)
      ++ clamp_for n rest
  | _, _ => floatBuffer
  end.

Fixpoint WritePCMFloatDataChunk_while (fuel : nat) (subSound : Sound) (wavFile : ofstream)
    (soundLengthBytes : Z) (chunkCount : Z) (totalBytesRead : Z) : outcome transcript :=
  match fuel with
  | O => OutOfFuel
  | S fuel =>
      if totalBytesRead <? soundLengthBytes then
        let bytesToRead := bytesToRead_of soundLengthBytes totalBytesRead in
        let chunkCount := chunkCount + 1 in
        let '(fmodSystemResult, floatBuffer, subSound) := readData subSound bytesToRead in
        let bytesRead := Z.of_nat (length floatBuffer) in
        if negb (is_FMOD_OK fmodSystemResult) then
          Finished (false, subSound, wavFile, chunkCount, totalBytesRead)
        else
          let floatBuffer := clamp_for (Z.to_nat (bytesRead / 4)) floatBuffer in
          let wavFile := of_write wavFile floatBuffer in
          WritePCMFloatDataChunk_while fuel subSound wavFile soundLengthBytes chunkCount
            (wrap 32 (totalBytesRead + bytesRead))
      else Finished (true, subSound, wavFile, chunkCount, totalBytesRead)
  end.

Definition WritePCMFloatDataChunk (fuel : nat) (subSound : Sound) (wavFile : ofstream)
    (soundLengthBytes : Z) (chunkCount : Z) : outcome transcript :=
  WritePCMFloatDataChunk_while fuel subSound wavFile soundLengthBytes chunkCount 0.

(** The shape the three loops share: they differ only in how a chunk is
    put into the output stream. *)
Fixpoint chunk_while (put : list byte -> ofstream -> ofstream) (fuel : nat) (subSound : Sound)
    (wavFile : ofstream) (soundLengthBytes : Z) (chunkCount : Z) (totalBytesRead : Z)
    : outcome transcript :=
  match fuel with
  | O => OutOfFuel
  | S fuel =>
      if totalBytesRead <? soundLengthBytes then
        let bytesToRead := bytesToRead_of soundLengthBytes totalBytesRead in
        let chunkCount := chunkCount + 1 in
        let '(fmodSystemResult, buffer, subSound) := readData subSound bytesToRead in
        let bytesRead := Z.of_nat (length buffer) in
        if negb (is_FMOD_OK fmodSystemResult) then
          Finished (false, subSound, wavFile, chunkCount, totalBytesRead)
        else
          chunk_while put fuel subSound (put buffer wavFile) soundLengthBytes chunkCount
            (wrap 32 (totalBytesRead + bytesRead))
      else Finished (true, subSound, wavFile, chunkCount, totalBytesRead)
  end.

Definition put_raw (buffer : list byte) (wavFile : ofstream) : ofstream :=
  of_write wavFile buffer.

Definition put_pcm24 (buffer : list byte) (wavFile : ofstream) : ofstream :=
  PCM24_for (length buffer) 0 buffer (Z.of_nat (length buffer)) wavFile.

Definition put_float (floatBuffer : list byte) (wavFile : ofstream) : ofstream :=
  of_write wavFile (clamp_for (Z.to_nat (Z.of_nat (length floatBuffer) / 4)) floatBuffer).

(** The engine's contract for [readData]: it never stores more than the
    [length] bytes it was asked for. *)
Definition readData_bounded : Prop :=
  forall (s : Sound) (n : Z), 0 <= n ->
    Z.of_nat (length (readData s n).1.2) <= n.

(** Every successful read delivers at least one byte. *)
Definition readData_progress : Prop :=
  forall (s : Sound) (n : Z), 0 < n ->
    is_FMOD_OK (readData s n).1.1 = true -> 0 < Z.of_nat (length (readData s n).1.2).

End Loops.

(** The 4-byte samples of a float data chunk, as bit patterns. *)
Fixpoint samples_of (data : list byte) : list Z :=
  match data with
  | b0 :: b1 :: b2 :: b3 :: rest => le_decode [b0; b1; b2; b3] :: samples_of rest
  | _ => []
  end.

End AudioProcessor.

(** ** Exceptions, console and the observable world *)

(** A call either returns or throws a [std::runtime_error]. *)
Inductive result (A : Type) :=
| Ok (a : A)
| Threw (what : string).
Arguments Ok {A} a.
Arguments Threw {A} what.

(** What the program does to its surroundings, in order.  Message texts
    are abbreviated.

    The log is not part of the model.  The log file is not among the files
    of [w_fs], and of what the program writes to it only the lines of
    [main] itself appear, as [LogLine] events, emitted whenever [main]
    holds the stream to be open.  The state bits of the log stream are not
    followed: in a run with [-v] over several containers the second
    [logFile.open] finds the stream open and fails, after which nothing
    more reaches the file, so that for such runs the [LogLine] events say
    more than is written.  Log messages never influence control flow.  The
    log stream is opened only when the command line holds [-v]; without it
    no log file exists and the model is complete in this respect. *)
Inductive Event :=
| Cout (line : string)
| Cerr (line : string)
| LogLine (line : string)
| CinGet
| EngineLoad (path : string)
| FsRemove (path : string).

Record World := mk_World {
  w_fs : gmap string (list byte);
  w_trace : list Event
}.

Definition emit (e : Event) (w : World) : World :=
  mk_World (w_fs w) (w_trace w ++ [e]).

Definition store (path : string) (content : list byte) (w : World) : World :=
  mk_World (<[path := content]> (w_fs w)) (w_trace w).

(** ** SanitizeFileName

    The nine unsafe characters are those of the source's [charMap]; the
    replacement strings are multi-byte literals whose bytes depend on the
    encoding of the source file and are a parameter. *)

Definition unsafe_char (c : ascii) : bool :=
  bool_decide (c ∈ ["<"; ">"; ":"; "034"; "/"; "\"; "|"; "?"; "*"]%char).

Definition SanitizeFileName (substitute : ascii -> string) (fileName : string) : string :=
  String.concat EmptyString
    (map (fun c => if unsafe_char c then substitute c else String c EmptyString)
       (String.list_ascii_of_string fileName)).

(** ** SoundInfo and GetSoundInfo *)

Record SoundInfo := mk_SoundInfo {
  format : FMOD_SOUND_FORMAT;
  soundType : Z;
  sampleRate : Z;
  bitsPerSample : Z;
  channels : Z;
  soundLengthBytes : Z;
  lengthMs : Z;
  subSoundName : string
}.

(** [(defaultFrequency > 0) ? static_cast<int>(defaultFrequency) : 44100]. *)
Definition sampleRate_of (defaultFrequency : spec_float) : option Z :=
  if SFltb (S754_zero false) defaultFrequency then float_to_int defaultFrequency
  else Some 44100.

Section Engine.
Context {engine : FMOD} {os : OS}.
Variable substitute : ascii -> string.

Definition GetSoundInfo (subSound : Sound) : outcome (result SoundInfo) :=
  let '(r, (soundType, format, channels, bitsPerSample)) := getFormat subSound in
  if negb (is_FMOD_OK r) then Finished (Threw "FMOD::Sound::getFormat failed") else
  let '(r, (defaultFrequency, defaultPriority)) := getDefaults subSound in
  if negb (is_FMOD_OK r) then Finished (Threw "FMOD::Sound::getDefaults failed") else
  match sampleRate_of defaultFrequency with
  | None => Undefined
  | Some sampleRate =>
      let '(r, soundLengthBytes) := getLength subSound FMOD_TIMEUNIT_PCMBYTES in
      if negb (is_FMOD_OK r) then Finished (Threw "FMOD::Sound::getLength (bytes) failed") else
      let '(r, lengthMs) := getLength subSound FMOD_TIMEUNIT_MS in
      if negb (is_FMOD_OK r) then Finished (Threw "FMOD::Sound::getLength (ms) failed") else
      let '(r, subSoundName) := getName subSound in
      Finished (Ok (mk_SoundInfo format soundType sampleRate bitsPerSample channels
                      (wrap 32 soundLengthBytes) (wrap 32 lengthMs) subSoundName))
  end.

(** ** ProcessSubSound

    The parameters [verboseLogEnabled] and [logFile] are left out together
    with the log (see [Event]): the model gives what the function does to
    the console and to every file but the log file.  That is all it does
    when the log stream is not open, as in every run without [-v]. *)

(** The [switch (soundInfo.format)]. *)
Definition transcribe (fuel : nat) (format : FMOD_SOUND_FORMAT) (subSound : Sound)
    (wavFile : ofstream) (soundLengthBytes : Z) (chunkCount : Z)
    : outcome (AudioProcessor.transcript (Sound := Sound)) :=
  match format with
  | FMOD_SOUND_FORMAT_PCM8 =>
      AudioProcessor.WriteAudioDataChunk readData fuel subSound wavFile soundLengthBytes chunkCount
  | FMOD_SOUND_FORMAT_PCM16 =>
      AudioProcessor.WriteAudioDataChunk readData fuel subSound wavFile soundLengthBytes chunkCount
  | FMOD_SOUND_FORMAT_PCM24 =>
      AudioProcessor.WritePCM24DataChunk readData fuel subSound wavFile soundLengthBytes chunkCount
  | FMOD_SOUND_FORMAT_PCM32 =>
      AudioProcessor.WriteAudioDataChunk readData fuel subSound wavFile soundLengthBytes chunkCount
  | FMOD_SOUND_FORMAT_PCMFLOAT =>
      AudioProcessor.WritePCMFloatDataChunk readData fuel subSound wavFile soundLengthBytes chunkCount
  | _ =>
      AudioProcessor.WriteAudioDataChunk readData fuel subSound wavFile soundLengthBytes chunkCount
  end.

Definition outputFileName_of (soundInfo : SoundInfo) (baseFileName : string)
    (subSoundIndex : Z) : string :=
  if 0 <? Z.of_nat (String.length (subSoundName soundInfo))
  then SanitizeFileName substitute (subSoundName soundInfo)
  else SanitizeFileName substitute (baseFileName +:+ "_" +:+ pretty subSoundIndex).

Definition ProcessSubSound (fuel : nat) (subSound : Sound) (subSoundIndex totalSubSounds : Z)
    (baseFileName outputDirectoryPath : string) (w : World)
    : outcome (result unit * World) :=
  let '(r, subSound) := seekData subSound 0 in
  if negb (is_FMOD_OK r) then Finished (Threw "FMOD::Sound::seekData failed", w) else
  match GetSoundInfo subSound with
  | OutOfFuel => OutOfFuel
  | Undefined => Undefined
  | Finished (Threw what) => Finished (Threw what, w)
  | Finished (Ok soundInfo) =>
      let outputFileName := outputFileName_of soundInfo baseFileName subSoundIndex in
      let fullOutputPath := path_append outputDirectoryPath (outputFileName +:+ ".wav") in
      let w := emit (Cout "Processing sub-sound") w in
      if negb (ofstream_can_open fullOutputPath) then
        let w := emit (Cerr "Error opening output WAV file") w in
        Finished (Threw "Failed to open output WAV file", w)
      else
        let wavFile := mk_ofstream true [] in
        let '(headerOk, wavFile) :=
          WriteWAVHeader wavFile (sampleRate soundInfo) (channels soundInfo)
            (soundLengthBytes soundInfo) (bitsPerSample soundInfo) (format soundInfo) in
        if negb headerOk then
          let w := emit (Cerr "Error writing WAV header to file")
                     (store fullOutputPath (of_written wavFile) w) in
          Finished (Threw "Failed to write WAV header", w)
        else
          let chunkCount := 0 in
          match transcribe fuel (format soundInfo) subSound wavFile
                  (soundLengthBytes soundInfo) chunkCount with
          | OutOfFuel => OutOfFuel
          | Undefined => Undefined
          | Finished (writeSuccess, _, wavFile, _, _) =>
              let w := store fullOutputPath (of_written wavFile) w in
              if negb writeSuccess then
                let w := emit (Cerr "Error writing audio data to WAV file") w in
                Finished (Threw "Failed to write audio data to WAV file", w)
              else
                Finished (Ok tt, emit (Cout "Status: Success") w)
          end
  end.

End Engine.

(** ** main *)

Definition is_help (arg : string) : bool :=
  bool_decide (arg = "-h") || bool_decide (arg = "-help").

(** [std::tolower] in the "C" range. *)
Definition tolower (c : ascii) : ascii :=
  let n := Ascii.nat_of_ascii c in
  if (65 <=? n)%nat && (n <=? 90)%nat then Ascii.ascii_of_nat (n + 32) else c.

(** The lower-cased path is at least five characters long and ends in [.bank]. *)
Definition is_bank_path (inputFilePath : string) : bool :=
  let lower := map tolower (String.list_ascii_of_string inputFilePath) in
  (5 <=? length lower)%nat
  && bool_decide (drop (length lower - 5) lower = String.list_ascii_of_string ".bank").

Record options := mk_options {
  outputDirectoryPath : string;
  option_count : Z;
  help_option_used : bool;
  verboseLogEnabled : bool
}.

(** How the [try] block of [main] is left. *)
Inductive try_exit :=
| TryReturn (code : Z)
| TryDone (verboseLogEnabled logOpen : bool) (tempFilesToDelete : list string)
| TryThrew (what : string).

Section Main.
Context {engine : FMOD} {os : OS}.
Variable substitute : ascii -> string.

(** The constructor of the RAII wrapper [FMODSystem]: what it prints to
    [std::cerr] before it returns or throws, and the object or the
    exception.  Only the version check prints: one line, before its
    [throw]. *)
Definition FMODSystem_ctor_run : list Event * result System :=
  let '(r, system) := System_Create in
  if negb (is_FMOD_OK r) then ([], Threw "FMOD::System_Create failed") else
  let '(r, version) := getVersion system in
  if negb (is_FMOD_OK r) then ([], Threw "FMOD::System::getVersion failed") else
  if version <? FMOD_VERSION then
    ([Cerr "FMOD lib version is less than header version"], Threw "FMOD version mismatch")
  else
  if negb (is_FMOD_OK (init system)) then ([], Threw "FMOD::System::init failed") else
  ([], Ok system).

Definition FMODSystem_ctor_cerr : list Event := FMODSystem_ctor_run.1.

Definition FMODSystem_ctor : result System := FMODSystem_ctor_run.2.

(** The option loop [for (int i = 2; i < argc; ++i)]; [None] is an early
    [return 1] after an error message. *)
Fixpoint parse_options (args : list string) (inputFilePath : string) (o : options)
    : option options :=
  match args with
  | [] => Some o
  | arg :: rest =>
      if bool_decide (arg = "-res") then
        parse_options rest inputFilePath
          (mk_options (parent_path inputFilePath) (option_count o + 1)
             (help_option_used o) (verboseLogEnabled o))
      else if bool_decide (arg = "-exe") then
        parse_options rest inputFilePath
          (mk_options current_path (option_count o + 1)
             (help_option_used o) (verboseLogEnabled o))
      else if bool_decide (arg = "-o") then
        match rest with
        | dir :: rest =>
            parse_options rest inputFilePath
              (mk_options dir (option_count o + 1)
                 (help_option_used o) (verboseLogEnabled o))
        | [] => None
        end
      else if bool_decide (arg = "-v") then
        parse_options rest inputFilePath
          (mk_options (outputDirectoryPath o) (option_count o) (help_option_used o) true)
      else if is_help arg then
        parse_options rest inputFilePath
          (mk_options (outputDirectoryPath o) (option_count o) true (verboseLogEnabled o))
      else None
  end.

(** The loop [for (int i = 0; i < numSubSounds; ++i)]: a failing
    sub-sound clears the flag and the loop goes on. *)
Fixpoint subSounds_for (fuel : nat) (n : nat) (i numSubSounds : Z) (sound : Sound)
    (baseFileName outputDirectory : string) (allSubSoundsProcessed : bool) (w : World)
    : outcome (bool * World) :=
  match n with
  | O => Finished (allSubSoundsProcessed, w)
  | S n =>
      let '(r, subSound) := getSubSound sound i in
      if negb (is_FMOD_OK r) then
        subSounds_for fuel n (i + 1) numSubSounds sound baseFileName outputDirectory false
          (emit (Cerr "FMOD::Sound::getSubSound failed") w)
      else
        match ProcessSubSound substitute fuel subSound i numSubSounds baseFileName
                outputDirectory w with
        | OutOfFuel => OutOfFuel
        | Undefined => Undefined
        | Finished (Ok _, w) =>
            subSounds_for fuel n (i + 1) numSubSounds sound baseFileName outputDirectory
              allSubSoundsProcessed w
        | Finished (Threw _, w) =>
            subSounds_for fuel n (i + 1) numSubSounds sound baseFileName outputDirectory false
              (emit (Cerr "Exception caught while processing sub-sound") w)
        end
  end.

(** The loop [for (const auto& currentInputFilePath : filesToProcess)].
    The constructor of [FMODSound] and the check of [getNumSubSounds] throw
    out of the loop.  Of the log stream the loop keeps whether it is open
    ([logOpen]); the calls of [std::filesystem::absolute], which only
    format paths for messages, are taken to succeed. *)
Fixpoint containers_for (fuel : nat) (system : System) (filesToProcess : list string)
    (outputDirectoryPath : string) (verboseLogEnabled logOpen : bool) (w : World)
    : outcome (result (bool * bool) * World) :=
  match filesToProcess with
  | [] => Finished (Ok (verboseLogEnabled, logOpen), w)
  | currentInputFilePath :: rest =>
      let w := emit (EngineLoad currentInputFilePath) w in
      let '(r, sound) :=
        createSound system currentInputFilePath (w_fs w !! currentInputFilePath) in
      if negb (is_FMOD_OK r) then Finished (Threw "FMOD::System::createSound failed", w) else
      let '(r, numSubSounds) := getNumSubSounds sound in
      if negb (is_FMOD_OK r) then Finished (Threw "FMOD::Sound::getNumSubSounds failed", w) else
      if 0 <? numSubSounds then
        let w := emit (Cout "Processing Start") w in
        let outputDirectory := path_append outputDirectoryPath (stem currentInputFilePath) in
        let '(created, ec) := create_directory outputDirectory in
        let '(outputDirectory, w) :=
          if negb created && ec then
            (outputDirectoryPath, emit (Cerr "Error creating directory") w)
          else if ec then (outputDirectory, w)
          else (outputDirectory, emit (Cout "Created directory") w) in
        let '(verboseLogEnabled, logOpen, w) :=
          if verboseLogEnabled then
            let logFilePath :=
              path_append outputDirectory ("_" +:+ stem currentInputFilePath +:+ ".log") in
            let w := emit (Cout "Log file path") w in
            let logOpen := logOpen || ofstream_can_open logFilePath in
            if negb logOpen then (false, logOpen, emit (Cerr "Error creating log file") w)
            else (true, logOpen, emit (LogLine "Log file opened") w)
          else (verboseLogEnabled, logOpen, w) in
        match subSounds_for fuel (Z.to_nat numSubSounds) 0 numSubSounds sound
                (stem currentInputFilePath) outputDirectory true w with
        | OutOfFuel => OutOfFuel
        | Undefined => Undefined
        | Finished (_, w) =>
            containers_for fuel system rest outputDirectoryPath verboseLogEnabled logOpen w
        end
      else
        containers_for fuel system rest outputDirectoryPath verboseLogEnabled logOpen
          (emit (Cout "No sub-sounds found in the audio file.") w)
  end.

(** The body of the [try] block.  The constructor of [FMODSystem] prints
    only on the path on which it throws. *)
Definition main_try (fuel : nat) (argv : list string) (w : World)
    : outcome (try_exit * World) :=
  match FMODSystem_ctor with
  | Threw what =>
      Finished (TryThrew what, mk_World (w_fs w) (w_trace w ++ FMODSystem_ctor_cerr))
  | Ok fmodSystem =>
      let inputFilePath := default EmptyString (argv !! 1%nat) in
      if negb (bool_decide (is_Some (w_fs w !! inputFilePath))) then
        Finished (TryReturn 1, emit (Cerr "Error: File not found") w)
      else
        match parse_options (drop 2 argv) inputFilePath
                (mk_options (parent_path inputFilePath) 0 false false) with
        | None => Finished (TryReturn 1, emit (Cerr "Error: invalid option") w)
        | Some o =>
            if (1 <? option_count o) && negb (help_option_used o) then
              Finished (TryReturn 1, emit (Cerr "Error: Only one output directory option") w)
            else if help_option_used o then
              if 0 <? option_count o then
                Finished (TryReturn 1, emit (Cerr "Error: Cannot use help option") w)
              else Finished (TryReturn 0, emit (Cerr "Usage_Detail") w)
            else if is_bank_path inputFilePath then
              match BANKtoFSBExtractor.ExtractFSBsFromBankFile fuel inputFilePath (w_fs w) with
              | OutOfFuel => OutOfFuel
              | Undefined => Undefined
              | Finished (filesToProcess, fs) =>
                  let w := mk_World fs (w_trace w) in
                  if bool_decide (filesToProcess = []) then
                    Finished (TryReturn 0, emit (Cout "No FSB files found inside bank file") w)
                  else
                    let tempFilesToDelete := filesToProcess in
                    match containers_for fuel fmodSystem filesToProcess
                            (outputDirectoryPath o) (verboseLogEnabled o) false w with
                    | OutOfFuel => OutOfFuel
                    | Undefined => Undefined
                    | Finished (Threw what, w) => Finished (TryThrew what, w)
                    | Finished (Ok (verbose, logOpen), w) =>
                        Finished (TryDone verbose logOpen tempFilesToDelete, w)
                    end
              end
            else
              match containers_for fuel fmodSystem [inputFilePath]
                      (outputDirectoryPath o) (verboseLogEnabled o) false w with
              | OutOfFuel => OutOfFuel
              | Undefined => Undefined
              | Finished (Threw what, w) => Finished (TryThrew what, w)
              | Finished (Ok (verbose, logOpen), w) => Finished (TryDone verbose logOpen [], w)
              end
        end
  end.

(** The closing loop over [tempFilesToDelete]. *)
Fixpoint delete_temp_files (tempFilesToDelete : list string) (w : World) : World :=
  match tempFilesToDelete with
  | [] => w
  | tempFile :: rest =>
      if bool_decide (is_Some (w_fs w !! tempFile)) then
        delete_temp_files rest
          (emit (FsRemove tempFile) (mk_World (delete tempFile (w_fs w)) (w_trace w)))
      else delete_temp_files rest w
  end.

Definition main (fuel : nat) (argv : list string) (w : World) : outcome (Z * World) :=
  let argc := Z.of_nat (length argv) in
  if argc <? 2 then Finished (1, emit (Cerr "Usage_Simple") w) else
  if (argc =? 2) && is_help (default EmptyString (argv !! 1%nat)) then
    Finished (0, emit (Cerr "Usage_Detail") w) else
  if (2 <? argc) && existsb is_help (drop 1 argv) then
    Finished (1, emit (Cerr "Error: Help option must be used alone") w) else
  match main_try fuel argv w with
  | OutOfFuel => OutOfFuel
  | Undefined => Undefined
  | Finished (TryReturn code, w) => Finished (code, w)
  | Finished (TryThrew what, w) =>
      let w := emit (Cerr " ===== ERROR ===== ") w in
      let w := emit (Cerr "Exception caught") w in
      let w := emit (Cerr "Press any key to continue...") w in
      let w := emit CinGet w in
      Finished (1, w)
  | Finished (TryDone verbose logOpen tempFilesToDelete, w) =>
      let w := if logOpen then emit (LogLine "Processing finished for Input file") w else w in
      let w := emit (Cout "Processing End") w in
      let w := delete_temp_files tempFilesToDelete w in
      Finished (0, w)
  end.

End Main.

(** * Vocabulary of the properties *)

(** ** Sample rate *)

(** The reading the specification gives of the sample-rate policy: "round
    to nearest integer Hz" (halves upward). *)
Definition nearest_integer (q : Q) : Z := Qfloor (q + (1 # 2))%Q.

Definition spec_sampleRate_of (defaultFrequency : spec_float) : option Z :=
  if SFltb (S754_zero false) defaultFrequency
  then nearest_integer <$> Q_of_float defaultFrequency
  else Some 44100.

(** 44100.75 Hz, a binary32 value: 11289792 * 2^-8. *)
Definition freq_44100_75 : spec_float := S754_finite false 11289792 (-8).

(** ** Float samples *)

(** A written sample is acceptable when it is a NaN or lies in [-1, 1]. *)
Definition sample_ok (bits : Z) : bool :=
  Float32.is_nan bits || Float32.in_unit_range bits.

(** A quiet NaN. *)
Definition nan_bits : Z := 0x7FC00000.

(** ** Engines used in examples *)

(** An engine that hands out the bytes of a fixed sample stream in full
    chunks: each read delivers as many bytes as requested, fewer only at
    the end of the stream; reading past the end is an error (end of
    file). *)
Definition streaming_readData (s : list byte) (n : Z) : FMOD_RESULT * list byte * list byte :=
  match s with
  | [] => (FMOD_ERR 16, [], [])
  | _ => (FMOD_OK, take (Z.to_nat n) s, drop (Z.to_nat n) s)
  end.

(** An engine for float streams: it holds whole samples (bit patterns)
    and every read delivers as many whole samples as fit the request. *)
Definition float_readData (s : list Z) (n : Z) : FMOD_RESULT * list byte * list Z :=
  match s with
  | [] => (FMOD_ERR 16, [], [])
  | _ => (FMOD_OK, flat_map (le_encode 4) (take (Z.to_nat (n / 4)) s),
          drop (Z.to_nat (n / 4)) s)
  end.

(** 2.0, a NaN and -3.0. *)
Definition three_floats : list Z := [0x40000000; nan_bits; 0xC0400000].

(** An engine whose reads succeed and deliver nothing. *)
Definition stalled_readData (s : unit) (n : Z) : FMOD_RESULT * list byte * unit :=
  (FMOD_OK, [], tt).

(** A stream of [n] bytes that are all zero except the last, which is 0xFF. *)
Definition ramp (n : nat) : list byte := replicate (n - 1) Byte.x00 ++ [Byte.xff].

(** A small concrete platform: slash-separated paths, every file and
    directory can be created. *)
Fixpoint after_last (sep : ascii) (l acc : list ascii) : list ascii :=
  match l with
  | [] => acc
  | c :: t => if bool_decide (c = sep) then after_last sep t [] else after_last sep t (acc ++ [c])
  end.

Fixpoint before_last (sep : ascii) (l : list ascii) : option (list ascii) :=
  match l with
  | [] => None
  | c :: t =>
      match before_last sep t with
      | Some r => Some (c :: r)
      | None => if bool_decide (c = sep) then Some [] else None
      end
  end.

Definition toy_filename (p : string) : string :=
  String.string_of_list_ascii (after_last "/" (String.list_ascii_of_string p) []).

Definition toy_stem (p : string) : string :=
  let f := after_last "/" (String.list_ascii_of_string p) [] in
  String.string_of_list_ascii (default f (before_last "." f)).

Definition toy_parent_path (p : string) : string :=
  String.string_of_list_ascii (default [] (before_last "/" (String.list_ascii_of_string p))).

Definition toy_OS : OS := {|
  stem := toy_stem;
  filename := toy_filename;
  parent_path := toy_parent_path;
  path_append := fun d f => d +:+ "/" +:+ f;
  current_path := "/cwd";
  temp_directory_path := "/tmp";
  ofstream_can_open := fun _ => true;
  create_directory := fun _ => (true, false)
|}.

(** A small concrete engine.  A container loads when it starts with the
    signature, carries version 1 and is at least 0x3C bytes long; it then
    holds one 16-bit mono stream at 44100 Hz whose samples are the bytes
    after the 0x3C-byte header. *)
Record toy_sound := mk_toy_sound {
  toy_format : FMOD_SOUND_FORMAT;
  toy_bits : Z;
  toy_length : Z;
  toy_data : list byte
}.

Definition toy_createSound (content : option (list byte)) : FMOD_RESULT * toy_sound :=
  match content with
  | Some c =>
      if BANKtoFSBExtractor.bytes_eqb (take 4 c) BANKtoFSBExtractor.FSB5
         && (field 4 4 c =? 1) && (60 <=? length c)%nat
      then (FMOD_OK, mk_toy_sound FMOD_SOUND_FORMAT_PCM16 16
                       (Z.of_nat (length c) - 60) (drop 60 c))
      else (FMOD_ERR 13, mk_toy_sound FMOD_SOUND_FORMAT_NONE 0 0 [])
  | None => (FMOD_ERR 18, mk_toy_sound FMOD_SOUND_FORMAT_NONE 0 0 [])
  end.

Definition toy_readData (s : toy_sound) (n : Z) : FMOD_RESULT * list byte * toy_sound :=
  let '(r, d, rest) := streaming_readData (toy_data s) n in
  (r, d, mk_toy_sound (toy_format s) (toy_bits s) (toy_length s) rest).

Definition toy_FMOD : FMOD := {|
  System := unit;
  Sound := toy_sound;
  FMOD_VERSION := 0x00020306;
  System_Create := (FMOD_OK, tt);
  getVersion := fun _ => (FMOD_OK, 0x00020306);
  init := fun _ => FMOD_OK;
  createSound := fun _ _ content => toy_createSound content;
  getNumSubSounds := fun _ => (FMOD_OK, 1);
  getSubSound := fun s _ => (FMOD_OK, s);
  seekData := fun s _ => (FMOD_OK, s);
  getFormat := fun s => (FMOD_OK, (0, toy_format s, 1, toy_bits s));
  getDefaults := fun _ => (FMOD_OK, (S754_finite false 11289600 (-8), 128));
  getLength := fun s u =>
    (FMOD_OK, match u with FMOD_TIMEUNIT_PCMBYTES => toy_length s | FMOD_TIMEUNIT_MS => 0 end);
  getName := fun _ => (FMOD_ERR_TAGNOTFOUND, EmptyString);
  readData := toy_readData
|}.

Definition toy_substitute (c : ascii) : string := "_".

(** A four-byte 24-bit stream: one complete sample and one stray byte. *)
Definition pcm24_four_bytes : toy_sound :=
  mk_toy_sound FMOD_SOUND_FORMAT_PCM24 24 4 [Byte.x01; Byte.x02; Byte.x03; Byte.x04].

(** A six-byte 16-bit stream. *)
Definition pcm16_six_bytes : toy_sound :=
  mk_toy_sound FMOD_SOUND_FORMAT_PCM16 16 6
    [Byte.x01; Byte.x02; Byte.x03; Byte.x04; Byte.x05; Byte.x06].

(** ** Signatures in a byte sequence *)

(** [search sfx p]: the offset of the earliest signature in [sfx],
    whose first byte has offset [p]. *)
Fixpoint search (sfx : list byte) (p : Z) : option Z :=
  match sfx with
  | [] => None
  | _ :: rest =>
      if BANKtoFSBExtractor.bytes_eqb (take 4 sfx) BANKtoFSBExtractor.FSB5
      then Some p
      else search rest (p + 1)
  end.

(** The earliest signature at or after offset [start]. *)
Definition first_signature (data : list byte) (start : Z) : option Z :=
  search (drop (Z.to_nat start) data) start.

(** The signature occurs at offset [p]. *)
Definition occurs_at (data : list byte) (p : Z) : Prop :=
  take 4 (drop (Z.to_nat p) data) = BANKtoFSBExtractor.FSB5.

(** The length a sub-container declares in the header at offset [o]. *)
Definition declared_length (data : list byte) (o : Z) : Z :=
  0x3C + field (Z.to_nat (o + 12)) 4 data + field (Z.to_nat (o + 16)) 4 data
  + field (Z.to_nat (o + 20)) 4 data.

(** A well-formed inner container for examples: signature, version,
    stream count, the three sizes, the rest of the 0x3C-byte header, and a
    body. *)
Definition toy_fsb (version shdrSize nameSize dataSize : Z) (body : list byte) : list byte :=
  BANKtoFSBExtractor.FSB5 ++ le_encode 4 version ++ le_encode 4 1
  ++ le_encode 4 shdrSize ++ le_encode 4 nameSize ++ le_encode 4 dataSize
  ++ replicate 36 Byte.x00 ++ body.

Definition junk (n : nat) : list byte := replicate n Byte.xaa.

(** Two sub-containers of 63 and 60 bytes with junk before, between and
    after them. *)
Definition bank_two_fsbs : list byte :=
  junk 3 ++ toy_fsb 1 1 0 2 [Byte.x01; Byte.x02; Byte.x03]
  ++ junk 5 ++ toy_fsb 1 0 0 0 [] ++ junk 2.

(** The signature at offsets 3 and 27: the second occurrence lies inside
    the 60 bytes that the header at the first declares. *)
Definition bank_overlapping : list byte :=
  junk 3 ++ BANKtoFSBExtractor.FSB5 ++ replicate 20 Byte.x00
  ++ BANKtoFSBExtractor.FSB5 ++ replicate 20 Byte.x00 ++ junk 40.

(** Two sub-containers, the first of which the example engine cannot open
    (version 2). *)
Definition bank_first_unreadable : list byte :=
  junk 3 ++ toy_fsb 2 0 0 0 [] ++ junk 5 ++ toy_fsb 1 0 0 2 [Byte.x01; Byte.x02].

(** All offsets at which the signature occurs. *)
Definition signature_offsets (data : list byte) : list Z :=
  filter (fun p => take 4 (drop (Z.to_nat p) data) = BANKtoFSBExtractor.FSB5)
    (seqZ 0 (Z.of_nat (length data))).

(** ** Runs of [main] *)

(** The command line passes the checks made before the [try] block. *)
Definition reaches_try (argv : list string) : bool :=
  let argc := Z.of_nat (length argv) in
  negb (argc <? 2)
  && negb ((argc =? 2) && is_help (default EmptyString (argv !! 1%nat)))
  && negb ((2 <? argc) && existsb is_help (drop 1 argv)).

Definition is_FsRemove (e : Event) : bool :=
  match e with FsRemove _ => true | _ => false end.

Definition is_EngineLoad (e : Event) : bool :=
  match e with EngineLoad _ => true | _ => false end.

(** What the top-level handler prints before [return 1]. *)
Definition error_banner : list Event :=
  [Cerr " ===== ERROR ===== "; Cerr "Exception caught";
   Cerr "Press any key to continue..."; CinGet].

(** The world in which [x.bank] holds the given bytes. *)
Definition world_with_bank (content : list byte) : World :=
  mk_World (<["x.bank" := content]> ∅) [].

(** ** 24-bit samples *)

(** The complete 3-byte samples at the front of a byte sequence. *)
Fixpoint complete_samples (l : list byte) : list byte :=
  match l with
  | b0 :: b1 :: b2 :: rest => b0 :: b1 :: b2 :: complete_samples rest
  | _ => []
  end.

(** ** Termination of the transcription loops *)

(** A loop returns for the declared length [L]: some amount of fuel lets
    it finish; a successful return means the running total is exactly [L];
    and it is successful when no read fails. *)
Definition reaches_total {Sound : Type}
    (readData : Sound -> Z -> FMOD_RESULT * list byte * Sound)
    (loop : nat -> Sound -> ofstream -> Z -> Z
            -> outcome (AudioProcessor.transcript (Sound := Sound)))
    (L : Z) : Prop :=
  forall (s : Sound) (wav : ofstream) (c : Z),
  exists fuel ok s' wav' c' total',
    loop fuel s wav L c = Finished (ok, s', wav', c', total')
    /\ (ok = true -> total' = L)
    /\ ((forall s n, is_FMOD_OK (readData s n).1.1 = true) -> ok = true).

(** A loop never returns: whatever the fuel, it is still running. *)
Definition never_returns {Sound : Type}
    (loop : nat -> Sound -> ofstream -> Z -> Z
            -> outcome (AudioProcessor.transcript (Sound := Sound)))
    (s : Sound) (L : Z) : Prop :=
  forall (fuel : nat) (wav : ofstream) (c : Z), loop fuel s wav L c = OutOfFuel.

(** * More of the program, and the vocabulary of the further properties *)

(** ** SanitizeFileName, as the loop is written

    [SanitizeFileName] above gives the result character by character.
    The source obtains it with an index loop that edits the string in
    place: [sanitized.replace(i, 1, it->second)] and then
    [i += it->second.length() - 1] in [size_t] arithmetic, followed by the
    [++i] of the loop header.  [n] bounds the number of iterations. *)

Fixpoint SanitizeFileName_for (substitute : ascii -> string) (n : nat) (i : Z)
    (sanitized : list ascii) : outcome (list ascii) :=
  match n with
  | O => OutOfFuel
  | S n =>
      if i <? Z.of_nat (length sanitized) then
        match sanitized !! Z.to_nat i with
        | Some c =>
            if unsafe_char c then
              let replacement := String.list_ascii_of_string (substitute c) in
              let sanitized :=
                take (Z.to_nat i) sanitized ++ replacement ++ drop (S (Z.to_nat i)) sanitized in
              let i := wrap 64 (i + wrap 64 (Z.of_nat (length replacement) - 1)) in
              SanitizeFileName_for substitute n (wrap 64 (i + 1)) sanitized
            else SanitizeFileName_for substitute n (wrap 64 (i + 1)) sanitized
        | None => Undefined
        end
      else Finished sanitized
  end.

(** The replacement strings of the source's [charMap], byte for byte as
    the literals stand in the source file. *)
Definition charMap (c : ascii) : string :=
  String.string_of_list_ascii (map Ascii.ascii_of_nat
    (if bool_decide (c = "<"%char) then [203; 135; 194; 180]
     else if bool_decide (c = ">"%char) then [203; 135; 194; 181]
     else if bool_decide (c = ":"%char) then [197; 129; 197; 159]
     else if bool_decide (c = "034"%char) then [197; 129; 203; 152]
     else if bool_decide (c = "/"%char) then [197; 129; 197; 187]
     else if bool_decide (c = "\"%char) then [197; 129; 195; 156]
     else if bool_decide (c = "|"%char) then [197; 129; 195; 188]
     else if bool_decide (c = "?"%char) then [197; 129; 197; 188]
     else if bool_decide (c = "*"%char) then [197; 129; 197; 158]
     else [])%nat).

(** What [SanitizeFileName] makes of one character. *)
Definition sanitized_char (substitute : ascii -> string) (c : ascii) : list ascii :=
  if unsafe_char c then String.list_ascii_of_string (substitute c) else [c].

(** ** What a step does to its surroundings *)

(** [w'] comes after [w] without any file having been removed: the trace
    has grown by events that are not removals, and every file of [w] still
    exists. *)
Definition extends (w w' : World) : Prop :=
  (exists events, w_trace w' = w_trace w ++ events
                  /\ Forall (fun e => is_FsRemove e = false) events)
  /\ forall q, is_Some (w_fs w !! q) -> is_Some (w_fs w' !! q).

(** [w'] comes after [w] by events that satisfy [P] and by creating,
    changing or removing only files whose paths satisfy [F]. *)
Definition evolves (P : Event -> bool) (F : string -> Prop) (w w' : World) : Prop :=
  (exists events, w_trace w' = w_trace w ++ events /\ Forall (fun e => P e = true) events)
  /\ forall q, w_fs w' !! q <> w_fs w !! q -> F q.

Definition is_LogLine (e : Event) : bool :=
  match e with LogLine _ => true | _ => false end.

(** Console output. *)
Definition is_console (e : Event) : bool :=
  match e with Cout _ | Cerr _ => true | _ => false end.



(** A path of the shape [ProcessSubSound] gives its output file: a
    directory, a name and the extension [.wav]. *)
Definition wav_path {os : OS} (q : string) : Prop :=
  exists dir name, q = path_append dir (name +:+ ".wav").

(** The files that a run on an outer container obtains from the
    extractor. *)
Definition temp_file_of {os : OS} (fuel : nat) (inputFilePath : string) (w : World)
    (q : string) : Prop :=
  is_bank_path inputFilePath = true
  /\ exists tempFsbFiles fs',
       BANKtoFSBExtractor.ExtractFSBsFromBankFile fuel inputFilePath (w_fs w)
       = Finished (tempFsbFiles, fs')
       /\ q ∈ tempFsbFiles.

(** ** Further engines, platforms and inputs used in examples *)

(** A 16-bit stream that reports six bytes and holds three. *)
Definition pcm16_cut_short : toy_sound :=
  mk_toy_sound FMOD_SOUND_FORMAT_PCM16 16 6 [Byte.x01; Byte.x02; Byte.x03].

(** A platform on which no file can be created. *)
Definition readonly_OS : OS := {|
  stem := toy_stem;
  filename := toy_filename;
  parent_path := toy_parent_path;
  path_append := fun d f => d +:+ "/" +:+ f;
  current_path := "/cwd";
  temp_directory_path := "/tmp";
  ofstream_can_open := fun _ => false;
  create_directory := fun _ => (false, true)
|}.

(** An outer container holding one sub-container whose three sizes add up
    to 2^32 - 0x3C, so that the 32-bit length computed from them is 0. *)
Definition bank_zero_length : list byte :=
  junk 2 ++ toy_fsb 1 0xFFFFFFC4 0 0 [] ++ junk 4.

(** An outer container that ends 6 bytes before the end of the 70 bytes
    that its sub-container declares. *)
Definition bank_cut_short : list byte :=
  junk 2 ++ take 64 (toy_fsb 1 4 4 2 (junk 10)).

(** An outer container that ends 15 bytes after a signature, inside the
    header. *)
Definition bank_cut_in_header : list byte :=
  junk 2 ++ take 15 (toy_fsb 1 4 4 2 (junk 10)).

(** An engine that delivers silence: it holds the number of bytes left
    and hands out that many zero bytes, as many as are asked for. *)
Definition silent_readData (s : nat) (n : Z) : FMOD_RESULT * list byte * nat :=
  match s with
  | O => (FMOD_ERR 16, [], O)
  | _ => (FMOD_OK, replicate (Nat.min s (Z.to_nat n)) Byte.x00, (s - Z.to_nat n)%nat)
  end.

(** An engine that delivers at most two bytes per read. *)
Definition trickle_readData (s : list byte) (n : Z) : FMOD_RESULT * list byte * list byte :=
  match s with
  | [] => (FMOD_ERR 16, [], [])
  | _ => (FMOD_OK, take (Z.to_nat (Z.min 2 n)) s, drop (Z.to_nat (Z.min 2 n)) s)
  end.

(** An engine for 24-bit streams: every read delivers the whole 3-byte
    samples that fit the request. *)
Definition sample24_readData (s : list byte) (n : Z) : FMOD_RESULT * list byte * list byte :=
  match s with
  | [] => (FMOD_ERR 16, [], [])
  | _ => (FMOD_OK, complete_samples (take (Z.to_nat n) s),
          drop (length (complete_samples (take (Z.to_nat n) s))) s)
  end.

(** An engine library that is older than the header the program was built
    against. *)
Definition outdated_FMOD : FMOD := {|
  System := unit;
  Sound := toy_sound;
  FMOD_VERSION := 0x00020306;
  System_Create := (FMOD_OK, tt);
  getVersion := fun _ => (FMOD_OK, 0x00020200);
  init := fun _ => FMOD_OK;
  createSound := fun _ _ content => toy_createSound content;
  getNumSubSounds := fun _ => (FMOD_OK, 1);
  getSubSound := fun s _ => (FMOD_OK, s);
  seekData := fun s _ => (FMOD_OK, s);
  getFormat := fun s => (FMOD_OK, (0, toy_format s, 1, toy_bits s));
  getDefaults := fun _ => (FMOD_OK, (S754_finite false 11289600 (-8), 128));
  getLength := fun s u =>
    (FMOD_OK, match u with FMOD_TIMEUNIT_PCMBYTES => toy_length s | FMOD_TIMEUNIT_MS => 0 end);
  getName := fun _ => (FMOD_ERR_TAGNOTFOUND, EmptyString);
  readData := toy_readData
|}.

(** An engine whose streams report a default frequency of 44100.75 Hz. *)
Definition detuned_FMOD : FMOD := {|
  System := unit;
  Sound := toy_sound;
  FMOD_VERSION := 0x00020306;
  System_Create := (FMOD_OK, tt);
  getVersion := fun _ => (FMOD_OK, 0x00020306);
  init := fun _ => FMOD_OK;
  createSound := fun _ _ content => toy_createSound content;
  getNumSubSounds := fun _ => (FMOD_OK, 1);
  getSubSound := fun s _ => (FMOD_OK, s);
  seekData := fun s _ => (FMOD_OK, s);
  getFormat := fun s => (FMOD_OK, (0, toy_format s, 1, toy_bits s));
  getDefaults := fun _ => (FMOD_OK, (freq_44100_75, 128));
  getLength := fun s u =>
    (FMOD_OK, match u with FMOD_TIMEUNIT_PCMBYTES => toy_length s | FMOD_TIMEUNIT_MS => 0 end);
  getName := fun _ => (FMOD_ERR_TAGNOTFOUND, EmptyString);
  readData := toy_readData
|}.

(** The world in which [x.bank] holds the given bytes and a file already
    stands where the first temporary file will be written. *)
Definition world_with_bank_and_temp (content : list byte) : World :=
  mk_World (<["/tmp/x.fsb" := [Byte.x00]]> (<["x.bank" := content]> ∅)) [].

(** The world that a finished run, or a finished [try] block, leaves. *)
Definition world_after {A : Type} (o : outcome (A * World)) : World :=
  match o with
  | Finished (_, w) => w
  | _ => mk_World ∅ []
  end.

(** * Facts *)

Section ByteFacts.

Lemma Z_of_byte_range (b : byte) : 0 <= Z_of_byte b < 256.
Proof.
  unfold Z_of_byte. pose proof (Byte.to_N_bounded b) as H. lia.
Qed.

Lemma Z_of_byte_of_Z (z : Z) : Z_of_byte (byte_of_Z z) = z mod 256.
Proof.
  unfold Z_of_byte, byte_of_Z.
  assert (Hr : 0 <= z mod 256 < 256) by (apply Z.mod_pos_bound; lia).
  destruct (Byte.of_N (Z.to_N (z mod 256))) as [b|] eqn:E.
  - apply Byte.to_of_N in E. simpl. rewrite E. lia.
  - apply Byte.of_N_None_iff in E. lia.
Qed.

Lemma byte_of_Z_of_byte (b : byte) : byte_of_Z (Z_of_byte b) = b.
Proof.
  unfold byte_of_Z. pose proof (Z_of_byte_range b) as Hr.
  rewrite Z.mod_small by lia. unfold Z_of_byte. rewrite N2Z.id.
  rewrite Byte.of_to_N. reflexivity.
Qed.

Lemma length_le_encode n z : length (le_encode n z) = n.
Proof. revert z; induction n as [|n IH]; intros z; simpl; [done|]. by rewrite IH. Qed.

Lemma le_decode_range (l : list byte) : 0 <= le_decode l < 2 ^ (8 * Z.of_nat (length l)).
Proof.
  induction l as [|b l IH]; [simpl; lia|].
  cbn [le_decode length]. pose proof (Z_of_byte_range b).
  replace (8 * Z.of_nat (S (length l))) with (8 + 8 * Z.of_nat (length l)) by lia.
  rewrite Z.pow_add_r by lia. change (2 ^ 8) with 256. nia.
Qed.

Lemma le_decode_encode n z : le_decode (le_encode n z) = z mod 2 ^ (8 * Z.of_nat n).
Proof.
  revert z; induction n as [|n IH]; intros z.
  - simpl. by rewrite Z.mod_1_r.
  - cbn [le_encode le_decode]. rewrite IH, Z_of_byte_of_Z.
    replace (8 * Z.of_nat (S n)) with (8 + 8 * Z.of_nat n) by lia.
    rewrite Z.pow_add_r by lia. change (2 ^ 8) with 256.
    rewrite Z.rem_mul_r by lia. lia.
Qed.

Lemma le_encode_decode (l : list byte) : le_encode (length l) (le_decode l) = l.
Proof.
  induction l as [|b l IH]; [done|].
  cbn [length le_encode le_decode]. pose proof (Z_of_byte_range b) as Hb.
  assert (E1 : (Z_of_byte b + 256 * le_decode l) mod 256 = Z_of_byte b).
  { Z.div_mod_to_equations; lia. }
  assert (E2 : (Z_of_byte b + 256 * le_decode l) / 256 = le_decode l).
  { pose proof (le_decode_range l). Z.div_mod_to_equations; lia. }
  rewrite E2, IH. f_equal.
  unfold byte_of_Z. rewrite E1. unfold Z_of_byte.
  by rewrite N2Z.id, Byte.of_to_N.
Qed.

Lemma field_at (pre post : list byte) (n : nat) (z : Z) :
  field (length pre) n (pre ++ le_encode n z ++ post) = z mod 2 ^ (8 * Z.of_nat n).
Proof.
  unfold field. rewrite drop_app_length.
  rewrite <- (length_le_encode n z) at 1. rewrite take_app_length.
  apply le_decode_encode.
Qed.

End ByteFacts.

(** ** The WAV header *)

Section HeaderFacts.

Lemma wrap_wrap w z : 0 <= w -> wrap w (wrap w z) = wrap w z.
Proof. intros Hw. unfold wrap. apply Z.mod_mod. apply Z.pow_nonzero; lia. Qed.

Lemma wrap_small w z : 0 <= z < 2 ^ w -> wrap w z = z.
Proof. intros Hz. unfold wrap. by apply Z.mod_small. Qed.

Lemma wrap_32_64 z : wrap 32 (wrap 64 z) = wrap 32 z.
Proof. unfold wrap. change (2 ^ 64) with (2 ^ 32 * 2 ^ 32). Z.div_mod_to_equations. lia. Qed.

Lemma field_skip (pre rest : list byte) (off n k : nat) :
  length pre = k -> (k <= off)%nat ->
  field off n (pre ++ rest) = field (off - k) n rest.
Proof.
  intros <- Hk. unfold field. f_equal. f_equal.
  rewrite drop_app_ge by lia. done.
Qed.

(** A field that lies inside the front part of an image. *)
Lemma field_app_l (off n : nat) (pre rest : list byte) :
  (off + n <= length pre)%nat -> field off n (pre ++ rest) = field off n pre.
Proof.
  intros Hlen. unfold field. rewrite drop_app_le by lia.
  rewrite take_app_le; [done|]. rewrite length_drop. lia.
Qed.

Lemma field_here (n : nat) (z : Z) (post : list byte) :
  field 0 n (le_encode n z ++ post) = z mod 2 ^ (8 * Z.of_nat n).
Proof. apply (field_at [] post n z). Qed.

Lemma field_last (n : nat) (z : Z) :
  field 0 n (le_encode n z) = z mod 2 ^ (8 * Z.of_nat n).
Proof. rewrite <- (app_nil_r (le_encode n z)). apply field_here. Qed.

Ltac header_field :=
  unfold WAVHeader_bytes;
  repeat (erewrite field_skip by (reflexivity || (simpl; lia)));
  simpl Nat.sub;
  first [rewrite field_here | rewrite field_last].

Lemma length_WAVHeader_bytes sr ch ds bps fmt :
  length (WAVHeader_bytes sr ch ds bps fmt) = 44%nat.
Proof. reflexivity. Qed.

Lemma byteRate_field_mod sr ch bps :
  byteRate_field sr ch bps = (sr * ch * bps / 8) mod 2 ^ 32.
Proof.
  unfold byteRate_field, wrap, Constants.BITS_IN_BYTE.
  change (8 mod 2 ^ 64) with 8.
  change (2 ^ 64) with 18446744073709551616. change (2 ^ 32) with 4294967296.
  rewrite <- (Z.mul_mod sr ch 18446744073709551616) by lia.
  rewrite <- (Z.mul_mod (sr * ch) bps 18446744073709551616) by lia.
  generalize (sr * ch * bps). intros P.
  pose proof (Z.div_mod P 18446744073709551616 ltac:(lia)) as H1.
  set (r := P mod 18446744073709551616) in *.
  set (q := P / 18446744073709551616) in *.
  assert (E : P / 8 = q * 2305843009213693952 + r / 8).
  { rewrite H1.
    replace (18446744073709551616 * q + r) with (r + (q * 2305843009213693952) * 8) by lia.
    rewrite Z.div_add by lia. lia. }
  rewrite E.
  replace (q * 2305843009213693952 + r / 8) with (r / 8 + (q * 536870912) * 4294967296) by lia.
  by rewrite Z.mod_add by lia.
Qed.

Lemma hdr_riff_size_eq sr ch ds bps fmt :
  hdr_riff_size (WAVHeader_bytes sr ch ds bps fmt) = (36 + ds) mod 2 ^ 32.
Proof.
  unfold hdr_riff_size. header_field.
  rewrite wrap_32_64. apply (wrap_wrap 32). lia.
Qed.

Lemma hdr_data_size_eq sr ch ds bps fmt :
  hdr_data_size (WAVHeader_bytes sr ch ds bps fmt) = ds mod 2 ^ 32.
Proof. unfold hdr_data_size. header_field. apply (wrap_wrap 32). lia. Qed.

Lemma hdr_sample_rate_eq sr ch ds bps fmt :
  hdr_sample_rate (WAVHeader_bytes sr ch ds bps fmt) = sr mod 2 ^ 32.
Proof. unfold hdr_sample_rate. header_field. apply (wrap_wrap 32). lia. Qed.

Lemma hdr_byte_rate_eq sr ch ds bps fmt :
  hdr_byte_rate (WAVHeader_bytes sr ch ds bps fmt) = (sr * ch * bps / 8) mod 2 ^ 32.
Proof.
  unfold hdr_byte_rate. header_field. rewrite byteRate_field_mod.
  apply Z.mod_mod. lia.
Qed.

Lemma hdr_block_align_eq sr ch ds bps fmt :
  hdr_block_align (WAVHeader_bytes sr ch ds bps fmt)
  = Z.quot (sint32 (ch * bps)) 8 mod 2 ^ 16.
Proof.
  unfold hdr_block_align. header_field. unfold blockAlign_field, wrap, Constants.BITS_IN_BYTE.
  apply Z.mod_mod. lia.
Qed.

Lemma hdr_format_code_eq sr ch ds bps fmt :
  hdr_format_code (WAVHeader_bytes sr ch ds bps fmt)
  = if is_PCMFLOAT fmt then Constants.FORMAT_PCM_FLOAT else Constants.FORMAT_PCM.
Proof. unfold hdr_format_code. header_field. by destruct (is_PCMFLOAT fmt). Qed.

Lemma WriteWAVHeader_success file sr ch ds bps fmt file' :
  WriteWAVHeader file sr ch ds bps fmt = (true, file') ->
  of_is_open file' = true /\
  of_written file' = of_written file ++ WAVHeader_bytes sr ch ds bps fmt.
Proof.
  unfold WriteWAVHeader, of_write. destruct (of_is_open file) eqn:E; simpl; [|done].
  intros [= <-]. done.
Qed.

End HeaderFacts.

(** C6, as stated, fails at the top of the 32-bit range: for a data size of
    4294967295 bytes the header is written successfully and its RIFF size
    field holds 35, not 36 + 4294967295. *)
Lemma WriteWAVHeader_riff_size_wraps :
  (WriteWAVHeader (mk_ofstream true []) 44100 2 4294967295 16 FMOD_SOUND_FORMAT_PCM16).1 = true
  /\ hdr_riff_size
       (of_written
          (WriteWAVHeader (mk_ofstream true []) 44100 2 4294967295 16
             FMOD_SOUND_FORMAT_PCM16).2) = 35
  /\ 35 <> 36 + 4294967295.
Proof. split; [reflexivity|]. split; [vm_compute; reflexivity | lia]. Qed.

(** C6 (amended): for every successfully written WAV header, each derived
    field holds its value reduced to the width of the field.  The byte-rate
    field is [sampleRate * channels * bitsPerSample / 8] modulo 2^32, the
    block-align field is the [int] quotient [channels * bitsPerSample / 8]
    modulo 2^16, the RIFF size field is [36 + dataSize] modulo 2^32, and the
    format code is 3 exactly for 32-bit float PCM and 1 for every other
    format.  Whenever a value fits its field, the field equals it exactly. *)
Theorem WriteWAVHeader_fields (file file' : ofstream)
    (sampleRate channels dataSize bitsPerSample : Z) (format : FMOD_SOUND_FORMAT) :
  WriteWAVHeader file sampleRate channels dataSize bitsPerSample format = (true, file') ->
  let image := drop (length (of_written file)) (of_written file') in
  length image = 44%nat
  /\ hdr_byte_rate image = (sampleRate * channels * bitsPerSample / 8) mod 2 ^ 32
  /\ hdr_block_align image = Z.quot (sint32 (channels * bitsPerSample)) 8 mod 2 ^ 16
  /\ hdr_riff_size image = (36 + dataSize) mod 2 ^ 32
  /\ (format = FMOD_SOUND_FORMAT_PCMFLOAT -> hdr_format_code image = Constants.FORMAT_PCM_FLOAT)
  /\ (format <> FMOD_SOUND_FORMAT_PCMFLOAT -> hdr_format_code image = Constants.FORMAT_PCM)
  /\ (0 <= (sampleRate * channels * bitsPerSample / 8) < 2 ^ 32 ->
      hdr_byte_rate image = sampleRate * channels * bitsPerSample / 8)
  /\ (0 <= channels * bitsPerSample < 2 ^ 31 -> channels * bitsPerSample / 8 < 2 ^ 16 ->
      hdr_block_align image = channels * bitsPerSample / 8)
  /\ (0 <= dataSize -> 36 + dataSize < 2 ^ 32 -> hdr_riff_size image = 36 + dataSize).
Proof.
  intros Hw image. apply WriteWAVHeader_success in Hw as [_ Hw].
  assert (Himg : image = WAVHeader_bytes sampleRate channels dataSize bitsPerSample format).
  { unfold image. rewrite Hw. by rewrite drop_app_length. }
  rewrite Himg. clear image Himg Hw.
  rewrite hdr_byte_rate_eq, hdr_block_align_eq, hdr_riff_size_eq, hdr_format_code_eq.
  repeat split.
  - by intros ->.
  - by destruct format.
  - intros Hr. by apply Z.mod_small.
  - intros Hp Hq. unfold sint32. rewrite wrap_small by lia.
    assert (Hlt : (channels * bitsPerSample <? 2 ^ 31) = true) by (apply Z.ltb_lt; lia).
    rewrite Hlt. rewrite Z.quot_div_nonneg by lia.
    apply Z.mod_small. split; [apply Z.div_pos; lia | lia].
  - intros H0 H1. apply Z.mod_small. lia.
Qed.

Lemma WriteWAVHeader_fields_witness :
  WriteWAVHeader (mk_ofstream true []) 44100 2 1000 16 FMOD_SOUND_FORMAT_PCM16
  = (true, mk_ofstream true (WAVHeader_bytes 44100 2 1000 16 FMOD_SOUND_FORMAT_PCM16))
  /\ hdr_byte_rate (WAVHeader_bytes 44100 2 1000 16 FMOD_SOUND_FORMAT_PCM16) = 176400
  /\ hdr_riff_size (WAVHeader_bytes 44100 2 1000 16 FMOD_SOUND_FORMAT_PCM16) = 1036.
Proof.
  split; [reflexivity|].
  destruct (WriteWAVHeader_fields (mk_ofstream true [])
              (mk_ofstream true (WAVHeader_bytes 44100 2 1000 16 FMOD_SOUND_FORMAT_PCM16))
              44100 2 1000 16 FMOD_SOUND_FORMAT_PCM16 eq_refl)
    as (_ & _ & _ & _ & _ & _ & Hrate & _ & Hriff).
  split; [apply Hrate; change (44100 * 2 * 16 / 8) with 176400; lia | apply Hriff; lia].
Defined.

(** ** Floats *)

Section FloatFacts.

Lemma decode_one : Float32.decode Float32.one_bits = S754_finite false 8388608 (-23).
Proof. reflexivity. Qed.

Lemma decode_minus_one : Float32.decode Float32.minus_one_bits = S754_finite true 8388608 (-23).
Proof. reflexivity. Qed.

Lemma CompOpp_compare_cont (p q : positive) :
  Pos.compare_cont Eq q p = CompOpp (Pos.compare_cont Eq p q).
Proof. symmetry. apply (Pos.compare_cont_antisym p q Eq). Qed.

Lemma SFcompare_antisym (x y : spec_float) :
  SFcompare y x = CompOpp <$> SFcompare x y.
Proof.
  destruct x as [sx|sx| |sx mx ex], y as [sy|sy| |sy my ey]; simpl; try reflexivity;
    try (destruct sx; reflexivity); try (destruct sy; reflexivity);
    try (destruct sx, sy; reflexivity).
  destruct sx, sy; simpl; try reflexivity;
    rewrite (Z.compare_antisym ex ey); destruct (ex ?= ey); simpl; try reflexivity;
    rewrite (CompOpp_compare_cont mx my); by destruct (Pos.compare_cont Eq mx my).
Qed.

Lemma SFltb_false_SFleb (x y : spec_float) :
  x <> S754_nan -> y <> S754_nan -> SFltb x y = false -> SFleb y x = true.
Proof.
  intros Hx Hy. unfold SFltb, SFleb. rewrite (SFcompare_antisym x y).
  destruct (SFcompare x y) as [[]|] eqn:E; simpl; try done.
  destruct x, y; simpl in E; try done; by destruct s.
Qed.

Lemma is_nan_decode bits : Float32.is_nan bits = false <-> Float32.decode bits <> S754_nan.
Proof. unfold Float32.is_nan. destruct (Float32.decode bits); split; done. Qed.

Lemma clamp_in_unit_range (bits : Z) :
  Float32.is_nan bits = false ->
  Float32.in_unit_range (Float32.clamp bits Float32.minus_one_bits Float32.one_bits) = true.
Proof.
  intros Hn%is_nan_decode. unfold Float32.clamp, Float32.ltb.
  destruct (SFltb (Float32.decode bits) (Float32.decode Float32.minus_one_bits)) eqn:E1;
    [reflexivity|].
  destruct (SFltb (Float32.decode Float32.one_bits) (Float32.decode bits)) eqn:E2;
    [reflexivity|].
  unfold Float32.in_unit_range, Float32.leb.
  rewrite (SFltb_false_SFleb _ _ Hn) by done.
  by rewrite SFltb_false_SFleb.
Qed.

Lemma clamp_nan (bits : Z) :
  Float32.is_nan bits = true ->
  Float32.clamp bits Float32.minus_one_bits Float32.one_bits = bits.
Proof.
  unfold Float32.is_nan, Float32.clamp, Float32.ltb.
  by destruct (Float32.decode bits) eqn:E.
Qed.

Lemma nan_not_in_unit_range (bits : Z) :
  Float32.is_nan bits = true -> Float32.in_unit_range bits = false.
Proof.
  unfold Float32.is_nan, Float32.in_unit_range, Float32.leb.
  by destruct (Float32.decode bits).
Qed.

Lemma clamp_range (bits : Z) :
  0 <= bits < 2 ^ 32 ->
  0 <= Float32.clamp bits Float32.minus_one_bits Float32.one_bits < 2 ^ 32.
Proof.
  intros Hb. unfold Float32.clamp.
  destruct (Float32.ltb bits Float32.minus_one_bits); [done|].
  destruct (Float32.ltb Float32.one_bits bits); done.
Qed.

Lemma clamp_sample_ok (bits : Z) :
  sample_ok (Float32.clamp bits Float32.minus_one_bits Float32.one_bits) = true.
Proof.
  unfold sample_ok. destruct (Float32.is_nan bits) eqn:E.
  - rewrite clamp_nan by done. by rewrite E.
  - rewrite clamp_in_unit_range by done. apply orb_true_r.
Qed.

End FloatFacts.

(** ** The sample rate *)

Section SampleRateFacts.

Lemma pow2_pos (e : Z) : 0 <= e -> 0 < 2 ^ e.
Proof. intros He. apply Z.pow_pos_nonneg; lia. Qed.

Lemma float_to_int_trunc (m : positive) (e : Z) (q : Q) :
  Q_of_float (S754_finite false m e) = Some q ->
  (q < inject_Z (2 ^ 31))%Q ->
  exists r, float_to_int (S754_finite false m e) = Some r
            /\ (inject_Z r <= q)%Q /\ (q < inject_Z (r + 1))%Q.
Proof.
  unfold Q_of_float, float_to_int. destruct (0 <=? e) eqn:He.
  - apply Z.leb_le in He. intros [= <-]. pose proof (pow2_pos e He) as Hp.
    unfold Qlt, Qle. simpl. intros Hlt.
    exists (Z.pos m * 2 ^ e). split.
    + assert (Hr : (- 2 ^ 31 <=? Z.pos m * 2 ^ e) && (Z.pos m * 2 ^ e <? 2 ^ 31) = true).
      { apply andb_true_iff. split; [apply Z.leb_le | apply Z.ltb_lt]; nia. }
      by rewrite Hr.
    + lia.
  - apply Z.leb_gt in He. intros [= <-].
    assert (Hd : 0 < 2 ^ (- e)) by (apply pow2_pos; lia).
    unfold Qlt, Qle. simpl. rewrite Z2Pos.id by lia. intros Hlt.
    pose proof (Z.div_mod (Z.pos m) (2 ^ (- e)) ltac:(lia)) as Hdm.
    pose proof (Z.mod_pos_bound (Z.pos m) (2 ^ (- e)) Hd) as Hmod.
    assert (Hq0 : 0 <= Z.pos m / 2 ^ (- e)) by (apply Z.div_pos; lia).
    exists (Z.pos m / 2 ^ (- e)). split.
    + assert (Hr : (- 2 ^ 31 <=? Z.pos m / 2 ^ (- e)) && (Z.pos m / 2 ^ (- e) <? 2 ^ 31) = true).
      { apply andb_true_iff. split; [apply Z.leb_le; lia | apply Z.ltb_lt].
        apply Z.div_lt_upper_bound; lia. }
      by rewrite Hr.
    + nia.
Qed.

(** For a default frequency of 44100.75 Hz the conversion yields 44100,
    whereas rounding to the nearest integer gives 44101. *)
Lemma sampleRate_of_not_nearest :
  Q_of_float freq_44100_75 = Some (11289792 # 256)%Q
  /\ sampleRate_of freq_44100_75 = Some 44100
  /\ spec_sampleRate_of freq_44100_75 = Some 44101.
Proof. repeat split; reflexivity. Qed.

(** What [sampleRate_of] makes of the queried default frequency: the
    frequency with its fractional part discarded (truncation toward zero,
    not rounding) when it is greater than zero and below 2^31, and 44100
    whenever it is not greater than zero (zero, negative, or NaN). *)
Lemma sampleRate_of_truncates (defaultFrequency : spec_float) :
  (SFltb (S754_zero false) defaultFrequency = false ->
   sampleRate_of defaultFrequency = Some 44100)
  /\ (forall q : Q,
        SFltb (S754_zero false) defaultFrequency = true ->
        Q_of_float defaultFrequency = Some q ->
        (q < inject_Z (2 ^ 31))%Q ->
        exists r : Z,
          sampleRate_of defaultFrequency = Some r
          /\ (inject_Z r <= q)%Q /\ (q < inject_Z (r + 1))%Q).
Proof.
  split.
  - intros Hle. unfold sampleRate_of. by rewrite Hle.
  - intros q Hlt Hq Hmax. unfold sampleRate_of. rewrite Hlt.
    destruct defaultFrequency as [s|s| |s m e]; try done.
    destruct s; [done|]. by apply float_to_int_trunc.
Qed.

(** The values [sampleRate_of] yields are non-negative [int]s. *)
Lemma sampleRate_of_range (defaultFrequency : spec_float) (rate : Z) :
  sampleRate_of defaultFrequency = Some rate -> 0 <= rate < 2 ^ 31.
Proof.
  unfold sampleRate_of.
  destruct (SFltb (S754_zero false) defaultFrequency) eqn:Hpos.
  - destruct defaultFrequency as [s|s| |s m e]; try done.
    destruct s; [done|]. unfold float_to_int.
    destruct (0 <=? e) eqn:He.
    + destruct (_ && _) eqn:Hr; [|done]. intros [= <-].
      apply andb_true_iff in Hr as [_ Hr%Z.ltb_lt]. apply Z.leb_le in He.
      pose proof (pow2_pos e He). split; [nia | done].
    + destruct (_ && _) eqn:Hr; [|done]. intros [= <-].
      apply andb_true_iff in Hr as [_ Hr%Z.ltb_lt]. apply Z.leb_gt in He.
      split; [|done]. apply Z.div_pos; [lia | apply pow2_pos; lia].
  - intros [= <-]. lia.
Qed.

End SampleRateFacts.

(** ** The transcription loops *)

Section LoopFacts.
Context {Sound : Type}.
Variable readData : Sound -> Z -> FMOD_RESULT * list byte * Sound.

Import AudioProcessor.

Lemma WriteAudioDataChunk_while_eq fuel s wav L c total :
  WriteAudioDataChunk_while readData fuel s wav L c total
  = chunk_while readData put_raw fuel s wav L c total.
Proof.
  revert s wav c total. induction fuel as [|fuel IH]; intros; [done|].
  cbn [WriteAudioDataChunk_while chunk_while].
  destruct (total <? L); [|done].
  destruct (readData s (bytesToRead_of L total)) as [[r buf] s'].
  destruct (negb (is_FMOD_OK r)); [done|]. apply IH.
Qed.

Lemma WritePCM24DataChunk_while_eq fuel s wav L c total :
  WritePCM24DataChunk_while readData fuel s wav L c total
  = chunk_while readData put_pcm24 fuel s wav L c total.
Proof.
  revert s wav c total. induction fuel as [|fuel IH]; intros; [done|].
  cbn [WritePCM24DataChunk_while chunk_while].
  destruct (total <? L); [|done].
  destruct (readData s (bytesToRead_of L total)) as [[r buf] s'].
  destruct (negb (is_FMOD_OK r)); [done|]. apply IH.
Qed.

Lemma WritePCMFloatDataChunk_while_eq fuel s wav L c total :
  WritePCMFloatDataChunk_while readData fuel s wav L c total
  = chunk_while readData put_float fuel s wav L c total.
Proof.
  revert s wav c total. induction fuel as [|fuel IH]; intros; [done|].
  cbn [WritePCMFloatDataChunk_while chunk_while].
  destruct (total <? L); [|done].
  destruct (readData s (bytesToRead_of L total)) as [[r buf] s'].
  destruct (negb (is_FMOD_OK r)); [done|]. apply IH.
Qed.

Lemma bytesToRead_of_eq L total :
  0 <= total < L -> L < 2 ^ 32 ->
  bytesToRead_of L total = Z.min 4096 (L - total).
Proof.
  intros Ht HL. unfold bytesToRead_of, Constants.CHUNK_SIZE.
  rewrite wrap_32_64, wrap_small by lia. done.
Qed.

(** A Hoare-style rule for the loops: an invariant [I] on the running
    total and the output stream that every delivered chunk preserves
    holds when the loop returns, and a successful return means the total
    has reached the declared length. *)
Lemma chunk_while_invariant (put : list byte -> ofstream -> ofstream)
    (I : Z -> ofstream -> Prop) (L : Z) :
  readData_bounded readData ->
  0 <= L < 2 ^ 32 ->
  (forall total wav s n,
      I total wav -> 0 <= total < L -> n = Z.min 4096 (L - total) ->
      is_FMOD_OK (readData s n).1.1 = true ->
      I (total + Z.of_nat (length (readData s n).1.2)) (put (readData s n).1.2 wav)) ->
  forall fuel s wav c total ok s' wav' c' total',
    0 <= total <= L -> I total wav ->
    chunk_while readData put fuel s wav L c total = Finished (ok, s', wav', c', total') ->
    I total' wav' /\ total <= total' <= L /\ (ok = true -> total' = L).
Proof.
  intros Hb HL Hstep. induction fuel as [|fuel IH]; intros * Ht HI; [done|].
  cbn [chunk_while]. destruct (total <? L) eqn:Hlt.
  - apply Z.ltb_lt in Hlt. rewrite bytesToRead_of_eq by lia.
    pose proof (Hb s (Z.min 4096 (L - total)) ltac:(lia)) as Hlen.
    pose proof (Hstep total wav s _ HI ltac:(lia) eq_refl) as Hs.
    destruct (readData s (Z.min 4096 (L - total))) as [[r buf] s1]. simpl in *.
    destruct (is_FMOD_OK r) eqn:Hr; simpl.
    + rewrite wrap_small by lia. intros Hrun.
      apply IH in Hrun; [|lia|by apply Hs].
      destruct Hrun as (HI' & Hrange & Hok). split; [done|]. split; [lia|done].
    + intros [= <- <- <- <- <-]. split; [done|]. split; [lia|done].
  - apply Z.ltb_ge in Hlt. intros [= <- <- <- <- <-].
    split; [done|]. split; [lia|]. intros _. lia.
Qed.

(** With an engine that makes progress, [L + 1] units of fuel are more
    than the loop can use. *)
Lemma chunk_while_terminates (put : list byte -> ofstream -> ofstream) (L : Z) :
  readData_bounded readData ->
  readData_progress readData ->
  0 <= L < 2 ^ 32 ->
  forall fuel s wav c total,
    0 <= total <= L -> (L - total < Z.of_nat fuel) ->
    exists r, chunk_while readData put fuel s wav L c total = Finished r.
Proof.
  intros Hb Hp HL. induction fuel as [|fuel IH]; intros * Ht Hf; [lia|].
  cbn [chunk_while]. destruct (total <? L) eqn:Hlt; [|eauto].
  apply Z.ltb_lt in Hlt. rewrite bytesToRead_of_eq by lia.
  pose proof (Hb s (Z.min 4096 (L - total)) ltac:(lia)) as Hlen.
  pose proof (Hp s (Z.min 4096 (L - total)) ltac:(lia)) as Hpos.
  destruct (readData s (Z.min 4096 (L - total))) as [[r buf] s1]. simpl in *.
  destruct (is_FMOD_OK r) eqn:Hr; simpl; [|eauto].
  specialize (Hpos eq_refl). rewrite wrap_small by lia.
  apply IH; lia.
Qed.

End LoopFacts.

Section StallFacts.
Import AudioProcessor.

(** With reads that succeed and deliver nothing, the loop is still running
    after any number of iterations. *)
Lemma chunk_while_stalls (put : list byte -> ofstream -> ofstream) (L : Z) :
  L < 2 ^ 32 ->
  forall fuel wav c total,
    0 <= total < L ->
    chunk_while stalled_readData put fuel tt wav L c total = OutOfFuel.
Proof.
  intros HL. induction fuel as [|fuel IH]; intros * Ht; [done|].
  cbn [chunk_while]. assert (Hlt : (total <? L) = true) by (apply Z.ltb_lt; lia).
  rewrite Hlt. simpl. rewrite Z.add_0_r, wrap_small by lia. by apply IH.
Qed.

Lemma stalled_readData_bounded : readData_bounded stalled_readData.
Proof. intros s n Hn. simpl. lia. Qed.

End StallFacts.

Section TerminationFacts.
Import AudioProcessor.

Lemma chunk_while_all_ok {Sound : Type}
    (readData : Sound -> Z -> FMOD_RESULT * list byte * Sound)
    (put : list byte -> ofstream -> ofstream) (L : Z) :
  (forall s n, is_FMOD_OK (readData s n).1.1 = true) ->
  forall fuel s wav c total ok s' wav' c' total',
    chunk_while readData put fuel s wav L c total = Finished (ok, s', wav', c', total') ->
    ok = true.
Proof.
  intros Hok. induction fuel as [|fuel IH]; intros *; [done|].
  cbn [chunk_while]. destruct (total <? L); [|by intros [= <- _ _ _ _]].
  pose proof (Hok s (bytesToRead_of L total)) as Hr.
  destruct (readData s (bytesToRead_of L total)) as [[r buf] s1]. simpl in Hr.
  rewrite Hr. simpl. apply IH.
Qed.

Lemma chunk_while_reaches_total {Sound : Type}
    (readData : Sound -> Z -> FMOD_RESULT * list byte * Sound)
    (put : list byte -> ofstream -> ofstream) (L : Z) :
  0 < L < 2 ^ 32 -> readData_bounded readData -> readData_progress readData ->
  reaches_total readData (fun fuel s wav L c => chunk_while readData put fuel s wav L c 0) L.
Proof.
  intros HL Hb Hp s wav c.
  assert (HL' : 0 <= L < 2 ^ 32) by lia.
  assert (H0 : 0 <= 0 <= L) by lia.
  assert (Hf : L - 0 < Z.of_nat (S (Z.to_nat L))) by lia.
  destruct (chunk_while_terminates readData put L Hb Hp HL' (S (Z.to_nat L)) s wav c 0 H0 Hf)
    as [[[[[ok s'] wav'] c'] total'] Hrun].
  exists (S (Z.to_nat L)), ok, s', wav', c', total'. split; [done|]. split.
  - intros Hok.
    assert (Hstep : forall (total : Z) (wav : ofstream) (s : Sound) (n : Z),
               True -> 0 <= total < L -> n = Z.min 4096 (L - total) ->
               is_FMOD_OK (readData s n).1.1 = true -> True) by done.
    destruct (chunk_while_invariant readData put (fun _ _ => True) L Hb HL' Hstep
                _ _ _ _ _ _ _ _ _ _ H0 I Hrun) as (_ & _ & Heq).
    by apply Heq.
  - intros Hall. eapply chunk_while_all_ok; eauto.
Qed.

Lemma streaming_readData_bounded : readData_bounded streaming_readData.
Proof.
  intros s n Hn. unfold streaming_readData. destruct s; simpl; [lia|].
  rewrite length_take. simpl. lia.
Qed.

Lemma streaming_readData_progress : readData_progress streaming_readData.
Proof.
  intros s n Hn. unfold streaming_readData. destruct s; simpl; [done|].
  intros _. rewrite length_take. simpl. lia.
Qed.

(** C10: for a declared length [0 < L], each of the three transcription
    loops (integer PCM, 24-bit PCM, float PCM) returns when every
    successful read of the engine delivers at least one byte (and, as the
    engine's interface promises, never more than requested): some number of
    iterations ends the loop, a successful return means the running total
    has reached exactly [L], and the return is successful when no read
    fails.  Conversely there is an engine behaviour, reads that succeed with
    zero bytes, under which none of the three loops ever returns. *)
Theorem transcription_returns_iff_progress :
  (forall (Sound : Type) (readData : Sound -> Z -> FMOD_RESULT * list byte * Sound) (L : Z),
      0 < L < 2 ^ 32 -> readData_bounded readData -> readData_progress readData ->
      reaches_total readData (WriteAudioDataChunk readData) L
      /\ reaches_total readData (WritePCM24DataChunk readData) L
      /\ reaches_total readData (WritePCMFloatDataChunk readData) L)
  /\ (forall L : Z,
        0 < L < 2 ^ 32 ->
        readData_bounded stalled_readData
        /\ never_returns (WriteAudioDataChunk stalled_readData) tt L
        /\ never_returns (WritePCM24DataChunk stalled_readData) tt L
        /\ never_returns (WritePCMFloatDataChunk stalled_readData) tt L).
Proof.
  split.
  - intros Sound readData L HL Hb Hp. repeat split; intros s wav c.
    + destruct (chunk_while_reaches_total readData put_raw L HL Hb Hp s wav c)
        as (fuel & ok & s' & wav' & c' & total' & Hrun & H1 & H2).
      exists fuel, ok, s', wav', c', total'. split; [|done].
      unfold WriteAudioDataChunk. by rewrite WriteAudioDataChunk_while_eq.
    + destruct (chunk_while_reaches_total readData put_pcm24 L HL Hb Hp s wav c)
        as (fuel & ok & s' & wav' & c' & total' & Hrun & H1 & H2).
      exists fuel, ok, s', wav', c', total'. split; [|done].
      unfold WritePCM24DataChunk. by rewrite WritePCM24DataChunk_while_eq.
    + destruct (chunk_while_reaches_total readData put_float L HL Hb Hp s wav c)
        as (fuel & ok & s' & wav' & c' & total' & Hrun & H1 & H2).
      exists fuel, ok, s', wav', c', total'. split; [|done].
      unfold WritePCMFloatDataChunk. by rewrite WritePCMFloatDataChunk_while_eq.
  - intros L HL. split; [apply stalled_readData_bounded|].
    repeat split; intros fuel wav c.
    + unfold WriteAudioDataChunk. rewrite WriteAudioDataChunk_while_eq.
      apply chunk_while_stalls; lia.
    + unfold WritePCM24DataChunk. rewrite WritePCM24DataChunk_while_eq.
      apply chunk_while_stalls; lia.
    + unfold WritePCMFloatDataChunk. rewrite WritePCMFloatDataChunk_while_eq.
      apply chunk_while_stalls; lia.
Qed.

Lemma transcription_returns_iff_progress_witness :
  0 < 5 < 2 ^ 32
  /\ readData_bounded streaming_readData
  /\ readData_progress streaming_readData
  /\ reaches_total streaming_readData (WritePCM24DataChunk streaming_readData) 5.
Proof.
  split; [lia|]. split; [apply streaming_readData_bounded|].
  split; [apply streaming_readData_progress|].
  exact (proj1 (proj2 (proj1 transcription_returns_iff_progress (list byte)
                         streaming_readData 5 ltac:(lia) streaming_readData_bounded
                         streaming_readData_progress))).
Defined.

End TerminationFacts.

(** ** How each loop puts a chunk into the output *)

Section ChunkFacts.
Import AudioProcessor.

Lemma list_ind3 {A : Type} (P : list A -> Prop) :
  P [] -> (forall a, P [a]) -> (forall a b, P [a; b]) ->
  (forall a b c l, P l -> P (a :: b :: c :: l)) ->
  forall l, P l.
Proof.
  intros H0 H1 H2 H3.
  refine (fix go l := match l with
                      | [] => H0
                      | [a] => H1 a
                      | [a; b] => H2 a b
                      | a :: b :: c :: l' => H3 a b c l' (go l')
                      end).
Qed.

Lemma complete_samples_length (l : list byte) :
  (length (complete_samples l) = 3 * (length l / 3))%nat.
Proof.
  induction l as [| a | a b | a b c l IH] using list_ind3; try reflexivity.
  cbn [complete_samples length]. rewrite IH.
  change (S (S (S (length l)))) with (3 + length l)%nat.
  replace (3 + length l)%nat with (length l + 1 * 3)%nat by lia.
  rewrite Nat.div_add by lia. lia.
Qed.

Lemma complete_samples_whole (l : list byte) :
  (length l mod 3 = 0)%nat -> complete_samples l = l.
Proof.
  induction l as [| a | a b | a b c l IH] using list_ind3; try done.
  cbn [complete_samples length]. intros Hm. rewrite IH; [done|].
  change (S (S (S (length l)))) with (3 + length l)%nat in Hm.
  replace (3 + length l)%nat with (length l + 1 * 3)%nat in Hm by lia.
  by rewrite Nat.Div0.mod_add in Hm.
Qed.

Lemma complete_samples_prefix (l : list byte) :
  complete_samples l = take (3 * (length l / 3)) l.
Proof.
  induction l as [| a | a b | a b c l IH] using list_ind3; try reflexivity.
  cbn [complete_samples length].
  change (S (S (S (length l)))) with (3 + length l)%nat.
  replace (3 + length l)%nat with (length l + 1 * 3)%nat by lia.
  rewrite Nat.div_add by lia.
  replace (3 * (length l / 3 + 1))%nat with (S (S (S (3 * (length l / 3)))))%nat by lia.
  cbn [take]. by rewrite IH.
Qed.

Lemma of_write_open (wav : ofstream) (data : list byte) :
  of_is_open wav = true ->
  of_write wav data = mk_ofstream true (of_written wav ++ data).
Proof. unfold of_write. by intros ->. Qed.

Lemma ofstream_eta (wav : ofstream) :
  of_is_open wav = true -> wav = mk_ofstream true (of_written wav).
Proof. destruct wav as [o w]. simpl. by intros ->. Qed.

Lemma byte_at_drop (buffer : list byte) (k j : nat) :
  byte_at buffer (Z.of_nat k + Z.of_nat j) = take 1 (drop j (drop k buffer)).
Proof.
  unfold byte_at. rewrite drop_drop. do 2 f_equal. lia.
Qed.

(** The inner loop of [WritePCM24DataChunk] writes exactly the complete
    3-byte samples of what is left of the buffer. *)
Lemma PCM24_for_complete (buffer : list byte) :
  Z.of_nat (length buffer) + 3 < 2 ^ 32 ->
  forall (n k : nat) (wav : ofstream),
    of_is_open wav = true ->
    (length (drop k buffer) <= n)%nat ->
    PCM24_for n (Z.of_nat k) buffer (Z.of_nat (length buffer)) wav
    = mk_ofstream true (of_written wav ++ complete_samples (drop k buffer)).
Proof.
  intros Hsmall. induction n as [|n IH]; intros k wav Hopen Hlen.
  - destruct (drop k buffer); [|simpl in Hlen; lia].
    simpl. rewrite app_nil_r. by apply ofstream_eta.
  - cbn [PCM24_for]. rewrite length_drop in Hlen.
    assert (Hd : length (drop k buffer) = (length buffer - k)%nat) by apply length_drop.
    revert Hd.
    destruct (Z.of_nat k <? Z.of_nat (length buffer)) eqn:Hk; intros Hd.
    2:{ apply Z.ltb_ge in Hk. rewrite drop_ge by lia. simpl.
        rewrite app_nil_r. by apply ofstream_eta. }
    apply Z.ltb_lt in Hk.
    assert (Hnext : drop (k + 3) buffer = drop 3 (drop k buffer)) by (by rewrite drop_drop).
    replace (wrap 32 (Z.of_nat k + 3)) with (Z.of_nat (k + 3)) by (rewrite wrap_small; lia).
    rewrite wrap_small by lia.
    destruct (Z.of_nat k + 2 <? Z.of_nat (length buffer)) eqn:Hk2.
    + apply Z.ltb_lt in Hk2.
      pose proof (byte_at_drop buffer k 0) as B0.
      pose proof (byte_at_drop buffer k 1) as B1.
      pose proof (byte_at_drop buffer k 2) as B2.
      rewrite Z.add_0_r in B0. change (Z.of_nat 1) with 1 in B1. change (Z.of_nat 2) with 2 in B2.
      rewrite B0, B1, B2.
      revert Hd.
      destruct (drop k buffer) as [|a [|b [|c rest]]] eqn:E; simpl; intros Hd; try lia.
      clear B0 B1 B2.
      rewrite (of_write_open wav _ Hopen).
      cbn [of_write of_is_open of_written take drop].
      rewrite IH; [| done | rewrite Hnext; simpl; rewrite ?drop_0; lia].
      rewrite Hnext. simpl. rewrite ?drop_0. by rewrite <- !app_assoc.
    + apply Z.ltb_ge in Hk2.
      rewrite IH; [| done | rewrite length_drop; lia].
      rewrite Hnext. revert Hd.
      by destruct (drop k buffer) as [|a [|b [|c rest]]] eqn:E; simpl; intros Hd; try lia.
Qed.

Lemma put_pcm24_open (buffer : list byte) (wav : ofstream) :
  of_is_open wav = true -> Z.of_nat (length buffer) <= 4096 ->
  put_pcm24 buffer wav = mk_ofstream true (of_written wav ++ complete_samples buffer).
Proof.
  intros Hopen Hlen. unfold put_pcm24.
  assert (Hsmall : Z.of_nat (length buffer) + 3 < 2 ^ 32) by lia.
  change 0 with (Z.of_nat 0%nat).
  rewrite (PCM24_for_complete buffer Hsmall (length buffer) 0%nat wav Hopen);
    rewrite drop_0; done.
Qed.

Lemma length_clamp_for (n : nat) (buffer : list byte) :
  length (clamp_for n buffer) = length buffer.
Proof.
  revert buffer. induction n as [|n IH]; intros buffer; [by destruct buffer|].
  destruct buffer as [|b0 [|b1 [|b2 [|b3 rest]]]]; try reflexivity.
  cbn [clamp_for]. rewrite length_app, length_le_encode, IH. reflexivity.
Qed.

Lemma samples_of_app (a b : list byte) :
  (length a mod 4 = 0)%nat -> samples_of (a ++ b) = samples_of a ++ samples_of b.
Proof.
  revert a. fix go 1. intros [|a0 [|a1 [|a2 [|a3 a]]]]; try done.
  cbn [length]. intros Hm. cbn [app samples_of]. rewrite go; [done|].
  change (S (S (S (S (length a))))) with (4 + length a)%nat in Hm.
  replace (4 + length a)%nat with (length a + 1 * 4)%nat in Hm by lia.
  by rewrite Nat.Div0.mod_add in Hm.
Qed.

Lemma le_decode4_range (b0 b1 b2 b3 : byte) : 0 <= le_decode [b0; b1; b2; b3] < 2 ^ 32.
Proof. apply (le_decode_range [b0; b1; b2; b3]). Qed.

(** After the clamping loop every complete float of the chunk is
    acceptable, provided the loop ran over all of them. *)
Lemma samples_of_clamp_for (n : nat) (buffer : list byte) :
  (length buffer < 4 * (n + 1))%nat ->
  Forall (fun bits => sample_ok bits = true) (samples_of (clamp_for n buffer)).
Proof.
  revert buffer. induction n as [|n IH]; intros buffer Hlen.
  - destruct buffer as [|b0 [|b1 [|b2 [|b3 rest]]]]; simpl in *; try constructor; lia.
  - destruct buffer as [|b0 [|b1 [|b2 [|b3 rest]]]];
      [apply Forall_nil_2 | apply Forall_nil_2 | apply Forall_nil_2 | apply Forall_nil_2 |].
    cbn [clamp_for].
    set (v := Float32.clamp (le_decode [b0; b1; b2; b3]) Float32.minus_one_bits
                Float32.one_bits).
    rewrite samples_of_app by (by rewrite length_le_encode).
    apply Forall_app. split.
    + assert (Hv : samples_of (le_encode 4 v) = [v]).
      { change (samples_of (le_encode 4 v)) with ([le_decode (le_encode 4 v)]).
        rewrite le_decode_encode. f_equal. apply Z.mod_small.
        apply clamp_range, le_decode4_range. }
      rewrite Hv. constructor; [apply clamp_sample_ok | constructor].
    + apply IH. simpl in Hlen. lia.
Qed.

Lemma put_float_open (buffer : list byte) (wav : ofstream) :
  of_is_open wav = true ->
  put_float buffer wav
  = mk_ofstream true
      (of_written wav ++ clamp_for (Z.to_nat (Z.of_nat (length buffer) / 4)) buffer).
Proof. intros Hopen. unfold put_float. by rewrite of_write_open. Qed.

Lemma samples_of_put_float (buffer : list byte) :
  Forall (fun bits => sample_ok bits = true)
    (samples_of (clamp_for (Z.to_nat (Z.of_nat (length buffer) / 4)) buffer)).
Proof.
  apply samples_of_clamp_for.
  pose proof (Z.div_mod (Z.of_nat (length buffer)) 4 ltac:(lia)) as Hdm.
  pose proof (Z.mod_pos_bound (Z.of_nat (length buffer)) 4 ltac:(lia)) as Hm.
  assert (0 <= Z.of_nat (length buffer) / 4) by (apply Z.div_pos; lia).
  lia.
Qed.

End ChunkFacts.

(** ** Float transcription *)

Section FloatLoopFacts.
Import AudioProcessor.

Lemma chunk_while_put_float_samples {Sound : Type}
    (readData : Sound -> Z -> FMOD_RESULT * list byte * Sound) (L : Z) :
  (forall s n, (length (readData s n).1.2 mod 4 = 0)%nat) ->
  forall fuel s wav c total ok s' wav' c' total',
    of_is_open wav = true ->
    chunk_while readData put_float fuel s wav L c total = Finished (ok, s', wav', c', total') ->
    exists data,
      of_written wav' = of_written wav ++ data
      /\ (length data mod 4 = 0)%nat
      /\ Forall (fun bits => sample_ok bits = true) (samples_of data).
Proof.
  intros Hwhole. induction fuel as [|fuel IH]; intros * Hopen; [done|].
  cbn [chunk_while]. destruct (total <? L).
  2:{ intros [= <- <- <- <- <-]. exists []. rewrite app_nil_r. by repeat split. }
  pose proof (Hwhole s (bytesToRead_of L total)) as Hm.
  destruct (readData s (bytesToRead_of L total)) as [[r buf] s1]. cbn [fst snd] in Hm.
  destruct (is_FMOD_OK r); cbn [negb].
  2:{ intros [= <- <- <- <- <-]. exists []. rewrite app_nil_r. by repeat split. }
  rewrite put_float_open by done. intros Hrun.
  apply IH in Hrun as (data & Hw & Hlen & Hok); [|done].
  set (cl := clamp_for (Z.to_nat (Z.of_nat (length buf) / 4)) buf) in *.
  assert (Hcl : (length cl mod 4 = 0)%nat) by (unfold cl; by rewrite length_clamp_for).
  exists (cl ++ data). cbn [of_written] in Hw. rewrite Hw, <- app_assoc. split; [done|]. split.
  - rewrite length_app. rewrite Nat.Div0.add_mod, Hcl, Hlen. reflexivity.
  - rewrite samples_of_app by done. apply Forall_app. split; [|done].
    apply samples_of_put_float.
Qed.

(** C9 as stated fails: when the engine delivers a NaN, the sample written
    is that NaN, which does not lie within [-1.0, 1.0]. *)
Lemma float_nan_is_written_unclamped :
  WritePCMFloatDataChunk streaming_readData 2 (le_encode 4 nan_bits) (mk_ofstream true []) 4 0
  = Finished (true, [], mk_ofstream true (le_encode 4 nan_bits), 1, 4)
  /\ samples_of (le_encode 4 nan_bits) = [nan_bits]
  /\ Float32.is_nan nan_bits = true
  /\ Float32.in_unit_range nan_bits = false.
Proof. repeat split; vm_compute; reflexivity. Qed.

(** C9 (amended): for every 32-bit float PCM stream whose reads each
    deliver a whole number of 4-byte samples, every sample value written to
    the output file is either a NaN or lies within the inclusive range
    [-1.0, 1.0], whatever values the engine delivers; every sample that is
    not a NaN is clamped into the range, and a NaN passes through the clamp
    unchanged. *)
Theorem float_samples_clamped_or_nan {Sound : Type}
    (readData : Sound -> Z -> FMOD_RESULT * list byte * Sound)
    (fuel : nat) (subSound : Sound) (wavFile : ofstream) (soundLengthBytes chunkCount : Z)
    (ok : bool) (subSound' : Sound) (wavFile' : ofstream) (chunkCount' total' : Z) :
  (forall s n, (length (readData s n).1.2 mod 4 = 0)%nat) ->
  of_is_open wavFile = true ->
  WritePCMFloatDataChunk readData fuel subSound wavFile soundLengthBytes chunkCount
  = Finished (ok, subSound', wavFile', chunkCount', total') ->
  (exists data,
      of_written wavFile' = of_written wavFile ++ data
      /\ Forall (fun bits => Float32.is_nan bits = true \/ Float32.in_unit_range bits = true)
           (samples_of data))
  /\ (forall bits,
        Float32.is_nan bits = false ->
        Float32.in_unit_range
          (Float32.clamp bits Float32.minus_one_bits Float32.one_bits) = true)
  /\ (forall bits,
        Float32.is_nan bits = true ->
        Float32.clamp bits Float32.minus_one_bits Float32.one_bits = bits).
Proof.
  intros Hwhole Hopen Hrun. split; [|split; [apply clamp_in_unit_range | apply clamp_nan]].
  unfold WritePCMFloatDataChunk in Hrun. rewrite WritePCMFloatDataChunk_while_eq in Hrun.
  destruct (chunk_while_put_float_samples readData soundLengthBytes Hwhole
              _ _ _ _ _ _ _ _ _ _ Hopen Hrun) as (data & Hw & _ & Hok).
  exists data. split; [done|].
  eapply Forall_impl; [exact Hok|]. intros bits Hb. unfold sample_ok in Hb.
  by apply orb_true_iff in Hb.
Qed.

Lemma float_readData_whole (s : list Z) (n : Z) :
  (length (float_readData s n).1.2 mod 4 = 0)%nat.
Proof.
  unfold float_readData. destruct s as [|x s]; [reflexivity|]. cbn [fst snd].
  induction (take (Z.to_nat (n / 4)) (x :: s)) as [|y l IH]; [reflexivity|].
  cbn [flat_map]. rewrite length_app, length_le_encode.
  replace (4 + length (flat_map (le_encode 4) l))%nat
    with (length (flat_map (le_encode 4) l) + 1 * 4)%nat by lia.
  by rewrite Nat.Div0.mod_add.
Qed.

Lemma float_samples_clamped_or_nan_witness :
  (forall s n, (length (float_readData s n).1.2 mod 4 = 0)%nat)
  /\ WritePCMFloatDataChunk float_readData 2 three_floats (mk_ofstream true []) 12 0
     = Finished (true, [],
                 mk_ofstream true
                   (flat_map (le_encode 4)
                      [Float32.one_bits; nan_bits; Float32.minus_one_bits]), 1, 12)
  /\ exists data,
       flat_map (le_encode 4) [Float32.one_bits; nan_bits; Float32.minus_one_bits] = data
       /\ Forall (fun bits => Float32.is_nan bits = true \/ Float32.in_unit_range bits = true)
            (samples_of data).
Proof.
  split; [apply float_readData_whole|]. split; [reflexivity|].
  exact (proj1 (float_samples_clamped_or_nan float_readData 2 three_floats
                  (mk_ofstream true []) 12 0 true [] _ 1 12
                  float_readData_whole eq_refl eq_refl)).
Defined.

End FloatLoopFacts.

(** ** 24-bit transcription *)

Section PCM24Facts.
Import AudioProcessor.

(** One turn of the 24-bit loop with the engine delivering full chunks:
    the next (at most) 4096 bytes of the stream are read and their complete
    samples are appended to the output. *)
Lemma chunk_while_put_pcm24_step (L : Z) (fuel : nat) (data : list byte)
    (wav : ofstream) (c total : Z) :
  0 <= L < 2 ^ 32 -> of_is_open wav = true ->
  total + Z.of_nat (length data) = L -> 0 <= total -> data <> [] ->
  chunk_while streaming_readData put_pcm24 (S fuel) data wav L c total
  = chunk_while streaming_readData put_pcm24 fuel (drop 4096 data)
      (mk_ofstream true (of_written wav ++ complete_samples (take 4096 data)))
      L (c + 1) (total + Z.min 4096 (Z.of_nat (length data))).
Proof.
  intros HL Hopen Hsum Ht Hne.
  assert (Hpos : 0 < Z.of_nat (length data)) by (destruct data; simpl; [done | lia]).
  cbn [chunk_while]. rewrite (proj2 (Z.ltb_lt total L)) by lia.
  rewrite bytesToRead_of_eq by lia.
  assert (Hread : streaming_readData data (Z.min 4096 (L - total))
                  = (FMOD_OK, take 4096 data, drop 4096 data)).
  { destruct data as [|b data]; [done|]. unfold streaming_readData.
    destruct (decide (4096 <= L - total)) as [Hge|Hlt].
    - rewrite Z.min_l by lia. done.
    - rewrite Z.min_r by lia.
      rewrite (take_ge (b :: data) (Z.to_nat (L - total))) by lia.
      rewrite (take_ge (b :: data) 4096) by lia.
      rewrite (drop_ge (b :: data) (Z.to_nat (L - total))) by lia.
      rewrite (drop_ge (b :: data) 4096) by lia. done. }
  rewrite Hread. cbn [negb is_FMOD_OK].
  assert (Hk : Z.of_nat (length (take 4096 data)) = Z.min 4096 (Z.of_nat (length data))).
  { rewrite length_take. lia. }
  rewrite put_pcm24_open by (done || lia).
  by rewrite Hk, wrap_small by lia.
Qed.

(** With the engine delivering full chunks, the 24-bit loop takes one turn
    for every chunk, and writes 4095 bytes for every full chunk of 4096 and
    the complete samples of the last, partial chunk. *)
Lemma WritePCM24DataChunk_full_chunks (L : Z) :
  0 <= L < 2 ^ 32 ->
  forall (fuel : nat) (data : list byte) (wav : ofstream) (c total : Z),
    of_is_open wav = true ->
    total + Z.of_nat (length data) = L -> 0 <= total ->
    (Z.of_nat (length data) + 4095) / 4096 < Z.of_nat fuel ->
    exists wav',
      chunk_while streaming_readData put_pcm24 fuel data wav L c total
      = Finished (true, [], wav', c + (Z.of_nat (length data) + 4095) / 4096, L)
      /\ Z.of_nat (length (of_written wav'))
         = Z.of_nat (length (of_written wav))
           + 4095 * (Z.of_nat (length data) / 4096)
           + 3 * (Z.of_nat (length data) mod 4096 / 3).
Proof.
  intros HL. induction fuel as [|fuel IH]; intros data wav c total Hopen Hsum Ht Hfuel.
  { pose proof (Z.div_pos (Z.of_nat (length data) + 4095) 4096). lia. }
  destruct (decide (data = [])) as [->|Hne].
  - cbn [chunk_while length] in *. rewrite (proj2 (Z.ltb_ge total L)) by lia.
    exists wav. change ((Z.of_nat 0 + 4095) / 4096) with 0.
    change (Z.of_nat 0 / 4096) with 0. change (Z.of_nat 0 mod 4096 / 3) with 0.
    split; [|lia]. by replace total with L by lia; replace (c + 0) with c by lia.
  - assert (Hpos : 0 < Z.of_nat (length data)) by (destruct data; simpl; [done | lia]).
    rewrite chunk_while_put_pcm24_step by done.
    assert (Hcount : (Z.of_nat (length (drop 4096 data)) + 4095) / 4096
                     = (Z.of_nat (length data) + 4095) / 4096 - 1).
    { rewrite length_drop. destruct (decide (Z.of_nat (length data) < 4096)).
      - replace (length data - 4096)%nat with 0%nat by lia.
        change ((Z.of_nat 0 + 4095) / 4096) with 0.
        replace (Z.of_nat (length data) + 4095)
          with (Z.of_nat (length data) - 1 + 1 * 4096) by lia.
        rewrite Z.div_add, Z.div_small by lia. lia.
      - replace (Z.of_nat (length data - 4096) + 4095)
          with (Z.of_nat (length data) + 4095 + (-1) * 4096) by lia.
        rewrite Z.div_add by lia. lia. }
    destruct (IH (drop 4096 data)
                (mk_ofstream true (of_written wav ++ complete_samples (take 4096 data)))
                (c + 1) (total + Z.min 4096 (Z.of_nat (length data))))
      as (wav' & Hrun & Hlen); [done | rewrite length_drop; lia | lia | lia |].
    exists wav'. split.
    + rewrite Hrun, Hcount.
      by replace (c + 1 + ((Z.of_nat (length data) + 4095) / 4096 - 1))
        with (c + (Z.of_nat (length data) + 4095) / 4096) by lia.
    + rewrite Hlen. cbn [of_written].
      rewrite length_app, complete_samples_length, length_take, length_drop.
      destruct (decide (Z.of_nat (length data) < 4096)).
      * replace (length data - 4096)%nat with 0%nat by lia.
        replace (4096 `min` length data)%nat with (length data) by lia.
        change (Z.of_nat 0 / 4096) with 0. change (Z.of_nat 0 mod 4096) with 0.
        rewrite (Z.div_small (Z.of_nat (length data)) 4096) by lia.
        rewrite (Z.mod_small (Z.of_nat (length data)) 4096) by lia.
        rewrite Nat2Z.inj_add, Nat2Z.inj_mul, Nat2Z.inj_div.
        change (Z.of_nat 3) with 3. change (0 / 3) with 0. lia.
      * replace (4096 `min` length data)%nat with 4096%nat by lia.
        replace (Z.of_nat (length data - 4096))
          with (Z.of_nat (length data) + (-1) * 4096) by lia.
        rewrite Z.div_add, Z.mod_add by lia.
        rewrite Nat2Z.inj_add. change (3 * (4096 / 3))%nat with 4095%nat. lia.
Qed.

Lemma length_ramp (n : nat) : (0 < n)%nat -> length (ramp n) = n.
Proof. intros Hn. unfold ramp. rewrite length_app, length_replicate. simpl. lia. Qed.

(** C2 fails on the code.  With the engine delivering full chunks, a 24-bit
    stream of 8194 bytes (not a multiple of 3) is read as chunks of 4096,
    4096 and 2 bytes; each full chunk loses its last byte and the final
    chunk is dropped, so 8190 bytes are written where the claim requires
    floor(8194/3)*3 = 8193.  And for a stream of 4099 bytes whose last byte
    (the incomplete trailing sample) is the only 0xFF, the last byte
    written is that 0xFF. *)
Theorem WritePCM24DataChunk_chunk_boundary_loss :
  (exists wavFile',
      WritePCM24DataChunk streaming_readData 4 (replicate (Z.to_nat 8194) Byte.x00)
        (mk_ofstream true []) 8194 0
      = Finished (true, [], wavFile', 3, 8194)
      /\ Z.of_nat (length (of_written wavFile')) = 8190
      /\ 8194 / 3 * 3 = 8193)
  /\ (exists wavFile',
        WritePCM24DataChunk streaming_readData 3 (ramp (Z.to_nat 4099))
          (mk_ofstream true []) 4099 0
        = Finished (true, [], wavFile', 2, 4099)
        /\ Z.of_nat (length (of_written wavFile')) = 4098
        /\ last (of_written wavFile') = Some Byte.xff
        /\ last (ramp (Z.to_nat 4099)) = Some Byte.xff
        /\ count_occ Byte.byte_eq_dec (ramp (Z.to_nat 4099)) Byte.xff = 1%nat).
Proof.
  split.
  - assert (Hlen : Z.of_nat (length (replicate (Z.to_nat 8194) Byte.x00)) = 8194).
    { rewrite length_replicate. lia. }
    destruct (WritePCM24DataChunk_full_chunks 8194 ltac:(lia) 4
                (replicate (Z.to_nat 8194) Byte.x00) (mk_ofstream true []) 0 0)
      as (wav' & Hrun & Hwritten); [done | lia | lia | by rewrite Hlen |].
    exists wav'. unfold WritePCM24DataChunk. rewrite WritePCM24DataChunk_while_eq.
    rewrite Hlen in Hrun, Hwritten. split; [exact Hrun|]. split; [exact Hwritten | done].
  - assert (Hlen : Z.of_nat (length (ramp (Z.to_nat 4099))) = 4099).
    { rewrite length_ramp; lia. }
    assert (Hne : ramp (Z.to_nat 4099) <> []).
    { intros E. by rewrite E in Hlen. }
    assert (Hlen' : Z.of_nat (length (drop 4096 (ramp (Z.to_nat 4099)))) = 3).
    { rewrite length_drop. lia. }
    assert (Hne' : drop 4096 (ramp (Z.to_nat 4099)) <> []).
    { intros E. by rewrite E in Hlen'. }
    eexists. unfold WritePCM24DataChunk. rewrite WritePCM24DataChunk_while_eq.
    rewrite (chunk_while_put_pcm24_step 4099) by (done || lia).
    rewrite (chunk_while_put_pcm24_step 4099) by (done || cbn [of_written]; lia).
    rewrite Hlen, Hlen'. cbn [of_written].
    split; [reflexivity|]. cbn [of_written app].
    rewrite length_app, !complete_samples_length, length_take.
    rewrite last_app.
    repeat split; vm_compute; reflexivity.
Qed.

End PCM24Facts.

(** ** Header size against data written *)

Section DataSizeFacts.
Import AudioProcessor.

(** What a loop has appended when it returns, for a [put] that appends
    [g buffer]: any relation [P] between the running total and the number of
    bytes appended that each chunk preserves holds at the end. *)
Lemma chunk_while_written {Sound : Type}
    (readData : Sound -> Z -> FMOD_RESULT * list byte * Sound)
    (put : list byte -> ofstream -> ofstream) (g : list byte -> list byte)
    (P : Z -> nat -> Prop) (L : Z) :
  (forall buf w, of_is_open w = true -> Z.of_nat (length buf) <= 4096 ->
                 put buf w = mk_ofstream true (of_written w ++ g buf)) ->
  P 0 0%nat ->
  (forall total k s n, P total k ->
      P (total + Z.of_nat (length (readData s n).1.2))
        (k + length (g (readData s n).1.2))%nat) ->
  readData_bounded readData -> 0 <= L < 2 ^ 32 ->
  forall fuel s wav c ok s' wav' c' total',
    of_is_open wav = true ->
    chunk_while readData put fuel s wav L c 0 = Finished (ok, s', wav', c', total') ->
    exists data,
      of_written wav' = of_written wav ++ data
      /\ P total' (length data)
      /\ (ok = true -> total' = L).
Proof.
  intros Hput P0 Pstep Hb HL fuel s wav c ok s' wav' c' total' Hopen Hrun.
  pose (I := fun (total : Z) (w : ofstream) =>
               of_is_open w = true
               /\ exists data, of_written w = of_written wav ++ data /\ P total (length data)).
  assert (Hstep : forall (total : Z) (w : ofstream) (s : Sound) (n : Z),
             I total w -> 0 <= total < L -> n = Z.min 4096 (L - total) ->
             is_FMOD_OK (readData s n).1.1 = true ->
             I (total + Z.of_nat (length (readData s n).1.2)) (put (readData s n).1.2 w)).
  { intros total w s0 n (Ho & data & Hw & HP) Ht -> _.
    pose proof (Hb s0 (Z.min 4096 (L - total)) ltac:(lia)) as Hlen.
    rewrite Hput by (done || lia). split; [done|].
    exists (data ++ g (readData s0 (Z.min 4096 (L - total))).1.2).
    cbn [of_written]. rewrite Hw, <- app_assoc. split; [done|].
    rewrite length_app. by apply Pstep. }
  assert (HI0 : I 0 wav).
  { split; [done|]. exists []. by rewrite app_nil_r. }
  destruct (chunk_while_invariant readData put I L Hb HL Hstep
              fuel s wav c 0 ok s' wav' c' total' ltac:(lia) HI0 Hrun)
    as ((_ & data & Hw & HP) & _ & Hok).
  exists data. by repeat split.
Qed.

Lemma put_raw_open (buf : list byte) (w : ofstream) :
  of_is_open w = true -> Z.of_nat (length buf) <= 4096 ->
  put_raw buf w = mk_ofstream true (of_written w ++ buf).
Proof. intros Ho _. by apply of_write_open. Qed.

Lemma put_float_open' (buf : list byte) (w : ofstream) :
  of_is_open w = true -> Z.of_nat (length buf) <= 4096 ->
  put_float buf w
  = mk_ofstream true (of_written w ++ clamp_for (Z.to_nat (Z.of_nat (length buf) / 4)) buf).
Proof. intros Ho _. by apply put_float_open. Qed.

End DataSizeFacts.

Section ProcessSubSoundFacts.
Import AudioProcessor.
Context {engine : FMOD} {os : OS}.
Variable substitute : ascii -> string.

Lemma GetSoundInfo_length_range (subSound : Sound) (soundInfo : SoundInfo) :
  GetSoundInfo subSound = Finished (Ok soundInfo) ->
  0 <= soundLengthBytes soundInfo < 2 ^ 32.
Proof.
  unfold GetSoundInfo.
  destruct (getFormat subSound) as [r1 [[[st fmt] ch] bps]].
  destruct (negb (is_FMOD_OK r1)); [done|].
  destruct (getDefaults subSound) as [r2 [freq prio]].
  destruct (negb (is_FMOD_OK r2)); [done|].
  destruct (sampleRate_of freq); [|done].
  destruct (getLength subSound FMOD_TIMEUNIT_PCMBYTES) as [r3 len].
  destruct (negb (is_FMOD_OK r3)); [done|].
  destruct (getLength subSound FMOD_TIMEUNIT_MS) as [r4 ms].
  destruct (negb (is_FMOD_OK r4)); [done|].
  destruct (getName subSound) as [r5 name].
  intros [= <-]. cbn [soundLengthBytes]. unfold wrap. apply Z.mod_pos_bound. lia.
Qed.

(** The exceptions of [GetSoundInfo]. *)
Lemma GetSoundInfo_throws (subSound : Sound) (what : string) :
  GetSoundInfo subSound = Finished (Threw what) ->
  what ∈ ["FMOD::Sound::getFormat failed"; "FMOD::Sound::getDefaults failed";
          "FMOD::Sound::getLength (bytes) failed"; "FMOD::Sound::getLength (ms) failed"].
Proof.
  unfold GetSoundInfo.
  destruct (getFormat subSound) as [r1 [[[st fmt] ch] bps]].
  destruct (negb (is_FMOD_OK r1)); [intros [= <-]; repeat constructor|].
  destruct (getDefaults subSound) as [r2 [freq prio]].
  destruct (negb (is_FMOD_OK r2)); [intros [= <-]; repeat constructor|].
  destruct (sampleRate_of freq); [|done].
  destruct (getLength subSound FMOD_TIMEUNIT_PCMBYTES) as [r3 len].
  destruct (negb (is_FMOD_OK r3)); [intros [= <-]; repeat constructor|].
  destruct (getLength subSound FMOD_TIMEUNIT_MS) as [r4 ms].
  destruct (negb (is_FMOD_OK r4)); [intros [= <-]; repeat constructor|].
  by destruct (getName subSound) as [r5 name].
Qed.

Lemma is_FMOD_OK_eq (r : FMOD_RESULT) : is_FMOD_OK r = true -> r = FMOD_OK.
Proof. by destruct r. Qed.

(** What [GetSoundInfo] stores as the sample rate: the image of the
    queried default frequency. *)
Lemma GetSoundInfo_sampleRate (subSound : Sound) (soundInfo : SoundInfo) :
  GetSoundInfo subSound = Finished (Ok soundInfo) ->
  exists defaultFrequency defaultPriority,
    getDefaults subSound = (FMOD_OK, (defaultFrequency, defaultPriority))
    /\ sampleRate_of defaultFrequency = Some (sampleRate soundInfo).
Proof.
  unfold GetSoundInfo.
  destruct (getFormat subSound) as [r1 [[[st fmt] ch] bps]].
  destruct (negb (is_FMOD_OK r1)); [done|].
  destruct (getDefaults subSound) as [r2 [freq prio]].
  destruct (is_FMOD_OK r2) eqn:Hr2; cbn [negb]; [|done].
  apply is_FMOD_OK_eq in Hr2 as ->.
  destruct (sampleRate_of freq) as [rate|] eqn:Hrate; [|done].
  destruct (getLength subSound FMOD_TIMEUNIT_PCMBYTES) as [r3 len].
  destruct (negb (is_FMOD_OK r3)); [done|].
  destruct (getLength subSound FMOD_TIMEUNIT_MS) as [r4 ms].
  destruct (negb (is_FMOD_OK r4)); [done|].
  destruct (getName subSound) as [r5 name].
  intros [= <-]. by exists freq, prio.
Qed.

(** What [transcribe] has appended to the stream when it succeeds. *)
Lemma transcribe_written (fuel : nat) (fmt : FMOD_SOUND_FORMAT) (subSound : Sound)
    (wavFile : ofstream) (L : Z) (s' : Sound) (wavFile' : ofstream) (c' total' : Z) :
  readData_bounded readData -> 0 <= L < 2 ^ 32 -> of_is_open wavFile = true ->
  transcribe fuel fmt subSound wavFile L 0 = Finished (true, s', wavFile', c', total') ->
  exists data,
    of_written wavFile' = of_written wavFile ++ data
    /\ (fmt <> FMOD_SOUND_FORMAT_PCM24 -> Z.of_nat (length data) = L)
    /\ (fmt = FMOD_SOUND_FORMAT_PCM24 ->
        Z.of_nat (length data) <= L
        /\ (length data mod 3 = 0)%nat
        /\ ((forall s n, (length (readData s n).1.2 mod 3 = 0)%nat) ->
            Z.of_nat (length data) = L)).
Proof.
  intros Hb HL Hopen Hrun.
  assert (Hraw :
    WriteAudioDataChunk readData fuel subSound wavFile L 0
    = Finished (true, s', wavFile', c', total') ->
    exists data, of_written wavFile' = of_written wavFile ++ data
                 /\ Z.of_nat (length data) = L).
  { unfold WriteAudioDataChunk. rewrite WriteAudioDataChunk_while_eq. intros Hr.
    destruct (chunk_while_written readData put_raw (fun buf => buf)
                (fun total k => Z.of_nat k = total) L put_raw_open eq_refl) with
      (fuel := fuel) (s := subSound) (wav := wavFile) (c := 0) (ok := true) (s' := s')
      (wav' := wavFile') (c' := c') (total' := total')
      as (data & Hw & HP & Hok); try done.
    - intros total k s n <-. lia.
    - exists data. split; [done|]. rewrite HP. by apply Hok. }
  destruct fmt; cbn [transcribe] in Hrun;
    try (destruct (Hraw Hrun) as (data & Hw & Hlen); exists data;
         split; [done|]; split; [done|]; done).
  - (* 24-bit *)
    unfold WritePCM24DataChunk in Hrun. rewrite WritePCM24DataChunk_while_eq in Hrun.
    destruct (chunk_while_written readData put_pcm24 complete_samples
                (fun total k =>
                   Z.of_nat k <= total /\ (k mod 3 = 0)%nat
                   /\ ((forall s n, (length (readData s n).1.2 mod 3 = 0)%nat) ->
                       Z.of_nat k = total)) L put_pcm24_open) with
      (fuel := fuel) (s := subSound) (wav := wavFile) (c := 0) (ok := true) (s' := s')
      (wav' := wavFile') (c' := c') (total' := total')
      as (data & Hw & (Hle & Hm & Hwhole) & Hok); try done.
    + intros total k s n (Hle & Hm & Hwhole).
      pose proof (complete_samples_length (readData s n).1.2) as Hcl.
      pose proof (Nat.Div0.div_mod (length (readData s n).1.2) 3) as Hdm.
      split; [lia|]. split.
      * rewrite Hcl. rewrite Nat.Div0.add_mod, Hm, Nat.mul_comm, Nat.Div0.mod_mul. done.
      * intros Hall. specialize (Hwhole Hall).
        rewrite (complete_samples_whole _ (Hall s n)). lia.
    + exists data. split; [done|]. split; [done|]. intros _.
      specialize (Hok eq_refl). subst total'. by repeat split.
  - (* float *)
    unfold WritePCMFloatDataChunk in Hrun. rewrite WritePCMFloatDataChunk_while_eq in Hrun.
    destruct (chunk_while_written readData put_float
                (fun buf => clamp_for (Z.to_nat (Z.of_nat (length buf) / 4)) buf)
                (fun total k => Z.of_nat k = total) L put_float_open' eq_refl) with
      (fuel := fuel) (s := subSound) (wav := wavFile) (c := 0) (ok := true) (s' := s')
      (wav' := wavFile') (c' := c') (total' := total')
      as (data & Hw & HP & Hok); try done.
    + intros total k s n <-. rewrite length_clamp_for. lia.
    + exists data. split; [done|]. split; [|done]. intros _. rewrite HP. by apply Hok.
Qed.

(** C1 (amended): for every stream whose WAV output completes
    successfully, the 44-byte header's data-chunk size field is the stream's
    reported byte length.  For every sample format other than 24-bit PCM the
    number of sample-data bytes written after the header equals that field.
    For 24-bit PCM the number of bytes written never exceeds the field and is
    a multiple of 3 (so it is smaller whenever the reported length is not a
    multiple of 3); it equals the field when every read delivers a whole
    number of 3-byte samples. *)
Theorem ProcessSubSound_header_data_size (fuel : nat) (subSound : Sound)
    (subSoundIndex totalSubSounds : Z) (baseFileName outputDirectoryPath : string)
    (w w' : World) :
  readData_bounded readData ->
  ProcessSubSound substitute fuel subSound subSoundIndex totalSubSounds baseFileName
    outputDirectoryPath w = Finished (Ok tt, w') ->
  exists (soundInfo : SoundInfo) (fullOutputPath : string) (header data : list byte),
    GetSoundInfo (seekData subSound 0).2 = Finished (Ok soundInfo)
    /\ w_fs w' !! fullOutputPath = Some (header ++ data)
    /\ length header = 44%nat
    /\ hdr_data_size header = soundLengthBytes soundInfo
    /\ (format soundInfo <> FMOD_SOUND_FORMAT_PCM24 ->
        Z.of_nat (length data) = soundLengthBytes soundInfo)
    /\ (format soundInfo = FMOD_SOUND_FORMAT_PCM24 ->
        Z.of_nat (length data) <= soundLengthBytes soundInfo
        /\ (length data mod 3 = 0)%nat
        /\ ((forall s n, (length (readData s n).1.2 mod 3 = 0)%nat) ->
            Z.of_nat (length data) = soundLengthBytes soundInfo)).
Proof.
  intros Hb. unfold ProcessSubSound.
  destruct (seekData subSound 0) as [r s1]. cbn [snd].
  destruct (is_FMOD_OK r); cbn [negb]; [|done].
  destruct (GetSoundInfo s1) as [[soundInfo|what]| |] eqn:Einfo; try done.
  pose proof (GetSoundInfo_length_range _ _ Einfo) as HL.
  destruct (ofstream_can_open _); cbn [negb]; [|done].
  unfold WriteWAVHeader. cbn [of_is_open negb of_write of_written app].
  destruct (transcribe fuel (format soundInfo) s1 _ (soundLengthBytes soundInfo) 0)
    as [[[[[writeSuccess s2] wavFile'] c'] total']| |] eqn:Etr; try done.
  destruct writeSuccess; cbn [negb]; [|done].
  intros [= <-].
  apply transcribe_written in Etr as (data & Hw & Hother & H24); [|done..].
  cbn [of_written] in Hw.
  eexists soundInfo, _, _, data. split; [done|]. split.
  { cbn [emit store w_fs]. rewrite lookup_insert_eq. by rewrite Hw. }
  split; [apply length_WAVHeader_bytes|]. split; [|done].
  rewrite hdr_data_size_eq. by apply Z.mod_small.
Qed.

End ProcessSubSoundFacts.

Section ProcessSubSoundExamples.
Import AudioProcessor.

Lemma toy_readData_bounded : readData_bounded toy_readData.
Proof.
  intros s n Hn. unfold toy_readData.
  pose proof (streaming_readData_bounded (toy_data s) n Hn) as Hs.
  by destruct (streaming_readData (toy_data s) n) as [[r d] rest].
Qed.

(** C1 as stated fails for 24-bit PCM: for a stream that reports 4 bytes,
    the output completes successfully, the header's data-chunk size field
    is 4, and 3 bytes of sample data follow the header. *)
Lemma ProcessSubSound_pcm24_header_exceeds_data :
  match @ProcessSubSound toy_FMOD toy_OS toy_substitute 10 pcm24_four_bytes 0 1
          "x" "/out" (mk_World ∅ []) with
  | Finished (Ok tt, w') =>
      (fun image => (hdr_data_size image, Z.of_nat (length (drop 44 image))))
        <$> w_fs w' !! "/out/x_0.wav"
  | _ => None
  end = Some (4, 3).
Proof. vm_compute. reflexivity. Qed.

Lemma ProcessSubSound_header_data_size_witness :
  readData_bounded toy_readData
  /\ @ProcessSubSound toy_FMOD toy_OS toy_substitute 10 pcm16_six_bytes 0 1
       "x" "/out" (mk_World ∅ [])
     = Finished (Ok tt,
                 mk_World
                   (<["/out/x_0.wav" :=
                        WAVHeader_bytes 44100 1 6 16 FMOD_SOUND_FORMAT_PCM16
                        ++ toy_data pcm16_six_bytes]> ∅)
                   [Cout "Processing sub-sound"; Cout "Status: Success"])
  /\ exists (soundInfo : SoundInfo) (fullOutputPath : string) (header data : list byte),
       @GetSoundInfo toy_FMOD pcm16_six_bytes = Finished (Ok soundInfo)
       /\ (<["/out/x_0.wav" :=
               WAVHeader_bytes 44100 1 6 16 FMOD_SOUND_FORMAT_PCM16
               ++ toy_data pcm16_six_bytes]> (∅ : gmap string (list byte)))
            !! fullOutputPath = Some (header ++ data)
       /\ length header = 44%nat
       /\ hdr_data_size header = soundLengthBytes soundInfo
       /\ (format soundInfo <> FMOD_SOUND_FORMAT_PCM24 ->
           Z.of_nat (length data) = soundLengthBytes soundInfo)
       /\ (format soundInfo = FMOD_SOUND_FORMAT_PCM24 ->
           Z.of_nat (length data) <= soundLengthBytes soundInfo
           /\ (length data mod 3 = 0)%nat
           /\ ((forall s n, (length (toy_readData s n).1.2 mod 3 = 0)%nat) ->
               Z.of_nat (length data) = soundLengthBytes soundInfo)).
Proof.
  split; [apply toy_readData_bounded|].
  assert (Hrun :
    @ProcessSubSound toy_FMOD toy_OS toy_substitute 10 pcm16_six_bytes 0 1
      "x" "/out" (mk_World ∅ [])
    = Finished (Ok tt,
                mk_World
                  (<["/out/x_0.wav" :=
                       WAVHeader_bytes 44100 1 6 16 FMOD_SOUND_FORMAT_PCM16
                       ++ toy_data pcm16_six_bytes]> ∅)
                  [Cout "Processing sub-sound"; Cout "Status: Success"])).
  { vm_compute. reflexivity. }
  split; [exact Hrun|].
  exact (@ProcessSubSound_header_data_size toy_FMOD toy_OS toy_substitute 10
           pcm16_six_bytes 0 1 "x" "/out" (mk_World ∅ []) _ toy_readData_bounded Hrun).
Defined.

End ProcessSubSoundExamples.

(** ** The sample rate in the header *)

Section HeaderRate.
Import AudioProcessor.
Context {engine : FMOD} {os : OS}.
Variable substitute : ascii -> string.

(** Each of the three ways of putting a chunk only appends to an open
    stream, whatever the chunk. *)
Lemma PCM24_for_appends (buffer : list byte) (bytesRead : Z) :
  forall (n : nat) (i : Z) (wav : ofstream),
    of_is_open wav = true ->
    exists d, PCM24_for n i buffer bytesRead wav = mk_ofstream true (of_written wav ++ d).
Proof.
  induction n as [|n IH]; intros i wav Hopen.
  - exists []. rewrite app_nil_r. by apply ofstream_eta.
  - cbn [PCM24_for]. destruct (i <? bytesRead).
    2:{ exists []. rewrite app_nil_r. by apply ofstream_eta. }
    destruct (wrap 32 (i + 2) <? bytesRead); [|by apply IH].
    rewrite (of_write_open wav _ Hopen). cbn [of_write of_is_open of_written].
    destruct (IH (wrap 32 (i + 3))
                (mk_ofstream true (((of_written wav ++ byte_at buffer i)
                                    ++ byte_at buffer (i + 1)) ++ byte_at buffer (i + 2)))
                eq_refl) as [d Hd].
    rewrite Hd. cbn [of_written]. eexists. by rewrite <- !app_assoc.
Qed.

Lemma chunk_while_appends {S : Type} (rd : S -> Z -> FMOD_RESULT * list byte * S)
    (put : list byte -> ofstream -> ofstream) (L : Z) :
  (forall buf w, of_is_open w = true ->
                 exists d, put buf w = mk_ofstream true (of_written w ++ d)) ->
  forall fuel s wav c total ok s' wav' c' total',
    of_is_open wav = true ->
    chunk_while rd put fuel s wav L c total = Finished (ok, s', wav', c', total') ->
    exists data, of_written wav' = of_written wav ++ data.
Proof.
  intros Hput. induction fuel as [|fuel IH]; intros * Hopen; [done|].
  cbn [chunk_while]. destruct (total <? L).
  2:{ intros [= _ _ <- _ _]. exists []. by rewrite app_nil_r. }
  destruct (rd s (bytesToRead_of L total)) as [[r buf] s1].
  destruct (negb (is_FMOD_OK r)).
  { intros [= _ _ <- _ _]. exists []. by rewrite app_nil_r. }
  destruct (Hput buf wav Hopen) as [d Hd]. rewrite Hd.
  intros Hrun. apply IH in Hrun as [data Hdata]; [|done].
  exists (d ++ data). rewrite Hdata. cbn [of_written]. by rewrite <- app_assoc.
Qed.

(** Transcription only appends to the output stream: what the stream
    held before (the header) is still at its front, whether or not the
    transcription succeeds. *)
Lemma transcribe_appends (fuel : nat) (fmt : FMOD_SOUND_FORMAT) (subSound : Sound)
    (wavFile : ofstream) (L c : Z) (ok : bool) (s' : Sound) (wavFile' : ofstream)
    (c' total' : Z) :
  of_is_open wavFile = true ->
  transcribe fuel fmt subSound wavFile L c = Finished (ok, s', wavFile', c', total') ->
  exists data, of_written wavFile' = of_written wavFile ++ data.
Proof.
  intros Hopen Hrun.
  assert (Hraw : forall buf w, of_is_open w = true ->
            exists d, put_raw buf w = mk_ofstream true (of_written w ++ d)).
  { intros buf w Hw. exists buf. by apply of_write_open. }
  assert (H24 : forall buf w, of_is_open w = true ->
            exists d, put_pcm24 buf w = mk_ofstream true (of_written w ++ d)).
  { intros buf w Hw. by apply PCM24_for_appends. }
  assert (Hfl : forall buf w, of_is_open w = true ->
            exists d, put_float buf w = mk_ofstream true (of_written w ++ d)).
  { intros buf w Hw. eexists. by apply put_float_open. }
  destruct fmt; cbn [transcribe] in Hrun;
    unfold WriteAudioDataChunk, WritePCM24DataChunk, WritePCMFloatDataChunk in Hrun;
    rewrite ?WriteAudioDataChunk_while_eq, ?WritePCM24DataChunk_while_eq,
      ?WritePCMFloatDataChunk_while_eq in Hrun;
    eapply chunk_while_appends in Hrun; done.
Qed.

(** C5 (amended): the sample rate placed in the WAV header.  Whenever
    [ProcessSubSound] has written a header (the stream's output completed,
    or failed only while the sample data was transcribed), the output file
    starts with the 44-byte header built from the stream's descriptor, and
    the sample-rate field of that header holds what [GetSoundInfo] made of
    the queried default frequency: the frequency with its fractional part
    discarded (truncation toward zero, not rounding to the nearest integer)
    when it is greater than zero and below 2^31, and 44100 whenever it is
    not greater than zero (zero, negative, or NaN). *)
Theorem ProcessSubSound_header_sample_rate (fuel : nat) (subSound : Sound)
    (subSoundIndex totalSubSounds : Z) (baseFileName outputDirectoryPath : string)
    (w w' : World) (r : result unit) :
  ProcessSubSound substitute fuel subSound subSoundIndex totalSubSounds baseFileName
    outputDirectoryPath w = Finished (r, w') ->
  r = Ok tt \/ r = Threw "Failed to write audio data to WAV file" ->
  exists (defaultFrequency : spec_float) (defaultPriority : Z) (soundInfo : SoundInfo)
         (image : list byte),
    getDefaults (seekData subSound 0).2 = (FMOD_OK, (defaultFrequency, defaultPriority))
    /\ GetSoundInfo (seekData subSound 0).2 = Finished (Ok soundInfo)
    /\ w_fs w' !! path_append outputDirectoryPath
                    (outputFileName_of substitute soundInfo baseFileName subSoundIndex
                     +:+ ".wav")
       = Some image
    /\ take 44 image
       = WAVHeader_bytes (sampleRate soundInfo) (channels soundInfo)
           (soundLengthBytes soundInfo) (bitsPerSample soundInfo) (format soundInfo)
    /\ hdr_sample_rate image = sampleRate soundInfo
    /\ (SFltb (S754_zero false) defaultFrequency = false -> hdr_sample_rate image = 44100)
    /\ (forall q : Q,
          SFltb (S754_zero false) defaultFrequency = true ->
          Q_of_float defaultFrequency = Some q ->
          (q < inject_Z (2 ^ 31))%Q ->
          (inject_Z (hdr_sample_rate image) <= q)%Q
          /\ (q < inject_Z (hdr_sample_rate image + 1))%Q).
Proof.
  unfold ProcessSubSound.
  destruct (seekData subSound 0) as [r0 s1]. cbn [snd].
  destruct (is_FMOD_OK r0); cbn [negb]; [|by intros [= <- _] [|]].
  destruct (GetSoundInfo s1) as [[soundInfo|what]| |] eqn:Einfo; try done.
  2:{ intros [= <- _] [Hr|Hr]; [done|]. injection Hr as ->.
      apply GetSoundInfo_throws in Einfo.
      repeat (apply elem_of_cons in Einfo as [Einfo|Einfo]; [discriminate Einfo|]).
      by apply elem_of_nil in Einfo. }
  destruct (GetSoundInfo_sampleRate _ _ Einfo) as (freq & prio & Hdef & Hrate).
  pose proof (sampleRate_of_range _ _ Hrate) as Hrange.
  set (path := path_append outputDirectoryPath _).
  destruct (ofstream_can_open path); cbn [negb]; [|by intros [= <- _] [|]].
  unfold WriteWAVHeader. cbn [of_is_open negb of_write of_written app].
  destruct (transcribe fuel (format soundInfo) s1 _ (soundLengthBytes soundInfo) 0)
    as [[[[[writeSuccess s2] wavFile'] c'] total']| |] eqn:Etr; try done.
  apply transcribe_appends in Etr as [data Himage]; [|done]. cbn [of_written] in Himage.
  intros Hrun _.
  assert (Hw : w_fs w' !! path = Some (of_written wavFile')).
  { destruct writeSuccess; cbn [negb] in Hrun; injection Hrun as _ <-;
      cbn [emit store w_fs]; by rewrite lookup_insert_eq. }
  assert (Hfield : hdr_sample_rate (of_written wavFile') = sampleRate soundInfo).
  { rewrite Himage. unfold hdr_sample_rate.
    rewrite field_app_l by (rewrite length_WAVHeader_bytes; lia).
    fold (hdr_sample_rate
            (WAVHeader_bytes (sampleRate soundInfo) (channels soundInfo)
               (soundLengthBytes soundInfo) (bitsPerSample soundInfo) (format soundInfo))).
    rewrite hdr_sample_rate_eq. apply Z.mod_small. lia. }
  exists freq, prio, soundInfo, (of_written wavFile').
  split; [done|]. split; [done|]. split; [done|]. split.
  { rewrite Himage. apply take_app_length'. by rewrite length_WAVHeader_bytes. }
  split; [done|]. rewrite Hfield. split.
  - intros Hle. unfold sampleRate_of in Hrate. rewrite Hle in Hrate. by injection Hrate.
  - intros q Hpos Hq Hmax.
    destruct (proj2 (sampleRate_of_truncates freq) q Hpos Hq Hmax) as (r' & Hr' & Hlo & Hhi).
    rewrite Hrate in Hr'. by injection Hr' as <-.
Qed.

End HeaderRate.

Section HeaderRateExamples.

(** C5 as stated fails: for a stream whose default frequency is
    44100.75 Hz the output completes and the sample-rate field of the
    header holds 44100, whereas rounding to the nearest integer gives
    44101. *)
Lemma ProcessSubSound_header_rate_not_nearest :
  (getDefaults (FMOD := detuned_FMOD) pcm16_six_bytes).2.1 = freq_44100_75
  /\ Q_of_float freq_44100_75 = Some (11289792 # 256)%Q
  /\ spec_sampleRate_of freq_44100_75 = Some 44101
  /\ match @ProcessSubSound detuned_FMOD toy_OS toy_substitute 10 pcm16_six_bytes 0 1
            "x" "/out" (mk_World ∅ []) with
     | Finished (Ok tt, w') => hdr_sample_rate <$> w_fs w' !! "/out/x_0.wav"
     | _ => None
     end = Some 44100.
Proof. repeat split; vm_compute; reflexivity. Qed.

Lemma ProcessSubSound_header_sample_rate_witness :
  @ProcessSubSound detuned_FMOD toy_OS toy_substitute 10 pcm16_six_bytes 0 1
    "x" "/out" (mk_World ∅ [])
  = Finished (Ok tt,
              mk_World
                (<["/out/x_0.wav" :=
                     WAVHeader_bytes 44100 1 6 16 FMOD_SOUND_FORMAT_PCM16
                     ++ toy_data pcm16_six_bytes]> ∅)
                [Cout "Processing sub-sound"; Cout "Status: Success"])
  /\ exists (defaultFrequency : spec_float) (defaultPriority : Z) (soundInfo : SoundInfo)
            (image : list byte),
       getDefaults (FMOD := detuned_FMOD) pcm16_six_bytes
       = (FMOD_OK, (defaultFrequency, defaultPriority))
       /\ @GetSoundInfo detuned_FMOD pcm16_six_bytes = Finished (Ok soundInfo)
       /\ (<["/out/x_0.wav" :=
               WAVHeader_bytes 44100 1 6 16 FMOD_SOUND_FORMAT_PCM16
               ++ toy_data pcm16_six_bytes]> (∅ : gmap string (list byte)))
            !! @path_append toy_OS "/out"
                 (@outputFileName_of toy_substitute soundInfo "x" 0 +:+ ".wav")
          = Some image
       /\ take 44 image
          = WAVHeader_bytes (sampleRate soundInfo) (channels soundInfo)
              (soundLengthBytes soundInfo) (bitsPerSample soundInfo) (format soundInfo)
       /\ hdr_sample_rate image = sampleRate soundInfo
       /\ (SFltb (S754_zero false) defaultFrequency = false -> hdr_sample_rate image = 44100)
       /\ (forall q : Q,
             SFltb (S754_zero false) defaultFrequency = true ->
             Q_of_float defaultFrequency = Some q ->
             (q < inject_Z (2 ^ 31))%Q ->
             (inject_Z (hdr_sample_rate image) <= q)%Q
             /\ (q < inject_Z (hdr_sample_rate image + 1))%Q).
Proof.
  assert (Hrun :
    @ProcessSubSound detuned_FMOD toy_OS toy_substitute 10 pcm16_six_bytes 0 1
      "x" "/out" (mk_World ∅ [])
    = Finished (Ok tt,
                mk_World
                  (<["/out/x_0.wav" :=
                       WAVHeader_bytes 44100 1 6 16 FMOD_SOUND_FORMAT_PCM16
                       ++ toy_data pcm16_six_bytes]> ∅)
                  [Cout "Processing sub-sound"; Cout "Status: Success"])).
  { vm_compute. reflexivity. }
  split; [exact Hrun|].
  exact (@ProcessSubSound_header_sample_rate detuned_FMOD toy_OS toy_substitute 10
           pcm16_six_bytes 0 1 "x" "/out" (mk_World ∅ []) _ (Ok tt) Hrun
           (or_introl eq_refl)).
Defined.

End HeaderRateExamples.

(** ** The input stream and the signature scanner *)

Section ScannerFacts.
Import BANKtoFSBExtractor.

Lemma peek_good (data : list byte) (pos : Z) (b : byte) :
  data !! Z.to_nat pos = Some b ->
  peek (mk_ifstream data pos false false) = (Some b, mk_ifstream data pos false false).
Proof. intros Hb. unfold peek. cbn. by rewrite Hb. Qed.

Lemma peek_good_eof (data : list byte) (pos : Z) :
  data !! Z.to_nat pos = None ->
  peek (mk_ifstream data pos false false) = (None, mk_ifstream data pos true false).
Proof. intros Hb. unfold peek. cbn. by rewrite Hb. Qed.

Lemma read_good_full (data : list byte) (pos n : Z) :
  0 <= pos -> 0 <= n -> pos + n <= Z.of_nat (length data) ->
  read (mk_ifstream data pos false false) n
  = (take (Z.to_nat n) (drop (Z.to_nat pos) data), mk_ifstream data (pos + n) false false).
Proof.
  intros Hp Hn Hlen. unfold read. cbn.
  assert (Hl : Z.of_nat (length (take (Z.to_nat n) (drop (Z.to_nat pos) data))) = n).
  { rewrite length_take, length_drop. lia. }
  rewrite Hl, Z.ltb_irrefl. done.
Qed.

Lemma read_good_short (data : list byte) (pos n : Z) :
  0 <= pos <= Z.of_nat (length data) -> Z.of_nat (length data) < pos + n ->
  read (mk_ifstream data pos false false) n
  = (drop (Z.to_nat pos) data, mk_ifstream data (Z.of_nat (length data)) true true).
Proof.
  intros Hp Hlen. unfold read. cbn.
  rewrite take_ge by (rewrite length_drop; lia).
  assert (Hl : Z.of_nat (length (drop (Z.to_nat pos) data)) = Z.of_nat (length data) - pos).
  { rewrite length_drop. lia. }
  rewrite Hl. assert (Hlt : (Z.of_nat (length data) - pos <? n) = true) by (apply Z.ltb_lt; lia).
  rewrite Hlt. unfold if_setstate, if_set_pos. cbn. do 2 f_equal. lia.
Qed.

Lemma seekg_cur_good (data : list byte) (pos off : Z) :
  0 <= pos + off ->
  seekg_cur (mk_ifstream data pos false false) off = mk_ifstream data (pos + off) false false.
Proof.
  intros Hp. unfold seekg_cur. cbn.
  assert (Hlt : (pos + off <? 0) = false) by (apply Z.ltb_ge; lia). by rewrite Hlt.
Qed.

Lemma seekg_failed (data : list byte) (pos p : Z) (e : bool) :
  seekg (mk_ifstream data pos e true) p = mk_ifstream data pos false true.
Proof. reflexivity. Qed.

Lemma seekg_after_eof (data : list byte) (pos p : Z) :
  0 <= p -> seekg (mk_ifstream data pos true false) p = mk_ifstream data p false false.
Proof.
  intros Hp. unfold seekg. cbn.
  assert (Hlt : (p <? 0) = false) by (apply Z.ltb_ge; lia). by rewrite Hlt.
Qed.

Lemma bytes_eqb_eq (a b : list byte) : bytes_eqb a b = true <-> a = b.
Proof. unfold bytes_eqb. apply bool_decide_eq_true. Qed.

Lemma search_short (sfx : list byte) (p : Z) :
  (length sfx < 4)%nat -> search sfx p = None.
Proof.
  revert p. induction sfx as [|b rest IH]; intros p Hlen; [done|].
  cbn [search]. destruct (bytes_eqb (take 4 (b :: rest)) FSB5) eqn:E.
  - apply bytes_eqb_eq in E. apply (f_equal length) in E.
    rewrite length_take in E. change (length FSB5) with 4%nat in E. lia.
  - apply IH. simpl in Hlen. lia.
Qed.

Lemma drop_cons_lookup (data : list byte) (n : nat) (b : byte) (rest : list byte) :
  drop n data = b :: rest -> data !! n = Some b /\ drop (S n) data = rest.
Proof.
  intros Hd. split.
  - rewrite <- (Nat.add_0_r n), <- lookup_drop, Hd. done.
  - replace (S n) with (n + 1)%nat by lia. rewrite <- drop_drop, Hd. done.
Qed.

(** The loop of the scanner on a good stream with at least one byte left:
    it returns at the earliest signature, or leaves the loop at the end of
    the data with both [eofbit] and [failbit] set. *)
Lemma FindFSB5Signature_while_spec (data : list byte) :
  forall (sfx : list byte) (pos : Z) (fuel : nat),
    0 <= pos -> drop (Z.to_nat pos) data = sfx -> sfx <> [] ->
    (length sfx < fuel)%nat ->
    FindFSB5Signature_while fuel (mk_ifstream data pos false false)
    = match search sfx pos with
      | Some o => Finished (Returned true (mk_ifstream data o false false))
      | None => Finished (LeftLoop (mk_ifstream data (Z.of_nat (length data)) true true))
      end.
Proof.
  induction sfx as [|b rest IH]; intros pos fuel Hpos Hdrop Hne Hfuel; [done|].
  destruct fuel as [|fuel]; [lia|]. cbn [FindFSB5Signature_while].
  destruct (drop_cons_lookup _ _ _ _ Hdrop) as [Hb Hrest].
  assert (Hlen : Z.of_nat (length data) = pos + Z.of_nat (length (b :: rest))).
  { rewrite <- Hdrop, length_drop. apply lookup_lt_Some in Hb. lia. }
  rewrite (peek_good _ _ _ Hb).
  destruct (decide (3 <= length rest)%nat) as [Hlong|Hshort].
  - rewrite read_good_full by (cbn [length] in Hlen; lia).
    change (Z.to_nat 4) with 4%nat. rewrite Hdrop.
    assert (Hl4 : Z.of_nat (length (take 4 (b :: rest))) = 4).
    { rewrite length_take. cbn [length]. lia. }
    rewrite Hl4. cbn [Z.eqb Pos.eqb]. cbn [search].
    destruct (bytes_eqb (take 4 (b :: rest)) FSB5).
    + rewrite seekg_cur_good by lia. do 3 f_equal. lia.
    + rewrite seekg_cur_good by lia.
      replace (pos + 4 + -3) with (pos + 1) by lia.
      apply IH; [lia | | | cbn [length] in Hfuel; lia].
      * rewrite <- Hrest. f_equal. lia.
      * intros ->. simpl in Hlong. lia.
  - rewrite read_good_short by (cbn [length] in Hlen; lia).
    rewrite Hdrop.
    assert (Hl4 : (Z.of_nat (length (b :: rest)) =? 4) = false).
    { apply Z.eqb_neq. cbn [length]. lia. }
    rewrite Hl4. rewrite search_short by (cbn [length]; lia). done.
Qed.

End ScannerFacts.

Section SignatureFacts.
Import BANKtoFSBExtractor.

(** [search] finds the earliest occurrence. *)
Lemma search_Some (sfx : list byte) (p o : Z) :
  search sfx p = Some o ->
  p <= o
  /\ take 4 (drop (Z.to_nat (o - p)) sfx) = FSB5
  /\ forall q, p <= q < o -> take 4 (drop (Z.to_nat (q - p)) sfx) <> FSB5.
Proof.
  revert p. induction sfx as [|b rest IH]; intros p; [done|].
  cbn [search]. destruct (bytes_eqb (take 4 (b :: rest)) FSB5) eqn:E.
  - intros [= <-]. apply bytes_eqb_eq in E. rewrite Z.sub_diag.
    split; [lia|]. split; [done|]. intros q Hq. lia.
  - intros Hs. apply IH in Hs as (Hle & Hocc & Hmin).
    assert (Hne : take 4 (b :: rest) <> FSB5).
    { intros Heq. apply (proj2 (bytes_eqb_eq _ _)) in Heq. by rewrite Heq in E. }
    split; [lia|]. split.
    + replace (Z.to_nat (o - p)) with (S (Z.to_nat (o - (p + 1)))) by lia. done.
    + intros q Hq. destruct (decide (q = p)) as [->|Hqp].
      * by rewrite Z.sub_diag.
      * replace (Z.to_nat (q - p)) with (S (Z.to_nat (q - (p + 1)))) by lia.
        apply Hmin. lia.
Qed.

Lemma search_None (sfx : list byte) (p : Z) :
  search sfx p = None ->
  forall q, p <= q -> take 4 (drop (Z.to_nat (q - p)) sfx) <> FSB5.
Proof.
  revert p. induction sfx as [|b rest IH]; intros p Hs q Hq.
  - rewrite drop_nil. done.
  - cbn [search] in Hs. destruct (bytes_eqb (take 4 (b :: rest)) FSB5) eqn:E; [done|].
    destruct (decide (q = p)) as [->|Hqp].
    + rewrite Z.sub_diag. change (drop (Z.to_nat 0) (b :: rest)) with (b :: rest).
      intros Heq. apply (proj2 (bytes_eqb_eq _ _)) in Heq. by rewrite Heq in E.
    + replace (Z.to_nat (q - p)) with (S (Z.to_nat (q - (p + 1)))) by lia.
      apply (IH (p + 1) Hs). lia.
Qed.

(** The earliest signature at or after [start], declaratively. *)
Lemma first_signature_Some (data : list byte) (start o : Z) :
  0 <= start -> first_signature data start = Some o ->
  start <= o /\ occurs_at data o /\ forall q, start <= q < o -> ~ occurs_at data q.
Proof.
  intros Hs Hf. apply search_Some in Hf as (Hle & Hocc & Hmin).
  unfold occurs_at. split; [done|]. split.
  - rewrite drop_drop in Hocc. by replace (Z.to_nat o) with (Z.to_nat start + Z.to_nat (o - start))%nat by lia.
  - intros q Hq. specialize (Hmin q Hq). rewrite drop_drop in Hmin.
    by replace (Z.to_nat q) with (Z.to_nat start + Z.to_nat (q - start))%nat by lia.
Qed.

Lemma first_signature_None (data : list byte) (start : Z) :
  0 <= start -> first_signature data start = None ->
  forall q, start <= q -> ~ occurs_at data q.
Proof.
  intros Hs Hf q Hq. pose proof (search_None _ _ Hf q Hq) as Hn.
  unfold occurs_at. rewrite drop_drop in Hn.
  by replace (Z.to_nat q) with (Z.to_nat start + Z.to_nat (q - start))%nat by lia.
Qed.

Lemma first_signature_in_range (data : list byte) (start o : Z) :
  0 <= start -> first_signature data start = Some o ->
  o + 4 <= Z.of_nat (length data).
Proof.
  intros Hs Hf. apply first_signature_Some in Hf as (Hle & Hocc & _); [|done].
  unfold occurs_at in Hocc. apply (f_equal length) in Hocc.
  rewrite length_take, length_drop in Hocc. change (length FSB5) with 4%nat in Hocc. lia.
Qed.

Lemma tellg_good (data : list byte) (pos : Z) :
  tellg (mk_ifstream data pos false false) = (pos, mk_ifstream data pos false false).
Proof. reflexivity. Qed.

(** On success the stream is positioned at the earliest signature. *)
Lemma FindFSB5Signature_found (data : list byte) (pos o : Z) :
  0 <= pos -> first_signature data pos = Some o ->
  FindFSB5Signature (mk_ifstream data pos false false)
  = Finished (true, mk_ifstream data o false false).
Proof.
  intros Hpos Hf. unfold FindFSB5Signature. rewrite tellg_good.
  pose proof (first_signature_in_range _ _ _ Hpos Hf) as Hin.
  pose proof (first_signature_Some _ _ _ Hpos Hf) as (Hle & _ & _).
  unfold first_signature in Hf.
  rewrite (FindFSB5Signature_while_spec data (drop (Z.to_nat pos) data) pos); try done.
  - by rewrite Hf.
  - intros Hnil. by rewrite Hnil in Hf.
  - unfold FindFSB5Signature_bound, if_size. cbn [if_data if_pos].
    rewrite length_drop. lia.
Qed.

(** On failure with at least one byte left, the stream is left at the end
    of the data with [failbit] set: the closing [seekg] has no effect. *)
Lemma FindFSB5Signature_not_found (data : list byte) (pos : Z) :
  0 <= pos < Z.of_nat (length data) -> first_signature data pos = None ->
  FindFSB5Signature (mk_ifstream data pos false false)
  = Finished (false, mk_ifstream data (Z.of_nat (length data)) false true).
Proof.
  intros Hpos Hf. unfold FindFSB5Signature. rewrite tellg_good.
  unfold first_signature in Hf.
  rewrite (FindFSB5Signature_while_spec data (drop (Z.to_nat pos) data) pos); try done.
  - rewrite Hf. by rewrite seekg_failed.
  - lia.
  - intros Hnil. apply (f_equal length) in Hnil. rewrite length_drop in Hnil.
    simpl in Hnil. lia.
  - unfold FindFSB5Signature_bound, if_size. cbn [if_data if_pos].
    rewrite length_drop. lia.
Qed.

(** Started at or beyond the end of the data, the scanner fails and the
    stream is as before. *)
Lemma FindFSB5Signature_at_end (data : list byte) (pos : Z) :
  Z.of_nat (length data) <= pos ->
  FindFSB5Signature (mk_ifstream data pos false false)
  = Finished (false, mk_ifstream data pos false false).
Proof.
  intros Hpos. unfold FindFSB5Signature. rewrite tellg_good.
  unfold FindFSB5Signature_bound. cbn [FindFSB5Signature_while].
  rewrite peek_good_eof by (apply lookup_ge_None; lia).
  rewrite seekg_after_eof by lia. done.
Qed.

(** The scanner always returns: its iteration bound is never exhausted. *)
Lemma FindFSB5Signature_total (data : list byte) (pos : Z) :
  0 <= pos ->
  exists found reader',
    FindFSB5Signature (mk_ifstream data pos false false) = Finished (found, reader').
Proof.
  intros Hpos. destruct (decide (pos < Z.of_nat (length data))) as [Hlt|Hge].
  - destruct (first_signature data pos) as [o|] eqn:Hf.
    + rewrite (FindFSB5Signature_found _ _ _ Hpos Hf). eauto.
    + rewrite FindFSB5Signature_not_found by (done || lia). eauto.
  - rewrite FindFSB5Signature_at_end by lia. eauto.
Qed.

(** C7 fails on the code in its failure half.  When no signature occurs at
    or after the start position and at least one byte is left, the scanner
    reports failure with the stream positioned at the end of the data and
    [failbit] set: the final short [read] sets [failbit], and
    [seekg(startPosition)] does nothing on a failed stream.  The stream is
    not restored ([tellg()] now yields -1). *)
Theorem FindFSB5Signature_failure_not_restored (data : list byte) (pos : Z) :
  0 <= pos < Z.of_nat (length data) ->
  first_signature data pos = None ->
  exists reader',
    FindFSB5Signature (mk_ifstream data pos false false) = Finished (false, reader')
    /\ if_pos reader' = Z.of_nat (length data)
    /\ if_pos reader' <> pos
    /\ if_failbit reader' = true
    /\ (tellg reader').1 = -1.
Proof.
  intros Hpos Hf. eexists. split; [by apply FindFSB5Signature_not_found|].
  cbn. repeat split; lia.
Qed.

Lemma FindFSB5Signature_failure_not_restored_witness :
  0 <= 0 < Z.of_nat (length (bytes_of_string "ABCDE"))
  /\ first_signature (bytes_of_string "ABCDE") 0 = None
  /\ exists reader',
       FindFSB5Signature (mk_ifstream (bytes_of_string "ABCDE") 0 false false)
       = Finished (false, reader')
       /\ if_pos reader' = Z.of_nat (length (bytes_of_string "ABCDE"))
       /\ if_pos reader' <> 0
       /\ if_failbit reader' = true
       /\ (tellg reader').1 = -1.
Proof.
  split; [cbn; lia|]. split; [reflexivity|].
  apply (FindFSB5Signature_failure_not_restored (bytes_of_string "ABCDE") 0);
    [cbn; lia | reflexivity].
Defined.

End SignatureFacts.

(** ** The sub-container extractor *)

Section ExtractFacts.
Import BANKtoFSBExtractor.
Context {os : OS}.

Lemma read_u32_good (data : list byte) (p : Z) :
  0 <= p -> p + 4 <= Z.of_nat (length data) ->
  read_u32 (mk_ifstream data p false false)
  = (Some (field (Z.to_nat p) 4 data), mk_ifstream data (p + 4) false false).
Proof.
  intros Hp Hlen. unfold read_u32. rewrite read_good_full by lia.
  change (Z.to_nat 4) with 4%nat.
  assert (Hl : Z.of_nat (length (take 4 (drop (Z.to_nat p) data))) = 4).
  { rewrite length_take, length_drop. lia. }
  rewrite Hl. reflexivity.
Qed.






End ExtractFacts.

Section ExtractExamples.
Import BANKtoFSBExtractor.

(** The bytes that a header declares belong to its sub-container and
    are copied, not scanned: in the outer container below the signature
    occurs at offsets 3 and 27, the second time inside the 60 bytes of the
    sub-container that starts at the first, and extraction produces that
    one file of 60 bytes. *)
Lemma ExtractFSBsFromBankFile_skips_inner_signature :
  signature_offsets bank_overlapping = [3; 27]
  /\ match @ExtractFSBsFromBankFile toy_OS 5 "x.bank" (<["x.bank" := bank_overlapping]> ∅) with
     | Finished (tempFsbFiles, fs) =>
         Some (tempFsbFiles, length <$> fs !! "/tmp/x.fsb", fs !! "/tmp/x_2.fsb")
     | _ => None
     end = Some (["/tmp/x.fsb"], Some 60%nat, None).
Proof. split; vm_compute; reflexivity. Qed.


End ExtractExamples.

(** ** main: the container loop, the handler and the cleanup *)

Section MainFacts.
Context {engine : FMOD} {os : OS}.
Variable substitute : ascii -> string.



(** The constructor prints its one line exactly when it throws the
    version mismatch. *)
Lemma FMODSystem_ctor_prints :
  (FMODSystem_ctor = Threw "FMOD version mismatch"
   /\ FMODSystem_ctor_cerr = [Cerr "FMOD lib version is less than header version"])
  \/ (FMODSystem_ctor <> Threw "FMOD version mismatch" /\ FMODSystem_ctor_cerr = []).
Proof.
  unfold FMODSystem_ctor, FMODSystem_ctor_cerr, FMODSystem_ctor_run.
  destruct System_Create as [r1 system].
  destruct (negb (is_FMOD_OK r1)); [by right|].
  destruct (getVersion system) as [r2 version].
  destruct (negb (is_FMOD_OK r2)); [by right|].
  destruct (version <? FMOD_VERSION); [by left|].
  destruct (negb (is_FMOD_OK (init system))); by right.
Qed.

Lemma main_after_throw (fuel : nat) (argv : list string) (w w' : World) (what : string) :
  reaches_try argv = true ->
  main_try substitute fuel argv w = Finished (TryThrew what, w') ->
  main substitute fuel argv w
  = Finished (1, mk_World (w_fs w') (w_trace w' ++ error_banner)).
Proof.
  unfold reaches_try, main. intros Hargs Htry.
  destruct (Z.of_nat (length argv) <? 2); [done|].
  destruct ((Z.of_nat (length argv) =? 2) && is_help _); [done|].
  destruct ((2 <? Z.of_nat (length argv)) && existsb is_help _); [done|].
  rewrite Htry. unfold emit, error_banner. cbn [w_fs w_trace].
  by rewrite <- !app_assoc.
Qed.

Lemma main_after_done (fuel : nat) (argv : list string) (w w' : World)
    (verbose logOpen : bool) (tempFilesToDelete : list string) :
  reaches_try argv = true ->
  main_try substitute fuel argv w = Finished (TryDone verbose logOpen tempFilesToDelete, w') ->
  main substitute fuel argv w
  = Finished (0, delete_temp_files tempFilesToDelete
                   (emit (Cout "Processing End")
                      (if logOpen then emit (LogLine "Processing finished for Input file") w'
                       else w'))).
Proof.
  unfold reaches_try, main. intros Hargs Htry.
  destruct (Z.of_nat (length argv) <? 2); [done|].
  destruct ((Z.of_nat (length argv) =? 2) && is_help _); [done|].
  destruct ((2 <? Z.of_nat (length argv)) && existsb is_help _); [done|].
  by rewrite Htry.
Qed.

End MainFacts.

Section CleanupFacts.

Lemma delete_temp_files_fs (tempFilesToDelete : list string) :
  forall (w : World) (f : string),
    w_fs (delete_temp_files tempFilesToDelete w) !! f
    = if bool_decide (f ∈ tempFilesToDelete) then None else w_fs w !! f.
Proof.
  induction tempFilesToDelete as [|t rest IH]; intros w f; [done|].
  cbn [delete_temp_files].
  destruct (bool_decide (is_Some (w_fs w !! t))) eqn:Ex.
  - rewrite IH. cbn [emit w_fs].
    destruct (decide (f ∈ rest)) as [Hin|Hnin].
    + rewrite !bool_decide_eq_true_2; [done | apply elem_of_cons; by right | done].
    + rewrite (bool_decide_eq_false_2 (f ∈ rest)) by done.
      destruct (decide (f = t)) as [->|Hne].
      * rewrite bool_decide_eq_true_2 by (apply elem_of_cons; by left).
        apply lookup_delete_eq.
      * rewrite bool_decide_eq_false_2 by (apply not_elem_of_cons; done).
        by apply lookup_delete_ne.
  - rewrite IH. apply bool_decide_eq_false in Ex.
    destruct (decide (f ∈ rest)) as [Hin|Hnin].
    + rewrite !bool_decide_eq_true_2; [done | apply elem_of_cons; by right | done].
    + rewrite (bool_decide_eq_false_2 (f ∈ rest)) by done.
      destruct (decide (f = t)) as [->|Hne].
      * rewrite bool_decide_eq_true_2 by (apply elem_of_cons; by left).
        destruct (w_fs w !! t) eqn:El; [|done]. exfalso. apply Ex. eauto.
      * by rewrite bool_decide_eq_false_2 by (apply not_elem_of_cons; done).
Qed.

(** After the cleanup loop none of the listed files exists. *)
Lemma delete_temp_files_removes (tempFilesToDelete : list string) (w : World) (f : string) :
  f ∈ tempFilesToDelete -> w_fs (delete_temp_files tempFilesToDelete w) !! f = None.
Proof. intros Hin. rewrite delete_temp_files_fs. by rewrite bool_decide_eq_true_2. Qed.

(** The cleanup loop only appends removals to what was already output. *)
Lemma delete_temp_files_trace (tempFilesToDelete : list string) :
  forall (w : World),
  exists removed,
    w_trace (delete_temp_files tempFilesToDelete w) = w_trace w ++ map FsRemove removed.
Proof.
  induction tempFilesToDelete as [|t rest IH]; intros w.
  - exists []. cbn. by rewrite app_nil_r.
  - cbn [delete_temp_files]. destruct (bool_decide (is_Some (w_fs w !! t))).
    + destruct (IH (emit (FsRemove t) (mk_World (delete t (w_fs w)) (w_trace w))))
        as [removed Hr].
      exists (t :: removed). rewrite Hr. cbn. by rewrite <- app_assoc.
    + apply IH.
Qed.

End CleanupFacts.

Section RunFacts.
Context {engine : FMOD} {os : OS}.
Variable substitute : ascii -> string.

(** On the path that reaches the end of [main], every temporary file is
    gone afterwards and the removals come after the closing messages. *)
Lemma main_success_cleanup (fuel : nat) (argv : list string) (w w' : World)
    (verbose logOpen : bool) (tempFilesToDelete : list string) :
  reaches_try argv = true ->
  main_try substitute fuel argv w = Finished (TryDone verbose logOpen tempFilesToDelete, w') ->
  exists w'' removed,
    main substitute fuel argv w = Finished (0, w'')
    /\ (forall f, f ∈ tempFilesToDelete -> w_fs w'' !! f = None)
    /\ w_trace w''
       = w_trace w'
         ++ (if logOpen then [LogLine "Processing finished for Input file"] else [])
         ++ [Cout "Processing End"] ++ map FsRemove removed.
Proof.
  intros Hargs Htry. rewrite (main_after_done substitute _ _ _ _ _ _ _ Hargs Htry).
  set (w1 := emit (Cout "Processing End") _).
  destruct (delete_temp_files_trace tempFilesToDelete w1) as [removed Hr].
  exists (delete_temp_files tempFilesToDelete w1), removed. split; [done|]. split.
  - intros f Hin. by apply delete_temp_files_removes.
  - rewrite Hr. unfold w1. destruct logOpen; cbn; by rewrite <- ?app_assoc.
Qed.


End RunFacts.

Section RunExamples.



(** C4 fails on the code on the fatal path.  In the first run below the
    outer container yields two temporary sub-container files and the engine
    cannot open the first: the handler prints the banner, waits for a key
    and returns 1; both temporary files still exist and nothing was removed.
    In the second run, with two readable sub-containers, the run reaches the
    end, and both files are removed after the closing message. *)
Theorem main_fatal_path_skips_cleanup :
  match @main toy_FMOD toy_OS toy_substitute 10 ["prog"; "x.bank"]
          (world_with_bank bank_first_unreadable) with
  | Finished (code, w) =>
      Some (code,
            bool_decide (is_Some (w_fs w !! "/tmp/x.fsb")),
            bool_decide (is_Some (w_fs w !! "/tmp/x_2.fsb")),
            List.filter is_FsRemove (w_trace w),
            last (w_trace w))
  | _ => None
  end = Some (1, true, true, [], Some CinGet)
  /\ match @main toy_FMOD toy_OS toy_substitute 10 ["prog"; "x.bank"]
             (world_with_bank bank_two_fsbs) with
     | Finished (code, w) =>
         Some (code,
               bool_decide (is_Some (w_fs w !! "/tmp/x.fsb")),
               bool_decide (is_Some (w_fs w !! "/tmp/x_2.fsb")),
               drop 10 (w_trace w))
     | _ => None
     end = Some (0, false, false,
                 [Cout "Processing End"; FsRemove "/tmp/x.fsb"; FsRemove "/tmp/x_2.fsb"]).
Proof. split; vm_compute; reflexivity. Qed.

End RunExamples.

(** * Further properties

    The sections below cover the parts of the source that the properties
    above leave out: the fixed layout of the header, the primitives shared
    by the header writer and the sub-container reader, the clamp, the
    relations between the three transcription loops, the file-name
    sanitiser, the scanner seen from its caller, the edge cases of the
    extractor, what [ProcessSubSound] and [main] do to the files around
    them, and which files [main] hands to the engine. *)

(** ** The layout of the WAV header *)

Section HeaderLayout.

Ltac plain_field :=
  unfold WAVHeader_bytes;
  repeat (erewrite field_skip by (reflexivity || (simpl; lia)));
  simpl Nat.sub;
  first [rewrite field_here | rewrite field_last];
  unfold wrap; rewrite ?Z.mod_mod by lia; reflexivity.

Lemma hdr_channels_eq sr ch ds bps fmt :
  hdr_channels (WAVHeader_bytes sr ch ds bps fmt) = ch mod 2 ^ 16.
Proof. unfold hdr_channels. plain_field. Qed.

Lemma hdr_bits_per_sample_eq sr ch ds bps fmt :
  hdr_bits_per_sample (WAVHeader_bytes sr ch ds bps fmt) = bps mod 2 ^ 16.
Proof. unfold hdr_bits_per_sample. plain_field. Qed.

Lemma WriteWAVHeader_image file sr ch ds bps fmt file' :
  WriteWAVHeader file sr ch ds bps fmt = (true, file') ->
  drop (length (of_written file)) (of_written file') = WAVHeader_bytes sr ch ds bps fmt.
Proof.
  intros Hw. apply WriteWAVHeader_success in Hw as [_ Hw].
  rewrite Hw. by rewrite drop_app_length.
Qed.

(** X1: a header that [WriteWAVHeader] reports as written is appended
    after what the stream already held, and has the canonical 44-byte
    layout whatever the arguments are: the tags [RIFF], [WAVE], [fmt ] and
    [data] at offsets 0, 8, 12 and 36, the format chunk size 16 at offset
    16, and the channel count, sample rate, bits per sample and data size,
    each reduced to the width of its field, at offsets 22, 24, 34 and 40. *)
Theorem WriteWAVHeader_layout (file file' : ofstream)
    (sampleRate channels dataSize bitsPerSample : Z) (format : FMOD_SOUND_FORMAT) :
  WriteWAVHeader file sampleRate channels dataSize bitsPerSample format = (true, file') ->
  let image := drop (length (of_written file)) (of_written file') in
  of_written file' = of_written file ++ image
  /\ take 4 image = bytes_of_string Constants.RIFF_HEADER
  /\ take 4 (drop 8 image) = bytes_of_string Constants.WAVE_FORMAT
  /\ take 4 (drop 12 image) = bytes_of_string Constants.FMT_CHUNK
  /\ field 16 4 image = 16
  /\ take 4 (drop 36 image) = bytes_of_string Constants.DATA_CHUNK
  /\ hdr_channels image = channels mod 2 ^ 16
  /\ hdr_sample_rate image = sampleRate mod 2 ^ 32
  /\ hdr_bits_per_sample image = bitsPerSample mod 2 ^ 16
  /\ hdr_data_size image = dataSize mod 2 ^ 32.
Proof.
  intros Hw image. unfold image. rewrite (WriteWAVHeader_image _ _ _ _ _ _ _ Hw).
  apply WriteWAVHeader_success in Hw as [_ Hw].
  split; [done|]. do 5 (split; [reflexivity|]).
  split; [apply hdr_channels_eq|]. split; [apply hdr_sample_rate_eq|].
  split; [apply hdr_bits_per_sample_eq | apply hdr_data_size_eq].
Qed.

Lemma WriteWAVHeader_layout_witness :
  WriteWAVHeader (mk_ofstream true [Byte.x07]) 48000 2 960 24 FMOD_SOUND_FORMAT_PCM24
  = (true, mk_ofstream true
             (Byte.x07 :: WAVHeader_bytes 48000 2 960 24 FMOD_SOUND_FORMAT_PCM24))
  /\ hdr_sample_rate (WAVHeader_bytes 48000 2 960 24 FMOD_SOUND_FORMAT_PCM24) = 48000
  /\ hdr_data_size (WAVHeader_bytes 48000 2 960 24 FMOD_SOUND_FORMAT_PCM24) = 960.
Proof.
  split; [reflexivity|].
  destruct (WriteWAVHeader_layout (mk_ofstream true [Byte.x07])
              (mk_ofstream true
                 (Byte.x07 :: WAVHeader_bytes 48000 2 960 24 FMOD_SOUND_FORMAT_PCM24))
              48000 2 960 24 FMOD_SOUND_FORMAT_PCM24 eq_refl)
    as (_ & _ & _ & _ & _ & _ & _ & Hrate & _ & Hsize).
  split; [exact Hrate | exact Hsize].
Defined.

(** X2: for a non-negative sample rate, channel count and sample width
    whose frame size [channels * bitsPerSample] is a whole number of bytes,
    and whose block size and byte rate fit their fields, the header is
    consistent: the block-align field is the frame size in bytes and the
    byte-rate field is the sample-rate field times the block-align field. *)
Theorem WriteWAVHeader_byte_rate_block_align (file file' : ofstream)
    (sampleRate channels dataSize bitsPerSample : Z) (format : FMOD_SOUND_FORMAT) :
  WriteWAVHeader file sampleRate channels dataSize bitsPerSample format = (true, file') ->
  0 <= sampleRate < 2 ^ 31 -> 0 <= channels -> 0 <= bitsPerSample ->
  (channels * bitsPerSample) mod 8 = 0 ->
  channels * bitsPerSample / 8 < 2 ^ 16 ->
  sampleRate * (channels * bitsPerSample / 8) < 2 ^ 32 ->
  let image := drop (length (of_written file)) (of_written file') in
  hdr_block_align image = channels * bitsPerSample / 8
  /\ hdr_byte_rate image = hdr_sample_rate image * hdr_block_align image.
Proof.
  intros Hw Hsr Hch Hbps Hdiv Hba Hbr image.
  unfold image. rewrite (WriteWAVHeader_image _ _ _ _ _ _ _ Hw).
  rewrite hdr_byte_rate_eq, hdr_block_align_eq, hdr_sample_rate_eq.
  assert (Hprod : 0 <= channels * bitsPerSample) by lia.
  assert (Hq : 0 <= channels * bitsPerSample / 8) by (apply Z.div_pos; lia).
  assert (Hsmall : channels * bitsPerSample < 2 ^ 31).
  { pose proof (Z.div_mod (channels * bitsPerSample) 8 ltac:(lia)). lia. }
  unfold sint32. rewrite wrap_small by lia.
  rewrite (proj2 (Z.ltb_lt _ _) Hsmall).
  rewrite Z.quot_div_nonneg by lia.
  rewrite (Z.mod_small (channels * bitsPerSample / 8)) by lia.
  split; [done|].
  rewrite (Z.mod_small sampleRate) by lia.
  assert (E : sampleRate * channels * bitsPerSample / 8
              = sampleRate * (channels * bitsPerSample / 8)).
  { rewrite <- Z.mul_assoc. apply Z.divide_div_mul_exact; [lia|].
    apply Z.mod_divide; [lia | done]. }
  rewrite E. apply Z.mod_small. nia.
Qed.

Lemma WriteWAVHeader_byte_rate_block_align_witness :
  WriteWAVHeader (mk_ofstream true []) 48000 2 960 24 FMOD_SOUND_FORMAT_PCM24
  = (true, mk_ofstream true (WAVHeader_bytes 48000 2 960 24 FMOD_SOUND_FORMAT_PCM24))
  /\ (2 * 24) mod 8 = 0
  /\ hdr_block_align (WAVHeader_bytes 48000 2 960 24 FMOD_SOUND_FORMAT_PCM24) = 6
  /\ hdr_byte_rate (WAVHeader_bytes 48000 2 960 24 FMOD_SOUND_FORMAT_PCM24)
     = hdr_sample_rate (WAVHeader_bytes 48000 2 960 24 FMOD_SOUND_FORMAT_PCM24)
       * hdr_block_align (WAVHeader_bytes 48000 2 960 24 FMOD_SOUND_FORMAT_PCM24).
Proof.
  split; [reflexivity|]. split; [reflexivity|].
  exact (WriteWAVHeader_byte_rate_block_align (mk_ofstream true [])
           (mk_ofstream true (WAVHeader_bytes 48000 2 960 24 FMOD_SOUND_FORMAT_PCM24))
           48000 2 960 24 FMOD_SOUND_FORMAT_PCM24 eq_refl
           ltac:(lia) ltac:(lia) ltac:(lia) eq_refl ltac:(reflexivity) ltac:(reflexivity)).
Defined.

End HeaderLayout.

(** ** The clamp *)

Section ClampFacts.

Lemma SFleb_SFltb_false (x y : spec_float) :
  SFleb x y = true -> SFltb y x = false.
Proof.
  unfold SFltb, SFleb. rewrite (SFcompare_antisym x y).
  by destruct (SFcompare x y) as [[]|].
Qed.

Lemma above_one_not_below (bits : Z) :
  Float32.ltb Float32.one_bits bits = true ->
  Float32.ltb bits Float32.minus_one_bits = false.
Proof.
  unfold Float32.ltb. rewrite decode_one, decode_minus_one.
  destruct (Float32.decode bits) as [s|s| |s m e]; try done; by destruct s.
Qed.

Lemma in_unit_range_clamp (bits : Z) :
  Float32.in_unit_range bits = true ->
  Float32.clamp bits Float32.minus_one_bits Float32.one_bits = bits.
Proof.
  unfold Float32.in_unit_range, Float32.leb, Float32.clamp, Float32.ltb.
  intros [H1 H2]%andb_true_iff.
  by rewrite (SFleb_SFltb_false _ _ H1), (SFleb_SFltb_false _ _ H2).
Qed.

(** X3: what [std::clamp(v, -1.0f, 1.0f)] does to a sample.  A value within
    [-1.0, 1.0] is returned bit for bit; a value above 1.0 (including
    +infinity) becomes exactly 1.0 and a value below -1.0 (including
    -infinity) exactly -1.0; and clamping twice is the same as clamping
    once. *)
Theorem clamp_fixed_or_saturated (bits : Z) :
  (Float32.in_unit_range bits = true ->
   Float32.clamp bits Float32.minus_one_bits Float32.one_bits = bits)
  /\ (Float32.ltb Float32.one_bits bits = true ->
      Float32.clamp bits Float32.minus_one_bits Float32.one_bits = Float32.one_bits)
  /\ (Float32.ltb bits Float32.minus_one_bits = true ->
      Float32.clamp bits Float32.minus_one_bits Float32.one_bits = Float32.minus_one_bits)
  /\ Float32.clamp (Float32.clamp bits Float32.minus_one_bits Float32.one_bits)
       Float32.minus_one_bits Float32.one_bits
     = Float32.clamp bits Float32.minus_one_bits Float32.one_bits.
Proof.
  split; [apply in_unit_range_clamp|]. split; [|split].
  - intros Habove. unfold Float32.clamp.
    by rewrite (above_one_not_below _ Habove), Habove.
  - intros Hbelow. unfold Float32.clamp. by rewrite Hbelow.
  - destruct (Float32.is_nan bits) eqn:Hnan.
    + by rewrite !(clamp_nan _ Hnan).
    + apply in_unit_range_clamp. by apply clamp_in_unit_range.
Qed.

Lemma clamp_fixed_or_saturated_witness :
  Float32.in_unit_range 0x3F000000 = true
  /\ Float32.clamp 0x3F000000 Float32.minus_one_bits Float32.one_bits = 0x3F000000
  /\ Float32.ltb Float32.one_bits 0x7F800000 = true
  /\ Float32.clamp 0x7F800000 Float32.minus_one_bits Float32.one_bits = Float32.one_bits
  /\ Float32.ltb 0xC0400000 Float32.minus_one_bits = true
  /\ Float32.clamp 0xC0400000 Float32.minus_one_bits Float32.one_bits
     = Float32.minus_one_bits.
Proof.
  split; [reflexivity|].
  split; [exact (proj1 (clamp_fixed_or_saturated 0x3F000000) eq_refl)|].
  split; [reflexivity|].
  split; [exact (proj1 (proj2 (clamp_fixed_or_saturated 0x7F800000)) eq_refl)|].
  split; [reflexivity|].
  exact (proj1 (proj2 (proj2 (clamp_fixed_or_saturated 0xC0400000))) eq_refl).
Defined.

End ClampFacts.

(** ** How the three loops relate *)

Section LoopRelations.
Import AudioProcessor.

Lemma bytesToRead_of_range (L total : Z) : 0 <= bytesToRead_of L total <= 4096.
Proof.
  unfold bytesToRead_of, Constants.CHUNK_SIZE, wrap.
  pose proof (Z.mod_pos_bound ((L - total) mod 2 ^ 64) (2 ^ 32) ltac:(lia)). lia.
Qed.

(** Two loops that put every chunk the engine can deliver into an open
    stream in the same way, and keep the stream open, do the same. *)
Lemma chunk_while_ext {Sound : Type}
    (readData : Sound -> Z -> FMOD_RESULT * list byte * Sound)
    (put1 put2 : list byte -> ofstream -> ofstream) (L : Z) :
  (forall s n w, 0 <= n <= 4096 -> of_is_open w = true ->
     put1 (readData s n).1.2 w = put2 (readData s n).1.2 w
     /\ of_is_open (put2 (readData s n).1.2 w) = true) ->
  forall fuel s wav c total,
    of_is_open wav = true ->
    chunk_while readData put1 fuel s wav L c total
    = chunk_while readData put2 fuel s wav L c total.
Proof.
  intros Hput. induction fuel as [|fuel IH]; intros s wav c total Hopen; [done|].
  cbn [chunk_while]. destruct (total <? L); [|done].
  destruct (Hput s (bytesToRead_of L total) wav (bytesToRead_of_range L total) Hopen)
    as [Heq Hopen'].
  destruct (readData s (bytesToRead_of L total)) as [[r buf] s1]. cbn [fst snd] in *.
  destruct (negb (is_FMOD_OK r)); [done|]. rewrite Heq. by apply IH.
Qed.

Lemma clamp_for_fixed (n : nat) (buffer : list byte) :
  Forall (fun bits => sample_ok bits = true) (samples_of buffer) ->
  clamp_for n buffer = buffer.
Proof.
  revert buffer. induction n as [|n IH]; intros buffer Hok; [by destruct buffer|].
  destruct buffer as [|b0 [|b1 [|b2 [|b3 rest]]]]; try reflexivity.
  cbn [samples_of] in Hok. apply Forall_cons in Hok as [Hb Hrest].
  cbn [clamp_for]. rewrite (IH rest Hrest).
  assert (Hfix : Float32.clamp (le_decode [b0; b1; b2; b3]) Float32.minus_one_bits
                   Float32.one_bits = le_decode [b0; b1; b2; b3]).
  { unfold sample_ok in Hb. apply orb_true_iff in Hb as [Hnan|Hin].
    - by apply clamp_nan.
    - by apply in_unit_range_clamp. }
  rewrite Hfix. pose proof (le_encode_decode [b0; b1; b2; b3]) as E.
  cbn [length] in E. by rewrite E.
Qed.

(** X4: when every sample the engine delivers is already within
    [-1.0, 1.0] (or is a NaN, which the clamp lets through), the float
    loop is the plain copying loop: same return value, same output, same
    chunk count, for every declared length and every amount of fuel. *)
Theorem WritePCMFloatDataChunk_in_range_is_copy {Sound : Type}
    (readData : Sound -> Z -> FMOD_RESULT * list byte * Sound)
    (fuel : nat) (subSound : Sound) (wavFile : ofstream) (soundLengthBytes chunkCount : Z) :
  (forall s n, Forall (fun bits => sample_ok bits = true) (samples_of (readData s n).1.2)) ->
  of_is_open wavFile = true ->
  WritePCMFloatDataChunk readData fuel subSound wavFile soundLengthBytes chunkCount
  = WriteAudioDataChunk readData fuel subSound wavFile soundLengthBytes chunkCount.
Proof.
  intros Hok Hopen. unfold WritePCMFloatDataChunk, WriteAudioDataChunk.
  rewrite WritePCMFloatDataChunk_while_eq, WriteAudioDataChunk_while_eq.
  apply chunk_while_ext; [|done]. intros s n w _ Hw.
  unfold put_float, put_raw. rewrite (clamp_for_fixed _ _ (Hok s n)).
  split; [done|]. by rewrite of_write_open.
Qed.

(** X5: when every read delivers a whole number of 3-byte samples (and,
    as the engine's interface promises, no more than was asked for), the
    24-bit loop is the plain copying loop. *)
Theorem WritePCM24DataChunk_whole_samples_is_copy {Sound : Type}
    (readData : Sound -> Z -> FMOD_RESULT * list byte * Sound)
    (fuel : nat) (subSound : Sound) (wavFile : ofstream) (soundLengthBytes chunkCount : Z) :
  readData_bounded readData ->
  (forall s n, (length (readData s n).1.2 mod 3 = 0)%nat) ->
  of_is_open wavFile = true ->
  WritePCM24DataChunk readData fuel subSound wavFile soundLengthBytes chunkCount
  = WriteAudioDataChunk readData fuel subSound wavFile soundLengthBytes chunkCount.
Proof.
  intros Hb Hwhole Hopen. unfold WritePCM24DataChunk, WriteAudioDataChunk.
  rewrite WritePCM24DataChunk_while_eq, WriteAudioDataChunk_while_eq.
  apply chunk_while_ext; [|done]. intros s n w Hn Hw.
  pose proof (Hb s n ltac:(lia)) as Hlen.
  rewrite put_pcm24_open by (done || lia).
  rewrite (complete_samples_whole _ (Hwhole s n)).
  unfold put_raw. rewrite of_write_open by done. done.
Qed.

End LoopRelations.

(** ** The loops on an engine that delivers full chunks *)

Section FullChunks.
Import AudioProcessor.

Lemma chunks_needed_drop (data : list byte) :
  data <> [] ->
  (Z.of_nat (length (drop 4096 data)) + 4095) / 4096
  = (Z.of_nat (length data) + 4095) / 4096 - 1.
Proof.
  intros Hne.
  assert (Hpos : 0 < Z.of_nat (length data)) by (destruct data; simpl; [done | lia]).
  rewrite length_drop. destruct (decide (Z.of_nat (length data) < 4096)).
  - replace (length data - 4096)%nat with 0%nat by lia.
    change ((Z.of_nat 0 + 4095) / 4096) with 0.
    replace (Z.of_nat (length data) + 4095)
      with (Z.of_nat (length data) - 1 + 1 * 4096) by lia.
    rewrite Z.div_add, Z.div_small by lia. lia.
  - replace (Z.of_nat (length data - 4096) + 4095)
      with (Z.of_nat (length data) + 4095 + (-1) * 4096) by lia.
    rewrite Z.div_add by lia. lia.
Qed.

(** One turn of the copying loop with the engine delivering full chunks. *)
Lemma chunk_while_put_raw_step (L : Z) (fuel : nat) (data : list byte)
    (wav : ofstream) (c total : Z) :
  0 <= L < 2 ^ 32 -> of_is_open wav = true ->
  total + Z.of_nat (length data) = L -> 0 <= total -> data <> [] ->
  chunk_while streaming_readData put_raw (S fuel) data wav L c total
  = chunk_while streaming_readData put_raw fuel (drop 4096 data)
      (mk_ofstream true (of_written wav ++ take 4096 data))
      L (c + 1) (total + Z.min 4096 (Z.of_nat (length data))).
Proof.
  intros HL Hopen Hsum Ht Hne.
  assert (Hpos : 0 < Z.of_nat (length data)) by (destruct data; simpl; [done | lia]).
  cbn [chunk_while]. rewrite (proj2 (Z.ltb_lt total L)) by lia.
  rewrite bytesToRead_of_eq by lia.
  assert (Hread : streaming_readData data (Z.min 4096 (L - total))
                  = (FMOD_OK, take 4096 data, drop 4096 data)).
  { destruct data as [|b data]; [done|]. unfold streaming_readData.
    destruct (decide (4096 <= L - total)) as [Hge|Hlt].
    - rewrite Z.min_l by lia. done.
    - rewrite Z.min_r by lia.
      rewrite (take_ge (b :: data) (Z.to_nat (L - total))) by lia.
      rewrite (take_ge (b :: data) 4096) by lia.
      rewrite (drop_ge (b :: data) (Z.to_nat (L - total))) by lia.
      rewrite (drop_ge (b :: data) 4096) by lia. done. }
  rewrite Hread. cbn [negb is_FMOD_OK].
  assert (Hk : Z.of_nat (length (take 4096 data)) = Z.min 4096 (Z.of_nat (length data))).
  { rewrite length_take. lia. }
  rewrite put_raw_open by (done || lia).
  by rewrite Hk, wrap_small by lia.
Qed.

Lemma chunk_while_put_raw_copies (L : Z) :
  0 <= L < 2 ^ 32 ->
  forall (fuel : nat) (data : list byte) (wav : ofstream) (c total : Z),
    of_is_open wav = true ->
    total + Z.of_nat (length data) = L -> 0 <= total ->
    (Z.of_nat (length data) + 4095) / 4096 < Z.of_nat fuel ->
    chunk_while streaming_readData put_raw fuel data wav L c total
    = Finished (true, [], mk_ofstream true (of_written wav ++ data),
                c + (Z.of_nat (length data) + 4095) / 4096, L).
Proof.
  intros HL. induction fuel as [|fuel IH]; intros data wav c total Hopen Hsum Ht Hfuel.
  { pose proof (Z.div_pos (Z.of_nat (length data) + 4095) 4096). lia. }
  destruct (decide (data = [])) as [->|Hne].
  - cbn [chunk_while length] in *. rewrite (proj2 (Z.ltb_ge total L)) by lia.
    change ((Z.of_nat 0 + 4095) / 4096) with 0. rewrite app_nil_r, Z.add_0_r.
    rewrite <- (ofstream_eta wav Hopen). by replace total with L by lia.
  - rewrite chunk_while_put_raw_step by done.
    pose proof (chunks_needed_drop data Hne) as Hcount.
    rewrite IH; [| done | rewrite length_drop; lia | lia | lia].
    cbn [of_written]. rewrite <- app_assoc, take_drop, Hcount.
    by replace (c + 1 + ((Z.of_nat (length data) + 4095) / 4096 - 1))
      with (c + (Z.of_nat (length data) + 4095) / 4096) by lia.
Qed.

(** X6: with an engine that delivers the stream in full chunks, the
    copying loop used for 8-, 16- and 32-bit PCM returns success, has
    appended the stream's bytes to the output unchanged and in order, and
    has made one read for every started chunk of 4096 bytes. *)
Theorem WriteAudioDataChunk_copies_stream (fuel : nat) (data : list byte)
    (wavFile : ofstream) (chunkCount : Z) :
  of_is_open wavFile = true ->
  Z.of_nat (length data) < 2 ^ 32 ->
  (Z.of_nat (length data) + 4095) / 4096 < Z.of_nat fuel ->
  WriteAudioDataChunk streaming_readData fuel data wavFile (Z.of_nat (length data)) chunkCount
  = Finished (true, [], mk_ofstream true (of_written wavFile ++ data),
              chunkCount + (Z.of_nat (length data) + 4095) / 4096,
              Z.of_nat (length data)).
Proof.
  intros Hopen Hlen Hfuel. unfold WriteAudioDataChunk.
  rewrite WriteAudioDataChunk_while_eq.
  apply chunk_while_put_raw_copies; (done || lia).
Qed.

Lemma WriteAudioDataChunk_copies_stream_witness :
  WriteAudioDataChunk streaming_readData 3 (replicate (Z.to_nat 5000) Byte.x2a) (mk_ofstream true [])
    (Z.of_nat (length (replicate (Z.to_nat 5000) Byte.x2a))) 0
  = Finished (true, [], mk_ofstream true ([] ++ replicate (Z.to_nat 5000) Byte.x2a),
              0 + (Z.of_nat (length (replicate (Z.to_nat 5000) Byte.x2a)) + 4095) / 4096,
              Z.of_nat (length (replicate (Z.to_nat 5000) Byte.x2a))).
Proof.
  apply (WriteAudioDataChunk_copies_stream 3 (replicate (Z.to_nat 5000) Byte.x2a) (mk_ofstream true []) 0).
  - reflexivity.
  - rewrite length_replicate. lia.
  - rewrite length_replicate, Z2Nat.id by lia. change ((5000 + 4095) / 4096) with 2. lia.
Defined.

(** X7: with an engine that delivers the stream in full chunks, the
    24-bit loop returns success after one read per started chunk, and the
    number of bytes it leaves out is one for every full chunk of 4096
    bytes plus the bytes of the last chunk beyond its complete 3-byte
    samples. *)
Theorem WritePCM24DataChunk_bytes_left_out (fuel : nat) (data : list byte)
    (wavFile : ofstream) (chunkCount : Z) :
  of_is_open wavFile = true ->
  Z.of_nat (length data) < 2 ^ 32 ->
  (Z.of_nat (length data) + 4095) / 4096 < Z.of_nat fuel ->
  exists wavFile',
    WritePCM24DataChunk streaming_readData fuel data wavFile (Z.of_nat (length data)) chunkCount
    = Finished (true, [], wavFile',
                chunkCount + (Z.of_nat (length data) + 4095) / 4096,
                Z.of_nat (length data))
    /\ Z.of_nat (length data)
       - (Z.of_nat (length (of_written wavFile')) - Z.of_nat (length (of_written wavFile)))
       = Z.of_nat (length data) / 4096 + (Z.of_nat (length data) mod 4096) mod 3.
Proof.
  intros Hopen Hlen Hfuel.
  destruct (WritePCM24DataChunk_full_chunks (Z.of_nat (length data)) ltac:(lia) fuel data
              wavFile chunkCount 0 Hopen ltac:(lia) ltac:(lia) Hfuel) as (wav' & Hrun & Hw).
  exists wav'. unfold WritePCM24DataChunk. rewrite WritePCM24DataChunk_while_eq.
  split; [done|]. rewrite Hw.
  pose proof (Z.div_mod (Z.of_nat (length data)) 4096 ltac:(lia)).
  pose proof (Z.div_mod (Z.of_nat (length data) mod 4096) 3 ltac:(lia)).
  lia.
Qed.

Lemma WritePCM24DataChunk_bytes_left_out_witness :
  exists wavFile',
    WritePCM24DataChunk streaming_readData 4 (replicate (Z.to_nat 8194) Byte.x2a) (mk_ofstream true [])
      (Z.of_nat (length (replicate (Z.to_nat 8194) Byte.x2a))) 0
    = Finished (true, [], wavFile',
                0 + (Z.of_nat (length (replicate (Z.to_nat 8194) Byte.x2a)) + 4095) / 4096,
                Z.of_nat (length (replicate (Z.to_nat 8194) Byte.x2a)))
    /\ Z.of_nat (length (replicate (Z.to_nat 8194) Byte.x2a))
       - (Z.of_nat (length (of_written wavFile'))
          - Z.of_nat (length (of_written (mk_ofstream true []))))
       = Z.of_nat (length (replicate (Z.to_nat 8194) Byte.x2a)) / 4096
         + (Z.of_nat (length (replicate (Z.to_nat 8194) Byte.x2a)) mod 4096) mod 3.
Proof.
  apply (WritePCM24DataChunk_bytes_left_out 4 (replicate (Z.to_nat 8194) Byte.x2a)
           (mk_ofstream true []) 0).
  - reflexivity.
  - rewrite length_replicate. lia.
  - rewrite length_replicate, Z2Nat.id by lia. change ((8194 + 4095) / 4096) with 3. lia.
Defined.

End FullChunks.

(** ** Bounds that hold for every engine *)

Section LoopBounds.
Import AudioProcessor.
Context {Sound : Type}.
Variable readData : Sound -> Z -> FMOD_RESULT * list byte * Sound.

Lemma chunk_while_beyond_32_bits (put : list byte -> ofstream -> ofstream) (L : Z) :
  2 ^ 32 <= L ->
  forall fuel s wav c total ok s' wav' c' total',
    0 <= total < 2 ^ 32 ->
    chunk_while readData put fuel s wav L c total = Finished (ok, s', wav', c', total') ->
    ok = false.
Proof.
  intros HL. induction fuel as [|fuel IH]; intros * Ht; [done|].
  cbn [chunk_while]. rewrite (proj2 (Z.ltb_lt total L)) by lia.
  destruct (readData s (bytesToRead_of L total)) as [[r buf] s1].
  destruct (negb (is_FMOD_OK r)).
  - by intros [= <- _ _ _ _].
  - apply IH. unfold wrap. apply Z.mod_pos_bound. lia.
Qed.

(** X8: the running total of the three loops is a 32-bit counter, so for
    a declared length of 2^32 bytes or more (the parameter is a [size_t])
    the loop condition never becomes false: whatever the engine does, none
    of the three loops ever returns success. *)
Theorem transcription_beyond_32_bits_never_succeeds (fuel : nat) (subSound : Sound)
    (wavFile : ofstream) (soundLengthBytes chunkCount : Z)
    (ok : bool) (subSound' : Sound) (wavFile' : ofstream) (chunkCount' total' : Z) :
  2 ^ 32 <= soundLengthBytes ->
  WriteAudioDataChunk readData fuel subSound wavFile soundLengthBytes chunkCount
  = Finished (ok, subSound', wavFile', chunkCount', total')
  \/ WritePCM24DataChunk readData fuel subSound wavFile soundLengthBytes chunkCount
     = Finished (ok, subSound', wavFile', chunkCount', total')
  \/ WritePCMFloatDataChunk readData fuel subSound wavFile soundLengthBytes chunkCount
     = Finished (ok, subSound', wavFile', chunkCount', total') ->
  ok = false.
Proof.
  intros HL Hrun.
  unfold WriteAudioDataChunk, WritePCM24DataChunk, WritePCMFloatDataChunk in Hrun.
  rewrite WriteAudioDataChunk_while_eq, WritePCM24DataChunk_while_eq,
    WritePCMFloatDataChunk_while_eq in Hrun.
  destruct Hrun as [Hrun|[Hrun|Hrun]];
    apply chunk_while_beyond_32_bits in Hrun; (done || lia).
Qed.

Lemma chunk_while_read_count (put : list byte -> ofstream -> ofstream) (L : Z) :
  readData_bounded readData -> readData_progress readData -> 0 <= L < 2 ^ 32 ->
  forall fuel s wav c total s' wav' c' total',
    0 <= total <= L ->
    chunk_while readData put fuel s wav L c total = Finished (true, s', wav', c', total') ->
    L - total <= 4096 * (c' - c) /\ c' - c <= L - total.
Proof.
  intros Hb Hp HL. induction fuel as [|fuel IH]; intros * Ht; [done|].
  cbn [chunk_while]. destruct (total <? L) eqn:Hlt.
  - apply Z.ltb_lt in Hlt. rewrite bytesToRead_of_eq by lia.
    pose proof (Hb s (Z.min 4096 (L - total)) ltac:(lia)) as Hlen.
    pose proof (Hp s (Z.min 4096 (L - total)) ltac:(lia)) as Hpos.
    destruct (readData s (Z.min 4096 (L - total))) as [[r buf] s1]. cbn [fst snd] in *.
    destruct (is_FMOD_OK r) eqn:Hr; cbn [negb]; [|done].
    specialize (Hpos eq_refl). rewrite wrap_small by lia.
    intros Hrun. apply IH in Hrun; lia.
  - apply Z.ltb_ge in Hlt. intros [= _ _ <- _]. lia.
Qed.

(** X9: with an engine whose successful reads deliver at least one byte
    and at most the number asked for, a successful transcription of [L]
    bytes has made at least [L / 4096] (rounded up) and at most [L] reads,
    in each of the three loops: the chunk counter has advanced by that
    many.  The counter is an [int] that the caller passes by reference; the
    bound is stated for a counter that starts non-negative and with
    [chunkCount + L] below 2^31, so that no increment leaves the range of
    [int] (in [ProcessSubSound] the counter starts at 0). *)
Theorem transcription_read_count (fuel : nat) (subSound : Sound) (wavFile : ofstream)
    (L chunkCount : Z) (subSound' : Sound) (wavFile' : ofstream) (chunkCount' total' : Z) :
  readData_bounded readData -> readData_progress readData -> 0 <= L < 2 ^ 32 ->
  0 <= chunkCount -> chunkCount + L < 2 ^ 31 ->
  WriteAudioDataChunk readData fuel subSound wavFile L chunkCount
  = Finished (true, subSound', wavFile', chunkCount', total')
  \/ WritePCM24DataChunk readData fuel subSound wavFile L chunkCount
     = Finished (true, subSound', wavFile', chunkCount', total')
  \/ WritePCMFloatDataChunk readData fuel subSound wavFile L chunkCount
     = Finished (true, subSound', wavFile', chunkCount', total') ->
  L <= 4096 * (chunkCount' - chunkCount)
  /\ chunkCount' - chunkCount <= L
  /\ chunkCount <= chunkCount' < 2 ^ 31.
Proof.
  intros Hb Hp HL Hc0 Hc Hrun.
  unfold WriteAudioDataChunk, WritePCM24DataChunk, WritePCMFloatDataChunk in Hrun.
  rewrite WriteAudioDataChunk_while_eq, WritePCM24DataChunk_while_eq,
    WritePCMFloatDataChunk_while_eq in Hrun.
  destruct Hrun as [Hrun|[Hrun|Hrun]];
    apply chunk_while_read_count in Hrun; (done || lia).
Qed.

End LoopBounds.
(** ** Sample rates that do not fit an [int] *)

Section SampleRateRange.

(** X10: for a default frequency of 2^31 Hz or more, and for +infinity,
    the conversion [static_cast<int>(defaultFrequency)] has no defined
    result: the fallback to 44100 Hz applies only to frequencies that are
    not greater than zero. *)
Theorem sampleRate_of_unrepresentable (defaultFrequency : spec_float) :
  defaultFrequency = S754_infinity false
  \/ (exists q, Q_of_float defaultFrequency = Some q /\ (inject_Z (2 ^ 31) <= q)%Q) ->
  sampleRate_of defaultFrequency = None.
Proof.
  intros [->|(q & Hq & Hbig)]; [reflexivity|].
  destruct defaultFrequency as [s|s| |s m e]; try done.
  - injection Hq as <-. by unfold Qle in Hbig.
  - unfold Q_of_float in Hq. unfold sampleRate_of.
    destruct s.
    + exfalso. destruct (0 <=? e) eqn:He; injection Hq as <-; unfold Qle in Hbig;
        cbn [Qnum Qden inject_Z] in Hbig.
      * apply Z.leb_le in He. pose proof (pow2_pos e He). nia.
      * lia.
    + change (SFltb (S754_zero false) (S754_finite false m e)) with true. cbv iota.
      unfold float_to_int.
      destruct (0 <=? e) eqn:He; injection Hq as <-; unfold Qle in Hbig;
        cbn [Qnum Qden inject_Z] in Hbig.
      * assert (Hr : (Z.pos m * 2 ^ e <? 2 ^ 31) = false) by (apply Z.ltb_ge; lia).
        by rewrite Hr, andb_false_r.
      * apply Z.leb_gt in He.
        assert (Hd : 0 < 2 ^ (- e)) by (apply pow2_pos; lia).
        rewrite Z2Pos.id in Hbig by lia.
        assert (Hr : (Z.pos m / 2 ^ (- e) <? 2 ^ 31) = false).
        { apply Z.ltb_ge. apply Z.div_le_lower_bound; lia. }
        by rewrite Hr, andb_false_r.
Qed.

End SampleRateRange.

(** ** The file-name sanitiser *)

Section SanitizeFacts.
Variable substitute : ascii -> string.

Lemma list_ascii_of_string_app (a b : string) :
  String.list_ascii_of_string (a +:+ b)
  = String.list_ascii_of_string a ++ String.list_ascii_of_string b.
Proof. induction a as [|c a IH]; [done|]. simpl. by rewrite IH. Qed.

Lemma list_ascii_of_concat (l : list string) :
  String.list_ascii_of_string (String.concat EmptyString l)
  = flat_map String.list_ascii_of_string l.
Proof.
  induction l as [|x l IH]; [done|].
  destruct l as [|y l].
  - cbn. by rewrite app_nil_r.
  - change (String.concat EmptyString (x :: y :: l))
      with (x +:+ EmptyString +:+ String.concat EmptyString (y :: l)).
    rewrite !list_ascii_of_string_app. rewrite IH. done.
Qed.

Lemma SanitizeFileName_chars (fileName : string) :
  String.list_ascii_of_string (SanitizeFileName substitute fileName)
  = flat_map (sanitized_char substitute) (String.list_ascii_of_string fileName).
Proof.
  unfold SanitizeFileName. rewrite list_ascii_of_concat.
  induction (String.list_ascii_of_string fileName) as [|c l IH]; [done|].
  cbn [map flat_map]. rewrite IH. f_equal.
  unfold sanitized_char. by destruct (unsafe_char c).
Qed.

Lemma size_t_index_step (i len : Z) :
  0 <= i -> 0 <= len -> i + len < 2 ^ 64 ->
  wrap 64 (wrap 64 (i + wrap 64 (len - 1)) + 1) = i + len.
Proof.
  intros Hi Hlen Hsum. unfold wrap.
  rewrite Z.add_mod_idemp_r by lia. rewrite Z.add_mod_idemp_l by lia.
  replace (i + (len - 1) + 1) with (i + len) by lia. apply Z.mod_small. lia.
Qed.

Lemma SanitizeFileName_for_spec :
  forall (rest done : list ascii) (n : nat),
    (length rest < n)%nat ->
    Z.of_nat (length (done ++ flat_map (sanitized_char substitute) rest)) < 2 ^ 64 ->
    SanitizeFileName_for substitute n (Z.of_nat (length done)) (done ++ rest)
    = Finished (done ++ flat_map (sanitized_char substitute) rest).
Proof.
  induction rest as [|c rest IH]; intros done n Hn Hsize.
  - destruct n as [|n]; [simpl in Hn; lia|]. cbn [SanitizeFileName_for flat_map].
    rewrite app_nil_r, Z.ltb_irrefl. done.
  - destruct n as [|n]; [simpl in Hn; lia|]. cbn [SanitizeFileName_for].
    cbn [length] in Hn.
    assert (Hlt : (Z.of_nat (length done) <? Z.of_nat (length (done ++ c :: rest))) = true).
    { apply Z.ltb_lt. rewrite length_app. cbn [length]. lia. }
    rewrite Hlt, Nat2Z.id.
    rewrite (list_lookup_middle done rest c (length done) eq_refl).
    cbn [flat_map] in Hsize |- *. rewrite app_assoc in Hsize.
    rewrite !length_app in Hsize.
    unfold sanitized_char at 1. unfold sanitized_char at 1 in Hsize.
    destruct (unsafe_char c).
    + rewrite take_app_length.
      replace (S (length done)) with (length (done ++ [c])) by (rewrite length_app; simpl; lia).
      replace (done ++ c :: rest) with ((done ++ [c]) ++ rest) by (by rewrite <- app_assoc).
      rewrite drop_app_length.
      rewrite size_t_index_step by lia.
      rewrite app_assoc.
      replace (Z.of_nat (length done)
               + Z.of_nat (length (String.list_ascii_of_string (substitute c))))
        with (Z.of_nat (length (done ++ String.list_ascii_of_string (substitute c))))
        by (rewrite length_app; lia).
      rewrite IH; [by rewrite <- !app_assoc | lia |].
      rewrite !length_app. lia.
    + cbn [length] in Hsize. rewrite wrap_small by lia.
      replace (Z.of_nat (length done) + 1) with (Z.of_nat (length (done ++ [c])))
        by (rewrite length_app; simpl; lia).
      replace (done ++ c :: rest) with ((done ++ [c]) ++ rest) by (by rewrite <- app_assoc).
      rewrite IH; [by rewrite <- !app_assoc | lia |].
      rewrite !length_app. simpl. lia.
Qed.

(** X11: the index loop of [SanitizeFileName] ends after one iteration per
    character of the original name, and the string it has then built in
    place is the name with every unsafe character replaced by its
    substitute and every other character kept; the text of a substitute
    is never examined again, whatever it contains and even when it is
    empty.  (The sizes involved are those of strings that fit the address
    space.) *)
Theorem SanitizeFileName_for_computes (fileName : string) :
  Z.of_nat (String.length (SanitizeFileName substitute fileName)) < 2 ^ 64 ->
  SanitizeFileName_for substitute (S (String.length fileName)) 0
    (String.list_ascii_of_string fileName)
  = Finished (String.list_ascii_of_string (SanitizeFileName substitute fileName)).
Proof.
  intros Hsize. rewrite SanitizeFileName_chars.
  apply (SanitizeFileName_for_spec (String.list_ascii_of_string fileName) []).
  - rewrite <- (string_of_list_ascii_of_string fileName) at 2.
    assert (Hl : forall l, String.length (String.string_of_list_ascii l) = length l).
    { induction l as [|a l IHl]; [done|]. cbn. by rewrite IHl. }
    rewrite Hl. lia.
  - cbn [app]. rewrite <- SanitizeFileName_chars.
    assert (Hl : forall s, length (String.list_ascii_of_string s) = String.length s).
    { induction s as [|a s IHs]; [done|]. cbn. by rewrite IHs. }
    by rewrite Hl.
Qed.

(** X12: when no substitute contains an unsafe character, the sanitised
    name contains none of the nine unsafe characters. *)
Theorem SanitizeFileName_output_safe (fileName : string) :
  (forall c, unsafe_char c = true ->
     Forall (fun d => unsafe_char d = false) (String.list_ascii_of_string (substitute c))) ->
  Forall (fun d => unsafe_char d = false)
    (String.list_ascii_of_string (SanitizeFileName substitute fileName)).
Proof.
  intros Hsub. rewrite SanitizeFileName_chars.
  induction (String.list_ascii_of_string fileName) as [|c l IH]; [constructor|].
  cbn [flat_map]. apply Forall_app. split; [|done].
  unfold sanitized_char. destruct (unsafe_char c) eqn:Hc; [by apply Hsub|].
  by constructor.
Qed.

Lemma SanitizeFileName_safe_chars (l : list ascii) :
  Forall (fun d => unsafe_char d = false) l -> flat_map (sanitized_char substitute) l = l.
Proof.
  induction 1 as [|c l Hc _ IH]; [done|].
  cbn [flat_map]. rewrite IH. unfold sanitized_char. by rewrite Hc.
Qed.

(** X13: a name without unsafe characters is returned unchanged; so, when
    no substitute contains an unsafe character, sanitising a name twice
    gives the same as sanitising it once. *)
Theorem SanitizeFileName_fixed_point (fileName : string) :
  (Forall (fun d => unsafe_char d = false) (String.list_ascii_of_string fileName) ->
   SanitizeFileName substitute fileName = fileName)
  /\ ((forall c, unsafe_char c = true ->
         Forall (fun d => unsafe_char d = false)
           (String.list_ascii_of_string (substitute c))) ->
      SanitizeFileName substitute (SanitizeFileName substitute fileName)
      = SanitizeFileName substitute fileName).
Proof.
  assert (Hfix : forall s,
             Forall (fun d => unsafe_char d = false) (String.list_ascii_of_string s) ->
             SanitizeFileName substitute s = s).
  { intros s Hs.
    rewrite <- (string_of_list_ascii_of_string (SanitizeFileName substitute s)).
    rewrite SanitizeFileName_chars, (SanitizeFileName_safe_chars _ Hs).
    apply string_of_list_ascii_of_string. }
  split; [apply Hfix|]. intros Hsub. apply Hfix.
  rewrite SanitizeFileName_chars.
  induction (String.list_ascii_of_string fileName) as [|c l IH]; [constructor|].
  cbn [flat_map]. apply Forall_app. split; [|done].
  unfold sanitized_char. destruct (unsafe_char c) eqn:Hc; [by apply Hsub|].
  by constructor.
Qed.

End SanitizeFacts.

Section SanitizeExamples.

Lemma charMap_safe (c : ascii) :
  unsafe_char c = true ->
  Forall (fun d => unsafe_char d = false) (String.list_ascii_of_string (charMap c)).
Proof.
  unfold unsafe_char at 1. intros Hc%bool_decide_eq_true.
  repeat (apply elem_of_cons in Hc as [->|Hc]; [vm_compute; repeat constructor|]).
  by apply elem_of_nil in Hc.
Qed.

Lemma SanitizeFileName_for_computes_witness :
  Z.of_nat (String.length (SanitizeFileName charMap "a/b:c")) < 2 ^ 64
  /\ SanitizeFileName_for charMap (S (String.length "a/b:c")) 0
       (String.list_ascii_of_string "a/b:c")
     = Finished (String.list_ascii_of_string (SanitizeFileName charMap "a/b:c")).
Proof.
  split; [vm_compute; reflexivity|].
  apply (SanitizeFileName_for_computes charMap "a/b:c"). vm_compute. reflexivity.
Defined.

Lemma SanitizeFileName_output_safe_witness :
  (forall c, unsafe_char c = true ->
     Forall (fun d => unsafe_char d = false) (String.list_ascii_of_string (charMap c)))
  /\ Forall (fun d => unsafe_char d = false)
       (String.list_ascii_of_string (SanitizeFileName charMap "a/b:c")).
Proof.
  split; [exact charMap_safe|].
  exact (SanitizeFileName_output_safe charMap "a/b:c" charMap_safe).
Defined.

Lemma SanitizeFileName_fixed_point_witness :
  Forall (fun d => unsafe_char d = false) (String.list_ascii_of_string "music_01")
  /\ SanitizeFileName charMap "music_01" = "music_01"
  /\ SanitizeFileName charMap (SanitizeFileName charMap "a/b:c")
     = SanitizeFileName charMap "a/b:c".
Proof.
  assert (Hsafe : Forall (fun d => unsafe_char d = false)
                    (String.list_ascii_of_string "music_01")).
  { vm_compute. repeat constructor. }
  split; [exact Hsafe|]. split.
  - exact (proj1 (SanitizeFileName_fixed_point charMap "music_01") Hsafe).
  - exact (proj2 (SanitizeFileName_fixed_point charMap "a/b:c") charMap_safe).
Defined.

End SanitizeExamples.

(** ** The scanner, seen from its caller *)

Section ScannerUse.
Import BANKtoFSBExtractor.

Lemma first_signature_here (data : list byte) (o : Z) :
  0 <= o -> occurs_at data o -> first_signature data o = Some o.
Proof.
  intros Ho Hocc. unfold first_signature, occurs_at in *.
  destruct (drop (Z.to_nat o) data) as [|b rest] eqn:Hd; [done|].
  cbn [search]. by rewrite (proj2 (bytes_eqb_eq _ _) Hocc).
Qed.

(** On a stream that is not good the scanner fails at once. *)
Lemma FindFSB5Signature_not_good (reader : ifstream) :
  if_good reader = false ->
  FindFSB5Signature reader
  = Finished (false, mk_ifstream (if_data reader) (if_pos reader) false true).
Proof. destruct reader as [data pos [] []]; done. Qed.

(** X14: the scanner always returns, and it reports success exactly when
    the stream is good and the signature occurs at or after the read
    position.  It then leaves the stream good and positioned at the first
    byte of the earliest such occurrence (candidates are tried at every
    byte offset, so overlapping prefixes of the signature are not
    skipped); otherwise it reports failure and the file content is as
    before. *)
Theorem FindFSB5Signature_decides (reader : ifstream) :
  0 <= if_pos reader ->
  exists found reader',
    FindFSB5Signature reader = Finished (found, reader')
    /\ if_data reader' = if_data reader
    /\ (found = true <->
        if_good reader = true
        /\ exists o, first_signature (if_data reader) (if_pos reader) = Some o)
    /\ (found = true ->
        if_good reader' = true
        /\ if_pos reader <= if_pos reader'
        /\ occurs_at (if_data reader) (if_pos reader')
        /\ forall q, if_pos reader <= q < if_pos reader' -> ~ occurs_at (if_data reader) q).
Proof.
  intros Hpos. destruct (if_good reader) eqn:Hgood.
  - destruct reader as [data pos e f]. unfold if_good in Hgood. cbn in Hgood, Hpos.
    destruct e, f; try done. cbn [if_data if_pos].
    destruct (first_signature data pos) as [o|] eqn:Hf.
    + pose proof (first_signature_Some _ _ _ Hpos Hf) as (Hle & Hocc & Hmin).
      exists true, (mk_ifstream data o false false).
      split; [by apply FindFSB5Signature_found|]. split; [done|]. split.
      * split; [eauto | done].
      * intros _. by repeat split.
    + destruct (decide (pos < Z.of_nat (length data))) as [Hlt|Hge].
      * exists false, (mk_ifstream data (Z.of_nat (length data)) false true).
        split; [apply FindFSB5Signature_not_found; (done || lia)|].
        split; [done|]. split; [|done]. split; [done|]. by intros [_ [o [=]]].
      * exists false, (mk_ifstream data pos false false).
        split; [apply FindFSB5Signature_at_end; lia|].
        split; [done|]. split; [|done]. split; [done|]. by intros [_ [o [=]]].
  - exists false, (mk_ifstream (if_data reader) (if_pos reader) false true).
    split; [by apply FindFSB5Signature_not_good|]. split; [done|].
    split; [|done]. split; [done|]. by intros [[=] _].
Qed.

Lemma FindFSB5Signature_decides_witness :
  0 <= if_pos (mk_ifstream (bytes_of_string "xFFSB5y") 0 false false)
  /\ FindFSB5Signature (mk_ifstream (bytes_of_string "xFFSB5y") 0 false false)
     = Finished (true, mk_ifstream (bytes_of_string "xFFSB5y") 2 false false)
  /\ exists found reader',
       FindFSB5Signature (mk_ifstream (bytes_of_string "xFFSB5y") 0 false false)
       = Finished (found, reader')
       /\ if_data reader' = bytes_of_string "xFFSB5y"
       /\ (found = true <->
           if_good (mk_ifstream (bytes_of_string "xFFSB5y") 0 false false) = true
           /\ exists o, first_signature (bytes_of_string "xFFSB5y") 0 = Some o)
       /\ (found = true ->
           if_good reader' = true
           /\ 0 <= if_pos reader'
           /\ occurs_at (bytes_of_string "xFFSB5y") (if_pos reader')
           /\ forall q, 0 <= q < if_pos reader' -> ~ occurs_at (bytes_of_string "xFFSB5y") q).
Proof.
  split; [cbn; lia|]. split; [reflexivity|].
  exact (FindFSB5Signature_decides (mk_ifstream (bytes_of_string "xFFSB5y") 0 false false)
           (Z.le_refl 0)).
Defined.

(** X15: a successful search does not consume the signature it found:
    searching again on the stream it returned succeeds at the same place.
    A caller that loops on the scanner has to move the stream past the
    signature itself. *)
Theorem FindFSB5Signature_repeats (reader reader' : ifstream) :
  0 <= if_pos reader ->
  FindFSB5Signature reader = Finished (true, reader') ->
  FindFSB5Signature reader' = Finished (true, reader').
Proof.
  intros Hpos Hrun. destruct (if_good reader) eqn:Hgood.
  - destruct reader as [data pos e f]. unfold if_good in Hgood. cbn in Hgood, Hpos.
    destruct e, f; try done.
    destruct (first_signature data pos) as [o|] eqn:Hf.
    + pose proof (first_signature_Some _ _ _ Hpos Hf) as (Hle & Hocc & _).
      rewrite (FindFSB5Signature_found _ _ _ Hpos Hf) in Hrun.
      injection Hrun as <-.
      apply FindFSB5Signature_found; [lia|]. apply first_signature_here; [lia | done].
    + destruct (decide (pos < Z.of_nat (length data))) as [Hlt|Hge].
      * by rewrite FindFSB5Signature_not_found in Hrun by (done || lia).
      * by rewrite FindFSB5Signature_at_end in Hrun by lia.
  - by rewrite FindFSB5Signature_not_good in Hrun.
Qed.

Lemma FindFSB5Signature_repeats_witness :
  FindFSB5Signature (mk_ifstream (bytes_of_string "xFFSB5y") 0 false false)
  = Finished (true, mk_ifstream (bytes_of_string "xFFSB5y") 2 false false)
  /\ FindFSB5Signature (mk_ifstream (bytes_of_string "xFFSB5y") 2 false false)
     = Finished (true, mk_ifstream (bytes_of_string "xFFSB5y") 2 false false).
Proof.
  split; [reflexivity|].
  exact (FindFSB5Signature_repeats (mk_ifstream (bytes_of_string "xFFSB5y") 0 false false)
           (mk_ifstream (bytes_of_string "xFFSB5y") 2 false false) (Z.le_refl 0) eq_refl).
Defined.

End ScannerUse.

(** ** Names of the temporary files *)

Section TempNames.
Import BANKtoFSBExtractor.

Lemma string_app_inv_tail (a b c : string) : a +:+ c = b +:+ c -> a = b.
Proof.
  intros H. apply (f_equal String.list_ascii_of_string) in H.
  assert (Happ : forall x y, String.list_ascii_of_string (x +:+ y)
                             = String.list_ascii_of_string x ++ String.list_ascii_of_string y).
  { induction x as [|d x IH]; intros y; [done|]. simpl. by rewrite IH. }
  rewrite !Happ in H. apply app_inv_tail in H.
  rewrite <- (string_of_list_ascii_of_string a), <- (string_of_list_ascii_of_string b).
  by rewrite H.
Qed.

(** X16: the sub-containers of one outer container get pairwise different
    file names: for counts from 1 upwards, different counts give different
    names. *)
Theorem tempFileName_of_distinct (baseBankFileName : string) (i j : Z) :
  1 <= i -> 1 <= j -> i <> j ->
  tempFileName_of baseBankFileName i <> tempFileName_of baseBankFileName j.
Proof.
  intros Hi Hj Hne. unfold tempFileName_of.
  destruct (1 <? i) eqn:Ei, (1 <? j) eqn:Ej;
    try apply Z.ltb_lt in Ei; try apply Z.ltb_lt in Ej;
    try apply Z.ltb_ge in Ei; try apply Z.ltb_ge in Ej; intros Heq.
  - apply (inj (String.append baseBankFileName)) in Heq.
    injection Heq as Heq. change (pretty i +:+ ".fsb" = pretty j +:+ ".fsb") in Heq.
    apply string_app_inv_tail in Heq.
    by apply (inj pretty) in Heq.
  - apply (inj (String.append baseBankFileName)) in Heq. discriminate Heq.
  - apply (inj (String.append baseBankFileName)) in Heq. discriminate Heq.
  - lia.
Qed.

Lemma tempFileName_of_distinct_witness :
  tempFileName_of "music" 1 = "music.fsb"
  /\ tempFileName_of "music" 12 = "music_12.fsb"
  /\ tempFileName_of "music" 1 <> tempFileName_of "music" 12.
Proof.
  split; [reflexivity|]. split; [reflexivity|].
  exact (tempFileName_of_distinct "music" 1 12 ltac:(lia) ltac:(lia) ltac:(lia)).
Defined.

End TempNames.

(** ** The extractor: what it leaves behind, and its edge cases *)

Section ExtractInvariants.
Import BANKtoFSBExtractor.
Context {os : OS}.

Lemma ExtractFSBs_while_frame (baseBankFileName tempPath : string) :
  forall (fuel : nat) (bankFileStream : ifstream) (fsbCount : Z)
         (tempFsbFiles : list string) (fs : gmap string (list byte))
         (tempFsbFiles' : list string) (fs' : gmap string (list byte)),
    Forall (fun p => is_Some (fs !! p)) tempFsbFiles ->
    ExtractFSBs_while fuel baseBankFileName tempPath bankFileStream fsbCount tempFsbFiles fs
    = Finished (tempFsbFiles', fs') ->
    Forall (fun p => is_Some (fs' !! p)) tempFsbFiles'
    /\ (forall q, is_Some (fs !! q) -> is_Some (fs' !! q))
    /\ (forall q, q ∉ tempFsbFiles' -> fs' !! q = fs !! q)
    /\ (forall q, q ∈ tempFsbFiles -> q ∈ tempFsbFiles').
Proof.
  induction fuel as [|fuel IH]; intros s count files fs files' fs' Hin; [done|].
  cbn [ExtractFSBs_while].
  destruct (FindFSB5Signature s) as [[[] s1]| |]; try done.
  2:{ intros [= <- <-]. by repeat split. }
  set (path := path_append tempPath (tempFileName_of baseBankFileName (sint32 (count + 1)))).
  destruct (ofstream_can_open path); cbn [negb].
  2:{ rewrite removelast_last. by apply IH. }
  destruct (read s1 4) as [sig s2].
  destruct (read_u32 s2) as [version s3].
  destruct (read_u32 s3) as [numSamples s4].
  destruct (read_u32 s4) as [[shdrSize|] s5]; destruct (read_u32 s5) as [[nameSize|] s6];
    destruct (read_u32 s6) as [[dataSize|] s7]; try done.
  destruct (read (seekg_cur s7 (-24)) _) as [got s8].
  rewrite insert_insert_eq.
  intros Hrun. apply IH in Hrun as (Hall & Hkeep & Hframe & Hsub).
  - assert (Hpath : path ∈ files') by (apply Hsub, elem_of_app; right; apply elem_of_cons; by left).
    split; [done|]. split; [|split].
    + intros q Hq. apply Hkeep. destruct (decide (q = path)) as [->|Hne].
      * rewrite lookup_insert_eq. eauto.
      * by rewrite lookup_insert_ne.
    + intros q Hq. rewrite (Hframe q Hq). apply lookup_insert_ne.
      by intros <-.
    + intros q Hq. apply Hsub, elem_of_app. by left.
  - apply Forall_app. split.
    + eapply Forall_impl; [exact Hin|]. intros p Hp. cbn beta.
      destruct (decide (p = path)) as [->|Hne].
      * rewrite lookup_insert_eq. eauto.
      * by rewrite lookup_insert_ne.
    + constructor; [|constructor]. rewrite lookup_insert_eq. eauto.
Qed.

(** X17: what extraction leaves behind.  Whenever it returns, every path
    in the returned list names a file that exists, every file that existed
    before still exists, and every file that is not in the returned list
    has the content it had before: extraction creates or overwrites the
    files it returns and touches nothing else. *)
Theorem ExtractFSBsFromBankFile_frame (fuel : nat) (bankFilePath : string)
    (fs fs' : gmap string (list byte)) (tempFsbFiles : list string) :
  ExtractFSBsFromBankFile fuel bankFilePath fs = Finished (tempFsbFiles, fs') ->
  Forall (fun p => is_Some (fs' !! p)) tempFsbFiles
  /\ (forall q, is_Some (fs !! q) -> is_Some (fs' !! q))
  /\ (forall q, q ∉ tempFsbFiles -> fs' !! q = fs !! q).
Proof.
  unfold ExtractFSBsFromBankFile. destruct (fs !! bankFilePath) as [content|].
  - intros Hrun. apply ExtractFSBs_while_frame in Hrun as (H1 & H2 & H3 & _); done.
  - intros [= <- <-]. by repeat split.
Qed.

(** The scanner finds again what it has just found. *)
Lemma FindFSB5Signature_found_again (data : list byte) (pos o : Z) :
  0 <= pos -> first_signature data pos = Some o ->
  0 <= o /\ first_signature data o = Some o.
Proof.
  intros Hpos Hf. pose proof (first_signature_Some _ _ _ Hpos Hf) as (Hle & Hocc & _).
  split; [lia|]. apply first_signature_here; [lia | done].
Qed.

Lemma ExtractFSBs_while_unopenable (baseBankFileName tempPath : string) (data : list byte) :
  (forall p, ofstream_can_open p = false) ->
  forall (fuel : nat) (pos o fsbCount : Z) (tempFsbFiles : list string)
         (fs : gmap string (list byte)),
    0 <= pos -> first_signature data pos = Some o ->
    ExtractFSBs_while fuel baseBankFileName tempPath (mk_ifstream data pos false false)
      fsbCount tempFsbFiles fs = OutOfFuel.
Proof.
  intros Hno. induction fuel as [|fuel IH]; intros pos o count files fs Hpos Hf; [done|].
  cbn [ExtractFSBs_while]. rewrite (FindFSB5Signature_found _ _ _ Hpos Hf).
  rewrite Hno. cbn [negb]. rewrite removelast_last.
  destruct (FindFSB5Signature_found_again _ _ _ Hpos Hf) as [Ho Hf'].
  by apply (IH o o).
Qed.

(** X18: when the outer container holds a signature and no temporary file
    can be created, extraction never returns.  After a failed attempt the
    loop [continue]s with the stream still at the signature, the scanner
    finds the same signature again, and only the counter in the file name
    has changed. *)
Theorem ExtractFSBsFromBankFile_unopenable_never_returns (bankFilePath : string)
    (fs : gmap string (list byte)) (data : list byte) (o : Z) :
  (forall p, ofstream_can_open p = false) ->
  fs !! bankFilePath = Some data ->
  first_signature data 0 = Some o ->
  forall fuel : nat, ExtractFSBsFromBankFile fuel bankFilePath fs = OutOfFuel.
Proof.
  intros Hno Hbank Hf fuel. unfold ExtractFSBsFromBankFile. rewrite Hbank.
  by apply (ExtractFSBs_while_unopenable _ _ data Hno fuel 0 o).
Qed.

Lemma ExtractFSBs_while_header (fuel : nat) (baseBankFileName tempPath : string)
    (data : list byte) (pos o fsbCount : Z) (tempFsbFiles : list string)
    (fs : gmap string (list byte)) :
  0 <= pos ->
  first_signature data pos = Some o ->
  o + 24 <= Z.of_nat (length data) ->
  ofstream_can_open
    (path_append tempPath (tempFileName_of baseBankFileName (sint32 (fsbCount + 1)))) = true ->
  ExtractFSBs_while (S fuel) baseBankFileName tempPath
    (mk_ifstream data pos false false) fsbCount tempFsbFiles fs
  = let path :=
      path_append tempPath (tempFileName_of baseBankFileName (sint32 (fsbCount + 1))) in
    let fsbFileSize := wrap 32 (declared_length data o) in
    let '(got, bankFileStream) := read (mk_ifstream data o false false) fsbFileSize in
    ExtractFSBs_while fuel baseBankFileName tempPath bankFileStream (sint32 (fsbCount + 1))
      (tempFsbFiles ++ [path])
      (<[path := got ++ replicate (Z.to_nat fsbFileSize - length got) Byte.x00]> fs).
Proof.
  intros Hpos Hf Hin Hopen.
  pose proof (first_signature_Some _ _ _ Hpos Hf) as (Hle & _ & _).
  cbn [ExtractFSBs_while]. rewrite (FindFSB5Signature_found _ _ _ Hpos Hf).
  rewrite Hopen. cbn [negb].
  rewrite read_good_full by lia.
  rewrite read_u32_good by lia. replace (o + 4 + 4) with (o + 8) by lia.
  rewrite read_u32_good by lia. replace (o + 8 + 4) with (o + 12) by lia.
  rewrite read_u32_good by lia. replace (o + 12 + 4) with (o + 16) by lia.
  rewrite read_u32_good by lia. replace (o + 16 + 4) with (o + 20) by lia.
  rewrite read_u32_good by lia. replace (o + 20 + 4) with (o + 24) by lia.
  fold (declared_length data o).
  rewrite seekg_cur_good by lia. replace (o + 24 + -24) with o by lia.
  cbn zeta.
  destruct (read (mk_ifstream data o false false) (wrap 32 (declared_length data o)))
    as [got s']. by rewrite insert_insert_eq.
Qed.

Lemma ExtractFSBs_while_zero_length (baseBankFileName tempPath : string) (data : list byte) :
  (forall p, ofstream_can_open p = true) ->
  forall (fuel : nat) (pos o fsbCount : Z) (tempFsbFiles : list string)
         (fs : gmap string (list byte)),
    0 <= pos -> first_signature data pos = Some o ->
    o + 24 <= Z.of_nat (length data) ->
    wrap 32 (declared_length data o) = 0 ->
    ExtractFSBs_while fuel baseBankFileName tempPath (mk_ifstream data pos false false)
      fsbCount tempFsbFiles fs = OutOfFuel.
Proof.
  intros Hyes. induction fuel as [|fuel IH]; intros pos o count files fs Hpos Hf Hin Hzero;
    [done|].
  rewrite (ExtractFSBs_while_header _ _ _ _ _ o) by done.
  cbn zeta. rewrite Hzero.
  destruct (FindFSB5Signature_found_again _ _ _ Hpos Hf) as [Ho Hf'].
  rewrite read_good_full by lia. rewrite Z.add_0_r.
  by apply (IH o o).
Qed.

(** X19: when the three sizes in a sub-container's header add up, with
    0x3C, to a multiple of 2^32, the 32-bit length computed from them is 0:
    nothing is copied, the stream stays at the signature, and the scanner
    finds the same signature again.  Extraction then never returns (it
    creates one empty file after another). *)
Theorem ExtractFSBsFromBankFile_zero_length_never_returns (bankFilePath : string)
    (fs : gmap string (list byte)) (data : list byte) (o : Z) :
  (forall p, ofstream_can_open p = true) ->
  fs !! bankFilePath = Some data ->
  first_signature data 0 = Some o ->
  o + 24 <= Z.of_nat (length data) ->
  wrap 32 (declared_length data o) = 0 ->
  forall fuel : nat, ExtractFSBsFromBankFile fuel bankFilePath fs = OutOfFuel.
Proof.
  intros Hyes Hbank Hf Hin Hzero fuel. unfold ExtractFSBsFromBankFile. rewrite Hbank.
  by apply (ExtractFSBs_while_zero_length _ _ data Hyes fuel 0 o).
Qed.

(** X20: when the outer container ends before the length that a
    sub-container's header declares, the temporary file still gets the
    declared length: the bytes that are there, followed by zero bytes.
    The short read leaves the stream failed, so the search ends and this
    is the last sub-container extracted. *)
Theorem ExtractFSBsFromBankFile_truncated_zero_filled (fuel : nat) (bankFilePath : string)
    (fs : gmap string (list byte)) (data : list byte) (o : Z) :
  fs !! bankFilePath = Some data ->
  first_signature data 0 = Some o ->
  o + 24 <= Z.of_nat (length data) ->
  Z.of_nat (length data) < o + wrap 32 (declared_length data o) ->
  ofstream_can_open (path_append temp_directory_path (stem bankFilePath +:+ ".fsb")) = true ->
  let content :=
    drop (Z.to_nat o) data
    ++ replicate (Z.to_nat (o + wrap 32 (declared_length data o) - Z.of_nat (length data)))
         Byte.x00 in
  ExtractFSBsFromBankFile (S (S fuel)) bankFilePath fs
  = Finished ([path_append temp_directory_path (stem bankFilePath +:+ ".fsb")],
              <[path_append temp_directory_path (stem bankFilePath +:+ ".fsb") := content]> fs)
  /\ Z.of_nat (length content) = wrap 32 (declared_length data o).
Proof.
  intros Hbank Hf Hin Hcut Hopen content.
  pose proof (first_signature_Some data 0 o (Z.le_refl 0) Hf) as (Hle & _ & _).
  split.
  - unfold ExtractFSBsFromBankFile. rewrite Hbank.
    rewrite (ExtractFSBs_while_header _ _ _ _ _ o) by done.
    cbn zeta. rewrite read_good_short by lia.
    cbn [ExtractFSBs_while]. rewrite FindFSB5Signature_not_good by done.
    assert (Hn : (Z.to_nat (wrap 32 (declared_length data o))
                  - length (drop (Z.to_nat o) data))%nat
                 = Z.to_nat (o + wrap 32 (declared_length data o) - Z.of_nat (length data))).
    { rewrite length_drop. lia. }
    rewrite Hn. reflexivity.
  - unfold content. rewrite length_app, length_drop, length_replicate. lia.
Qed.

(** One read of a 32-bit field: it yields a value only on a good stream
    with four bytes left, and then leaves the stream good and four bytes
    further; when it yields none, it leaves the stream failed. *)
Lemma read_u32_chain (s s' : ifstream) (r : option Z) :
  0 <= if_pos s -> read_u32 s = (r, s') ->
  0 <= if_pos s'
  /\ (is_Some r ->
      if_good s = true /\ if_good s' = true
      /\ if_pos s' = if_pos s + 4 /\ if_pos s' <= Z.of_nat (length (if_data s))
      /\ if_data s' = if_data s)
  /\ (r = None -> if_good s' = false).
Proof.
  intros Hpos. destruct s as [data pos e f]. cbn [if_data if_pos] in *.
  destruct e, f; try (intros [= <- <-]; cbn; by (split; [lia | split; [intros [? [=]] | done]])).
  destruct (decide (pos + 4 <= Z.of_nat (length data))) as [Hfit|Hshort].
  - rewrite read_u32_good by lia. intros [= <- <-]. cbn.
    split; [lia|]. split; [|done]. intros _. repeat split; lia.
  - unfold read_u32, read. cbn. change (Z.to_nat 4) with 4%nat.
    set (got := take 4 (drop (Z.to_nat pos) data)).
    assert (Hgot : Z.of_nat (length got) < 4).
    { unfold got. rewrite length_take, length_drop. lia. }
    rewrite (proj2 (Z.ltb_lt _ _) Hgot).
    rewrite (proj2 (Z.eqb_neq (Z.of_nat (length got)) 4)) by lia.
    intros [= <- <-]. cbn. split; [lia|]. split; [intros [? [=]] | done].
Qed.

(** X21: when the outer container ends less than 24 bytes after a
    signature, the reads of the header fields stop short, the size
    variables are left uninitialised, and the length computed from them is
    indeterminate. *)
Theorem ExtractFSBsFromBankFile_truncated_header (fuel : nat) (bankFilePath : string)
    (fs : gmap string (list byte)) (data : list byte) (o : Z) :
  fs !! bankFilePath = Some data ->
  first_signature data 0 = Some o ->
  Z.of_nat (length data) < o + 24 ->
  ofstream_can_open (path_append temp_directory_path (stem bankFilePath +:+ ".fsb")) = true ->
  ExtractFSBsFromBankFile (S fuel) bankFilePath fs = Undefined.
Proof.
  intros Hbank Hf Hcut Hopen.
  pose proof (first_signature_Some data 0 o (Z.le_refl 0) Hf) as (Hle & _ & _).
  pose proof (first_signature_in_range data 0 o (Z.le_refl 0) Hf) as Hsig.
  unfold ExtractFSBsFromBankFile. rewrite Hbank.
  cbn [ExtractFSBs_while]. rewrite (FindFSB5Signature_found _ _ _ (Z.le_refl 0) Hf).
  change (sint32 (0 + 1)) with 1. change (tempFileName_of (stem bankFilePath) 1)
    with (stem bankFilePath +:+ ".fsb").
  rewrite Hopen. cbn [negb].
  rewrite read_good_full by lia.
  destruct (read_u32 (mk_ifstream data (o + 4) false false)) as [r1 s3] eqn:E1.
  destruct (read_u32 s3) as [r2 s4] eqn:E2.
  destruct (read_u32 s4) as [r3 s5] eqn:E3.
  destruct (read_u32 s5) as [r4 s6] eqn:E4.
  destruct (read_u32 s6) as [r5 s7] eqn:E5.
  apply read_u32_chain in E1 as (P1 & S1 & N1); [|cbn; lia].
  apply read_u32_chain in E2 as (P2 & S2 & N2); [|done].
  apply read_u32_chain in E3 as (P3 & S3 & N3); [|done].
  apply read_u32_chain in E4 as (P4 & S4 & N4); [|done].
  apply read_u32_chain in E5 as (P5 & S5 & N5); [|done].
  destruct r3 as [v3|], r4 as [v4|], r5 as [v5|]; try done.
  exfalso.
  destruct (S5 ltac:(eauto)) as (G6 & _ & Q5 & B5 & D5).
  destruct (S4 ltac:(eauto)) as (G5 & _ & Q4 & _ & D4).
  destruct (S3 ltac:(eauto)) as (G4 & _ & Q3 & _ & D3).
  destruct r2 as [v2|]; [|by rewrite N2 in G4].
  destruct (S2 ltac:(eauto)) as (G3 & _ & Q2 & _ & D2).
  destruct r1 as [v1|]; [|by rewrite N1 in G3].
  destruct (S1 ltac:(eauto)) as (_ & _ & Q1 & _ & D1).
  cbn [if_pos if_data] in *. rewrite D4, D3, D2, D1 in B5. lia.
Qed.

End ExtractInvariants.

(** ** ProcessSubSound and the files around it *)

Section WorldFacts.

Lemma extends_refl (w : World) : extends w w.
Proof. split; [exists []; by rewrite app_nil_r | done]. Qed.

Lemma extends_trans (w1 w2 w3 : World) : extends w1 w2 -> extends w2 w3 -> extends w1 w3.
Proof.
  intros [(e1 & H1 & F1) K1] [(e2 & H2 & F2) K2]. split.
  - exists (e1 ++ e2). rewrite H2, H1, <- app_assoc. split; [done|]. by apply Forall_app.
  - intros q Hq. by apply K2, K1.
Qed.

Lemma extends_emit (e : Event) (w : World) : is_FsRemove e = false -> extends w (emit e w).
Proof. intros He. split; [exists [e]; by repeat constructor | done]. Qed.

Lemma extends_store (path : string) (content : list byte) (w : World) :
  extends w (store path content w).
Proof.
  split; [exists []; by rewrite app_nil_r|]. intros q Hq. cbn [store w_fs].
  destruct (decide (q = path)) as [->|Hne].
  - rewrite lookup_insert_eq. eauto.
  - by rewrite lookup_insert_ne.
Qed.

End WorldFacts.

Ltac extends_tac :=
  repeat first
    [ apply extends_refl
    | eapply extends_trans; [|apply extends_emit; reflexivity]
    | eapply extends_trans; [|apply extends_store] ].

Section ProcessSubSoundEffects.
Import AudioProcessor.
Context {engine : FMOD} {os : OS}.
Variable substitute : ascii -> string.

(** Whatever its outcome, [ProcessSubSound] removes nothing, and the only
    file it creates or changes is one [.wav] file in the output
    directory. *)
Lemma ProcessSubSound_effects (fuel : nat) (subSound : Sound)
    (subSoundIndex totalSubSounds : Z) (baseFileName outputDirectoryPath : string)
    (w w' : World) (r : result unit) :
  ProcessSubSound substitute fuel subSound subSoundIndex totalSubSounds baseFileName
    outputDirectoryPath w = Finished (r, w') ->
  extends w w'
  /\ exists outputFileName,
       forall q, q <> path_append outputDirectoryPath (outputFileName +:+ ".wav") ->
                 w_fs w' !! q = w_fs w !! q.
Proof.
  unfold ProcessSubSound.
  destruct (seekData subSound 0) as [r0 s1].
  destruct (negb (is_FMOD_OK r0)).
  { intros [= <- <-]. split; [apply extends_refl | by exists EmptyString]. }
  destruct (GetSoundInfo s1) as [[soundInfo|what]| |]; try done.
  2:{ intros [= <- <-]. split; [apply extends_refl | by exists EmptyString]. }
  set (name := outputFileName_of substitute soundInfo baseFileName subSoundIndex).
  set (path := path_append outputDirectoryPath (name +:+ ".wav")).
  destruct (ofstream_can_open path); cbn [negb].
  2:{ intros [= <- <-]. split; [extends_tac | by exists name]. }
  unfold WriteWAVHeader. cbn [of_is_open negb of_write of_written app].
  destruct (transcribe fuel (format soundInfo) s1 _ (soundLengthBytes soundInfo) 0)
    as [[[[[writeSuccess s2] wavFile'] c'] total']| |]; try done.
  destruct writeSuccess; cbn [negb]; intros [= <- <-];
    (split; [extends_tac | exists name; intros q Hq; cbn [emit store w_fs];
                           by rewrite lookup_insert_ne]).
Qed.

Lemma chunk_while_failure_total {S : Type}
    (rd : S -> Z -> FMOD_RESULT * list byte * S)
    (put : list byte -> ofstream -> ofstream) (L : Z) :
  forall fuel s wav c total s' wav' c' total',
    chunk_while rd put fuel s wav L c total = Finished (false, s', wav', c', total') ->
    total' < L.
Proof.
  induction fuel as [|fuel IH]; intros *; [done|].
  cbn [chunk_while]. destruct (total <? L) eqn:Hlt; [|done].
  destruct (rd s (bytesToRead_of L total)) as [[r buf] s1].
  destruct (negb (is_FMOD_OK r)); [|apply IH].
  intros [= _ _ _ <-]. by apply Z.ltb_lt.
Qed.

(** What [transcribe] has appended when it fails: fewer bytes than the
    declared length. *)
Lemma transcribe_failure_written (fuel : nat) (fmt : FMOD_SOUND_FORMAT) (subSound : Sound)
    (wavFile : ofstream) (L : Z) (s' : Sound) (wavFile' : ofstream) (c' total' : Z) :
  readData_bounded readData -> 0 <= L < 2 ^ 32 -> of_is_open wavFile = true ->
  transcribe fuel fmt subSound wavFile L 0 = Finished (false, s', wavFile', c', total') ->
  exists data,
    of_written wavFile' = of_written wavFile ++ data /\ Z.of_nat (length data) < L.
Proof.
  intros Hb HL Hopen Hrun.
  assert (Hany : forall (put : list byte -> ofstream -> ofstream) (g : list byte -> list byte),
    (forall buf w, of_is_open w = true -> Z.of_nat (length buf) <= 4096 ->
                   put buf w = mk_ofstream true (of_written w ++ g buf)) ->
    (forall buf, (length (g buf) <= length buf)%nat) ->
    chunk_while readData put fuel subSound wavFile L 0 0
    = Finished (false, s', wavFile', c', total') ->
    exists data, of_written wavFile' = of_written wavFile ++ data
                 /\ Z.of_nat (length data) < L).
  { intros put g Hput Hg Hr.
    pose proof (chunk_while_failure_total _ _ _ _ _ _ _ _ _ _ _ _ Hr) as Hlt.
    destruct (chunk_while_written readData put g (fun total k => Z.of_nat k <= total) L Hput
                (Z.le_refl 0))
      with (fuel := fuel) (s := subSound) (wav := wavFile) (c := 0) (ok := false) (s' := s')
           (wav' := wavFile') (c' := c') (total' := total')
      as (data & Hw & HP & _); try done.
    - intros total k s n Hk. specialize (Hg (readData s n).1.2). lia.
    - exists data. split; [done | lia]. }
  destruct fmt; cbn [transcribe] in Hrun;
    unfold WriteAudioDataChunk, WritePCM24DataChunk, WritePCMFloatDataChunk in Hrun;
    rewrite ?WriteAudioDataChunk_while_eq, ?WritePCM24DataChunk_while_eq,
      ?WritePCMFloatDataChunk_while_eq in Hrun;
    try (apply (Hany put_raw (fun buf => buf) put_raw_open); done).
  - apply (Hany put_pcm24 complete_samples put_pcm24_open); [|done].
    intros buf. rewrite complete_samples_length.
    pose proof (Nat.Div0.div_mod (length buf) 3). lia.
  - apply (Hany put_float _ put_float_open'); [|done].
    intros buf. by rewrite length_clamp_for.
Qed.

(** X23: when transcription fails after the output file was opened (a
    read of the engine fails), the exception leaves the output file
    behind: it holds the complete 44-byte header, whose data-size field is
    the stream's full reported length, followed by fewer bytes than
    that. *)
Theorem ProcessSubSound_failure_leaves_partial_file (fuel : nat) (subSound : Sound)
    (subSoundIndex totalSubSounds : Z) (baseFileName outputDirectoryPath : string)
    (w w' : World) :
  readData_bounded readData ->
  ProcessSubSound substitute fuel subSound subSoundIndex totalSubSounds baseFileName
    outputDirectoryPath w
  = Finished (Threw "Failed to write audio data to WAV file", w') ->
  exists (soundInfo : SoundInfo) (fullOutputPath : string) (header data : list byte),
    GetSoundInfo (seekData subSound 0).2 = Finished (Ok soundInfo)
    /\ w_fs w' !! fullOutputPath = Some (header ++ data)
    /\ length header = 44%nat
    /\ hdr_data_size header = soundLengthBytes soundInfo
    /\ Z.of_nat (length data) < soundLengthBytes soundInfo.
Proof.
  intros Hb. unfold ProcessSubSound.
  destruct (seekData subSound 0) as [r s1]. cbn [snd].
  destruct (is_FMOD_OK r); cbn [negb]; [|done].
  destruct (GetSoundInfo s1) as [[soundInfo|what]| |] eqn:Einfo; try done.
  2:{ intros [= -> _]. apply GetSoundInfo_throws in Einfo.
      repeat (apply elem_of_cons in Einfo as [Einfo|Einfo]; [discriminate Einfo|]).
      by apply elem_of_nil in Einfo. }
  pose proof (GetSoundInfo_length_range _ _ Einfo) as HL.
  destruct (ofstream_can_open _); cbn [negb]; [|done].
  unfold WriteWAVHeader. cbn [of_is_open negb of_write of_written app].
  destruct (transcribe fuel (format soundInfo) s1 _ (soundLengthBytes soundInfo) 0)
    as [[[[[writeSuccess s2] wavFile'] c'] total']| |] eqn:Etr; try done.
  destruct writeSuccess; cbn [negb]; [done|].
  intros [= <-].
  apply transcribe_failure_written in Etr as (data & Hw & Hlen); [|done..].
  cbn [of_written] in Hw.
  eexists soundInfo, _, _, data. split; [done|]. split.
  { cbn [emit store w_fs]. rewrite lookup_insert_eq. by rewrite Hw. }
  split; [apply length_WAVHeader_bytes|]. split; [|done].
  rewrite hdr_data_size_eq. by apply Z.mod_small.
Qed.

End ProcessSubSoundEffects.

(** ** main: what a run can and cannot do *)

Section MainEffects.
Context {engine : FMOD} {os : OS}.
Variable substitute : ascii -> string.

Lemma subSounds_for_extends (fuel : nat) (sound : Sound) (baseFileName outputDirectory : string)
    (numSubSounds : Z) :
  forall (n : nat) (i : Z) (flag : bool) (w : World) (ok : bool) (w' : World),
    subSounds_for substitute fuel n i numSubSounds sound baseFileName outputDirectory flag w
    = Finished (ok, w') ->
    extends w w'.
Proof.
  induction n as [|n IH]; intros i flag w ok w'.
  - intros [= _ <-]. apply extends_refl.
  - cbn [subSounds_for]. destruct (getSubSound sound i) as [r subSound].
    destruct (negb (is_FMOD_OK r)).
    + intros Hrun%IH. eapply extends_trans; [|exact Hrun]. extends_tac.
    + destruct (ProcessSubSound substitute fuel subSound i numSubSounds baseFileName
                  outputDirectory w) as [[[[]|what] w1]| |] eqn:E; try done;
        apply ProcessSubSound_effects in E as [E _]; intros Hrun%IH.
      * by eapply extends_trans.
      * eapply extends_trans; [exact E|]. eapply extends_trans; [|exact Hrun]. extends_tac.
Qed.

Lemma containers_for_extends (fuel : nat) (system : System) (outdir : string) :
  forall (filesToProcess : list string) (v l : bool) (w : World)
         (r : result (bool * bool)) (w' : World),
    containers_for substitute fuel system filesToProcess outdir v l w = Finished (r, w') ->
    extends w w'.
Proof.
  induction filesToProcess as [|cur rest IH]; intros v l w r w'.
  - intros [= _ <-]. apply extends_refl.
  - cbn [containers_for].
    destruct (createSound system cur _) as [r1 sound].
    destruct (negb (is_FMOD_OK r1)); [intros [= _ <-]; extends_tac|].
    destruct (getNumSubSounds sound) as [r2 n].
    destruct (negb (is_FMOD_OK r2)); [intros [= _ <-]; extends_tac|].
    destruct (0 <? n).
    2:{ intros Hrun%IH. eapply extends_trans; [|exact Hrun]. extends_tac. }
    destruct (create_directory _) as [created ec].
    destruct (negb created && ec), ec, v;
      repeat match goal with
             | |- context [if ?b then _ else _] => destruct b
             end;
      (destruct (subSounds_for _ _ _ _ _ _ _ _ _ _) as [[ok w2]| |] eqn:E; [|done|done];
       apply subSounds_for_extends in E; intros Hrun%IH;
       eapply extends_trans; [|exact Hrun]; eapply extends_trans; [|exact E]; extends_tac).
Qed.

Lemma parse_options_no_help (inputFilePath : string) :
  forall (n : nat) (args : list string) (o o' : options),
    (length args <= n)%nat ->
    existsb is_help args = false ->
    parse_options args inputFilePath o = Some o' ->
    help_option_used o' = help_option_used o.
Proof.
  induction n as [|n IH]; intros args o o' Hlen Hno.
  - destruct args; [|simpl in Hlen; lia]. by intros [= <-].
  - destruct args as [|arg rest]; [by intros [= <-]|].
    cbn [existsb] in Hno. apply orb_false_iff in Hno as [Harg Hrest].
    cbn [length] in Hlen. cbn [parse_options].
    destruct (bool_decide (arg = "-res")).
    { intros H%IH; [done | lia | done]. }
    destruct (bool_decide (arg = "-exe")).
    { intros H%IH; [done | lia | done]. }
    destruct (bool_decide (arg = "-o")).
    { destruct rest as [|dir rest]; [done|].
      cbn [existsb] in Hrest. apply orb_false_iff in Hrest as [_ Hrest].
      cbn [length] in Hlen. intros H%IH; [done | lia | done]. }
    destruct (bool_decide (arg = "-v")).
    { intros H%IH; [done | lia | done]. }
    by rewrite Harg.
Qed.

Lemma reaches_try_no_help (argv : list string) :
  reaches_try argv = true -> existsb is_help (drop 2 argv) = false.
Proof.
  unfold reaches_try. intros [[H1 H2]%andb_true_iff H3]%andb_true_iff.
  destruct argv as [|a0 [|a1 [|a2 rest]]]; try done.
  cbn [length drop] in *.
  apply negb_true_iff in H3.
  assert (Hlt : (2 <? Z.of_nat (S (S (S (length rest))))) = true) by (apply Z.ltb_lt; lia).
  rewrite Hlt in H3. cbn [andb existsb] in H3.
  by apply orb_false_iff in H3 as [_ H3].
Qed.

(** X25: inside the [try] block the help flag is never set, because a
    command line that contains a help option has already been answered
    before the block is entered.  So the block's own handling of the help
    option is never used, and the only way the block ends the run early
    with status 0 is an outer container in which no sub-container was
    found. *)
Theorem main_try_early_success (fuel : nat) (argv : list string) (w w' : World) :
  reaches_try argv = true ->
  (forall o o', parse_options (drop 2 argv) (default EmptyString (argv !! 1%nat)) o = Some o' ->
                help_option_used o' = help_option_used o)
  /\ (main_try substitute fuel argv w = Finished (TryReturn 0, w') ->
      is_bank_path (default EmptyString (argv !! 1%nat)) = true
      /\ exists fs',
           BANKtoFSBExtractor.ExtractFSBsFromBankFile fuel
             (default EmptyString (argv !! 1%nat)) (w_fs w) = Finished ([], fs')
           /\ w' = emit (Cout "No FSB files found inside bank file")
                     (mk_World fs' (w_trace w))).
Proof.
  intros Hargs. pose proof (reaches_try_no_help argv Hargs) as Hno.
  split.
  { intros o o'. by apply (parse_options_no_help _ (length (drop 2 argv))). }
  unfold main_try. destruct FMODSystem_ctor as [fmodSystem|what]; [|done].
  set (input := default EmptyString (argv !! 1%nat)).
  destruct (negb (bool_decide (is_Some (w_fs w !! input)))); [done|].
  destruct (parse_options (drop 2 argv) input _) as [o|] eqn:Hparse; [|done].
  apply (parse_options_no_help _ (length (drop 2 argv))) in Hparse; [|done..].
  cbn [help_option_used] in Hparse. rewrite Hparse. rewrite andb_true_r.
  destruct (1 <? option_count o); [done|].
  destruct (is_bank_path input).
  - destruct (BANKtoFSBExtractor.ExtractFSBsFromBankFile fuel input (w_fs w))
      as [[files fs']| |]; try done.
    destruct (bool_decide (files = [])) eqn:Hnil.
    + apply bool_decide_eq_true in Hnil as ->. intros [= <-]. split; [done|]. by exists fs'.
    + by destruct (containers_for _ _ _ _ _ _ _ _) as [[[[]|] ?]| |].
  - by destruct (containers_for _ _ _ _ _ _ _ _) as [[[[]|] ?]| |].
Qed.

Lemma delete_temp_files_removed (tempFilesToDelete : list string) :
  forall (w : World),
  exists removed,
    w_trace (delete_temp_files tempFilesToDelete w) = w_trace w ++ map FsRemove removed
    /\ forall f, f ∈ removed -> f ∈ tempFilesToDelete.
Proof.
  induction tempFilesToDelete as [|t rest IH]; intros w.
  - exists []. cbn. rewrite app_nil_r. split; [done|]. by intros f Hf%elem_of_nil.
  - cbn [delete_temp_files]. destruct (bool_decide (is_Some (w_fs w !! t))).
    + destruct (IH (emit (FsRemove t) (mk_World (delete t (w_fs w)) (w_trace w))))
        as (removed & Hr & Hsub).
      exists (t :: removed). rewrite Hr. cbn. rewrite <- app_assoc. split; [done|].
      intros f [->|Hf]%elem_of_cons; apply elem_of_cons; [by left | right; by apply Hsub].
    + destruct (IH w) as (removed & Hr & Hsub). exists removed. split; [done|].
      intros f Hf. apply elem_of_cons. right. by apply Hsub.
Qed.

(** What the [try] block leaves: nothing has been removed, and the list of
    files to delete is empty or is the list the extractor returned. *)
Lemma main_try_extends (fuel : nat) (argv : list string) (w w' : World) (e : try_exit) :
  main_try substitute fuel argv w = Finished (e, w') ->
  extends w w'
  /\ forall verbose logOpen tempFilesToDelete,
       e = TryDone verbose logOpen tempFilesToDelete ->
       tempFilesToDelete = []
       \/ (is_bank_path (default EmptyString (argv !! 1%nat)) = true
           /\ exists fs',
                BANKtoFSBExtractor.ExtractFSBsFromBankFile fuel
                  (default EmptyString (argv !! 1%nat)) (w_fs w)
                = Finished (tempFilesToDelete, fs')).
Proof.
  unfold main_try. destruct FMODSystem_ctor as [fmodSystem|what].
  2:{ intros [= <- <-]. split; [|done]. split; [|done].
      exists FMODSystem_ctor_cerr. split; [done|].
      destruct FMODSystem_ctor_prints as [[_ ->]|[_ ->]]; by repeat constructor. }
  set (input := default EmptyString (argv !! 1%nat)).
  destruct (negb (bool_decide (is_Some (w_fs w !! input)))).
  { intros [= <- <-]. split; [extends_tac | done]. }
  destruct (parse_options (drop 2 argv) input _) as [o|].
  2:{ intros [= <- <-]. split; [extends_tac | done]. }
  destruct ((1 <? option_count o) && negb (help_option_used o)).
  { intros [= <- <-]. split; [extends_tac | done]. }
  destruct (help_option_used o).
  { destruct (0 <? option_count o); intros [= <- <-]; (split; [extends_tac | done]). }
  destruct (is_bank_path input).
  - destruct (BANKtoFSBExtractor.ExtractFSBsFromBankFile fuel input (w_fs w))
      as [[files fs']| |] eqn:Hex; try done.
    assert (Hfs : extends w (mk_World fs' (w_trace w))).
    { split; [exists []; by rewrite app_nil_r|]. cbn [w_fs].
      unfold BANKtoFSBExtractor.ExtractFSBsFromBankFile in Hex.
      destruct (w_fs w !! input).
      - by apply ExtractFSBs_while_frame in Hex as (_ & Hkeep & _ & _).
      - by injection Hex as _ <-. }
    destruct (bool_decide (files = [])).
    { intros [= <- <-]. split; [|done].
      eapply extends_trans; [exact Hfs | extends_tac]. }
    destruct (containers_for _ _ _ _ _ _ _ _) as [[[[v l]|what] w1]| |] eqn:Hc; try done;
      apply containers_for_extends in Hc; intros [= <- <-];
      (split; [by eapply extends_trans|]); [|done].
    intros ? ? ? [= _ _ <-]. right. split; [done|]. by exists fs'.
  - destruct (containers_for _ _ _ _ _ _ _ _) as [[[[v l]|what] w1]| |] eqn:Hc; try done;
      apply containers_for_extends in Hc; intros [= <- <-]; (split; [done|]); [|done].
    intros ? ? ? [= _ _ <-]. by left.
Qed.

(** X27: a run deletes nothing but its own temporary files.  If a file
    that existed before the run does not exist after it, the input was an
    outer container and the file is one of the paths that the extractor
    returned for it (so it was overwritten by the extractor before it was
    removed). *)
Theorem main_deletes_only_temp_files (fuel : nat) (argv : list string) (w w' : World)
    (code : Z) (p : string) :
  main substitute fuel argv w = Finished (code, w') ->
  is_Some (w_fs w !! p) ->
  w_fs w' !! p = None ->
  is_bank_path (default EmptyString (argv !! 1%nat)) = true
  /\ exists tempFsbFiles fs',
       BANKtoFSBExtractor.ExtractFSBsFromBankFile fuel
         (default EmptyString (argv !! 1%nat)) (w_fs w) = Finished (tempFsbFiles, fs')
       /\ p ∈ tempFsbFiles.
Proof.
  intros Hrun Hbefore Hafter. unfold main in Hrun.
  assert (Hcontra : forall w1, extends w w1 -> w_fs w' = w_fs w1 -> False).
  { intros w1 [_ Hkeep] Heq. apply Hkeep in Hbefore. rewrite <- Heq, Hafter in Hbefore.
    by destruct Hbefore. }
  destruct (Z.of_nat (length argv) <? 2).
  { injection Hrun as _ <-. exfalso. by apply (Hcontra w (extends_refl w)). }
  destruct ((Z.of_nat (length argv) =? 2) && is_help _).
  { injection Hrun as _ <-. exfalso. by apply (Hcontra w (extends_refl w)). }
  destruct ((2 <? Z.of_nat (length argv)) && existsb is_help _).
  { injection Hrun as _ <-. exfalso. by apply (Hcontra w (extends_refl w)). }
  destruct (main_try substitute fuel argv w) as [[e w1]| |] eqn:Htry; try done.
  apply main_try_extends in Htry as [Hext Hdone].
  destruct e as [c|verbose logOpen temps|what].
  - injection Hrun as _ <-. exfalso. by apply (Hcontra w1).
  - injection Hrun as _ <-.
    rewrite delete_temp_files_fs in Hafter.
    destruct (decide (p ∈ temps)) as [Hin|Hnin].
    + destruct (Hdone _ _ _ eq_refl) as [->|(Hbank & fs' & Hex)].
      * by apply elem_of_nil in Hin.
      * split; [done|]. by exists temps, fs'.
    + rewrite bool_decide_eq_false_2 in Hafter by done.
      destruct Hext as [_ Hkeep]. apply Hkeep in Hbefore.
      destruct logOpen; cbn [emit w_fs] in Hafter; rewrite Hafter in Hbefore;
        by destruct Hbefore.
  - injection Hrun as _ <-. exfalso. by apply (Hcontra w1).
Qed.

End MainEffects.

(** ** main: early exits *)

Section MainExits.
Context {engine : FMOD} {os : OS}.
Variable substitute : ascii -> string.



(** X29: when the engine cannot be set up (creation, version query or
    initialisation fails, or the library is older than the header), a run
    that gets past the command-line checks ends through the top-level
    handler with status 1.  It prints the error banner, preceded by the
    constructor's line about the versions when, and only when, the library
    is older than the header; it prints nothing else and touches no file.
    The input file is not even looked for: the outcome is the same whether
    or not it exists. *)
Theorem main_engine_unavailable (fuel : nat) (argv : list string) (w : World) (what : string) :
  reaches_try argv = true ->
  FMODSystem_ctor = Threw what ->
  main substitute fuel argv w
  = Finished (1, mk_World (w_fs w)
                   (w_trace w
                    ++ (if bool_decide (what = "FMOD version mismatch")
                        then [Cerr "FMOD lib version is less than header version"]
                        else [])
                    ++ error_banner)).
Proof.
  intros Hargs Hsys.
  assert (Hprinted :
    FMODSystem_ctor_cerr
    = if bool_decide (what = "FMOD version mismatch")
      then [Cerr "FMOD lib version is less than header version"] else []).
  { destruct FMODSystem_ctor_prints as [[Hw ->]|[Hw ->]].
    - rewrite Hw in Hsys. injection Hsys as <-. by rewrite bool_decide_eq_true_2.
    - rewrite bool_decide_eq_false_2; [done|]. intros ->. by apply Hw. }
  rewrite (main_after_throw substitute fuel argv w
             (mk_World (w_fs w) (w_trace w ++ FMODSystem_ctor_cerr)) what Hargs).
  - cbn [w_fs w_trace]. by rewrite Hprinted, <- app_assoc.
  - unfold main_try. by rewrite Hsys.
Qed.

End MainExits.

(** ** Which inputs are outer containers *)

Section BankPath.



End BankPath.

(** ** main: the log, the files a run touches, and what the engine loads *)

Section EvolvesFacts.
Variable P : Event -> bool.
Variable F : string -> Prop.

Lemma evolves_refl (w : World) : evolves P F w w.
Proof. split; [exists []; by rewrite app_nil_r | done]. Qed.

Lemma evolves_trans (w1 w2 w3 : World) :
  evolves P F w1 w2 -> evolves P F w2 w3 -> evolves P F w1 w3.
Proof.
  intros [(e1 & H1 & F1) K1] [(e2 & H2 & F2) K2]. split.
  - exists (e1 ++ e2). rewrite H2, H1, <- app_assoc. split; [done|]. by apply Forall_app.
  - intros q Hq. destruct (decide (w_fs w2 !! q = w_fs w1 !! q)) as [Heq|Hne].
    + apply K2. by rewrite Heq.
    + by apply K1.
Qed.

Lemma evolves_emit (e : Event) (w : World) : P e = true -> evolves P F w (emit e w).
Proof. intros He. split; [exists [e]; by repeat constructor | done]. Qed.

Lemma evolves_store (path : string) (content : list byte) (w : World) :
  F path -> evolves P F w (store path content w).
Proof.
  intros HF. split; [exists []; by rewrite app_nil_r|]. intros q. cbn [store w_fs].
  destruct (decide (q = path)) as [->|Hne]; [done|]. by rewrite lookup_insert_ne.
Qed.

End EvolvesFacts.

Lemma evolves_mono (P P' : Event -> bool) (F F' : string -> Prop) (w w' : World) :
  (forall e, P e = true -> P' e = true) -> (forall q, F q -> F' q) ->
  evolves P F w w' -> evolves P' F' w w'.
Proof.
  intros HP HF [(events & Ht & Hall) Hfs]. split.
  - exists events. split; [done|]. eapply Forall_impl; [exact Hall|]. done.
  - intros q Hq. by apply HF, Hfs.
Qed.

Ltac evolves_tac :=
  repeat first
    [ apply evolves_refl
    | eapply evolves_trans; [|apply evolves_emit; reflexivity]
    | eapply evolves_trans; [|apply evolves_store; done] ].




Section QuietFacts.
Import AudioProcessor.
Context {engine : FMOD} {os : OS}.
Variable substitute : ascii -> string.

(** Whatever its outcome, [ProcessSubSound] prints to the console and
    creates or changes at most one file, an output file. *)
Lemma ProcessSubSound_evolves (fuel : nat) (subSound : Sound)
    (subSoundIndex totalSubSounds : Z) (baseFileName outputDirectoryPath : string)
    (w w' : World) (r : result unit) :
  ProcessSubSound substitute fuel subSound subSoundIndex totalSubSounds baseFileName
    outputDirectoryPath w = Finished (r, w') ->
  evolves is_console wav_path w w'.
Proof.
  unfold ProcessSubSound.
  destruct (seekData subSound 0) as [r0 s1].
  destruct (negb (is_FMOD_OK r0)); [intros [= <- <-]; apply evolves_refl|].
  destruct (GetSoundInfo s1) as [[soundInfo|what]| |]; try done.
  2:{ intros [= <- <-]. apply evolves_refl. }
  set (name := outputFileName_of substitute soundInfo baseFileName subSoundIndex).
  set (path := path_append outputDirectoryPath (name +:+ ".wav")).
  assert (Hpath : wav_path path) by (by exists outputDirectoryPath, name).
  destruct (ofstream_can_open path); cbn [negb].
  2:{ intros [= <- <-]. evolves_tac. }
  unfold WriteWAVHeader. cbn [of_is_open negb of_write of_written app].
  destruct (transcribe fuel (format soundInfo) s1 _ (soundLengthBytes soundInfo) 0)
    as [[[[[writeSuccess s2] wavFile'] c'] total']| |]; try done.
  destruct writeSuccess; cbn [negb]; intros [= <- <-]; evolves_tac.
Qed.

Lemma subSounds_for_evolves (fuel : nat) (sound : Sound) (baseFileName outputDirectory : string)
    (numSubSounds : Z) :
  forall (n : nat) (i : Z) (flag : bool) (w : World) (ok : bool) (w' : World),
    subSounds_for substitute fuel n i numSubSounds sound baseFileName outputDirectory flag w
    = Finished (ok, w') ->
    evolves is_console wav_path w w'.
Proof.
  induction n as [|n IH]; intros i flag w ok w'.
  - intros [= _ <-]. apply evolves_refl.
  - cbn [subSounds_for]. destruct (getSubSound sound i) as [r subSound].
    destruct (negb (is_FMOD_OK r)).
    + intros Hrun%IH. eapply evolves_trans; [|exact Hrun]. evolves_tac.
    + destruct (ProcessSubSound substitute fuel subSound i numSubSounds baseFileName
                  outputDirectory w) as [[[[]|what] w1]| |] eqn:E; try done;
        apply ProcessSubSound_evolves in E; intros Hrun%IH.
      * by eapply evolves_trans.
      * eapply evolves_trans; [exact E|]. eapply evolves_trans; [|exact Hrun]. evolves_tac.
Qed.

(** Without verbose logging the container loop writes no log line and
    leaves the log stream closed; the only files it creates or changes are
    output files. *)
Lemma containers_for_quiet (fuel : nat) (system : System) (outdir : string) :
  forall (filesToProcess : list string) (w : World)
         (r : result (bool * bool)) (w' : World),
    containers_for substitute fuel system filesToProcess outdir false false w
    = Finished (r, w') ->
    evolves (fun e => is_console e || is_EngineLoad e) wav_path w w'
    /\ forall v l, r = Ok (v, l) -> v = false /\ l = false.
Proof.
  induction filesToProcess as [|cur rest IH]; intros w r w'.
  - intros [= <- <-]. split; [apply evolves_refl|]. by intros v l [= <- <-].
  - cbn [containers_for].
    destruct (createSound system cur _) as [r1 sound].
    destruct (negb (is_FMOD_OK r1)); [intros [= <- <-]; split; [evolves_tac | done]|].
    destruct (getNumSubSounds sound) as [r2 n].
    destruct (negb (is_FMOD_OK r2)); [intros [= <- <-]; split; [evolves_tac | done]|].
    destruct (0 <? n).
    2:{ intros [Hrun Hflags]%IH. split; [|done].
        eapply evolves_trans; [|exact Hrun]. evolves_tac. }
    destruct (create_directory _) as [created ec].
    destruct (negb created && ec), ec;
      (destruct (subSounds_for _ _ _ _ _ _ _ _ _ _) as [[ok w2]| |] eqn:E; [|done|done];
       apply subSounds_for_evolves in E;
       apply (evolves_mono _ (fun e => is_console e || is_EngineLoad e) _ wav_path) in E;
         [|by intros []|done];
       intros [Hrun Hflags]%IH; (split; [|done]);
       eapply evolves_trans; [|exact Hrun]; eapply evolves_trans; [|exact E]; evolves_tac).
Qed.


End QuietFacts.

Section MainQuiet.
Context {engine : FMOD} {os : OS}.
Variable substitute : ascii -> string.

Lemma parse_options_no_verbose (inputFilePath : string) :
  forall (n : nat) (args : list string) (o o' : options),
    (length args <= n)%nat ->
    "-v" ∉ args ->
    parse_options args inputFilePath o = Some o' ->
    verboseLogEnabled o' = verboseLogEnabled o.
Proof.
  induction n as [|n IH]; intros args o o' Hlen Hno.
  - destruct args; [|simpl in Hlen; lia]. by intros [= <-].
  - destruct args as [|arg rest]; [by intros [= <-]|].
    apply not_elem_of_cons in Hno as [Harg Hrest].
    cbn [length] in Hlen. cbn [parse_options].
    destruct (bool_decide (arg = "-res")).
    { intros H%IH; [done | lia | done]. }
    destruct (bool_decide (arg = "-exe")).
    { intros H%IH; [done | lia | done]. }
    destruct (bool_decide (arg = "-o")).
    { destruct rest as [|dir rest]; [done|].
      apply not_elem_of_cons in Hrest as [_ Hrest].
      cbn [length] in Hlen. intros H%IH; [done | lia | done]. }
    rewrite bool_decide_eq_false_2 by done.
    destruct (is_help arg); [|done].
    intros H%IH; [done | lia | done].
Qed.

Lemma FMODSystem_ctor_cerr_console :
  Forall (fun e => is_console e = true) FMODSystem_ctor_cerr.
Proof. destruct FMODSystem_ctor_prints as [[_ ->]|[_ ->]]; by repeat constructor. Qed.

(** Without [-v] on the command line the [try] block writes no log line
    and leaves the log stream closed; the files it creates or changes are
    output files and, for an outer container, the files the extractor
    returned. *)
Lemma main_try_quiet (fuel : nat) (argv : list string) (w w' : World) (e : try_exit) :
  "-v" ∉ drop 2 argv ->
  main_try substitute fuel argv w = Finished (e, w') ->
  evolves (fun e => is_console e || is_EngineLoad e)
    (fun q => wav_path q \/ temp_file_of fuel (default EmptyString (argv !! 1%nat)) w q) w w'
  /\ forall verbose logOpen tempFilesToDelete,
       e = TryDone verbose logOpen tempFilesToDelete ->
       verbose = false /\ logOpen = false
       /\ forall q, q ∈ tempFilesToDelete ->
                    temp_file_of fuel (default EmptyString (argv !! 1%nat)) w q.
Proof.
  intros Hv. unfold main_try. destruct FMODSystem_ctor as [fmodSystem|what].
  2:{ intros [= <- <-]. split; [|done]. split; [|done].
      exists FMODSystem_ctor_cerr. split; [done|].
      eapply Forall_impl; [apply FMODSystem_ctor_cerr_console|]. by intros []. }
  set (input := default EmptyString (argv !! 1%nat)).
  destruct (negb (bool_decide (is_Some (w_fs w !! input)))).
  { intros [= <- <-]. split; [evolves_tac | done]. }
  destruct (parse_options (drop 2 argv) input _) as [o|] eqn:Hparse.
  2:{ intros [= <- <-]. split; [evolves_tac | done]. }
  apply (parse_options_no_verbose _ (length (drop 2 argv))) in Hparse; [|done..].
  cbn [verboseLogEnabled] in Hparse. rewrite Hparse.
  destruct ((1 <? option_count o) && negb (help_option_used o)).
  { intros [= <- <-]. split; [evolves_tac | done]. }
  destruct (help_option_used o).
  { destruct (0 <? option_count o); intros [= <- <-]; (split; [evolves_tac | done]). }
  destruct (is_bank_path input) eqn:Hbank.
  - destruct (BANKtoFSBExtractor.ExtractFSBsFromBankFile fuel input (w_fs w))
      as [[files fs']| |] eqn:Hex; try done.
    assert (Htemp : forall q, q ∈ files -> temp_file_of fuel input w q).
    { intros q Hq. split; [done|]. by exists files, fs'. }
    assert (Hfs : evolves (fun e => is_console e || is_EngineLoad e)
                    (fun q => wav_path q \/ temp_file_of fuel input w q)
                    w (mk_World fs' (w_trace w))).
    { split; [exists []; by rewrite app_nil_r|]. cbn [w_fs]. intros q Hq. right.
      apply Htemp. destruct (decide (q ∈ files)) as [Hin|Hnin]; [done|]. exfalso. apply Hq.
      unfold BANKtoFSBExtractor.ExtractFSBsFromBankFile in Hex.
      destruct (w_fs w !! input).
      - apply ExtractFSBs_while_frame in Hex as (_ & _ & Hsame & _); [|done]. by apply Hsame.
      - by injection Hex as _ <-. }
    destruct (bool_decide (files = [])).
    { intros [= <- <-]. split; [|done].
      eapply evolves_trans; [exact Hfs | evolves_tac]. }
    destruct (containers_for _ _ _ _ _ _ _ _) as [[[[v l]|what] w1]| |] eqn:Hc; try done;
      apply containers_for_quiet in Hc as [Hc Hflags];
      apply (evolves_mono _ (fun e => is_console e || is_EngineLoad e) _
               (fun q => wav_path q \/ temp_file_of fuel input w q)) in Hc;
      [|done|by left| |done|by left]; intros [= <- <-];
      (split; [by eapply evolves_trans|]); [|done].
    intros ? ? ? [= <- <- <-]. destruct (Hflags _ _ eq_refl) as [-> ->]. done.
  - destruct (containers_for _ _ _ _ _ _ _ _) as [[[[v l]|what] w1]| |] eqn:Hc; try done;
      apply containers_for_quiet in Hc as [Hc Hflags];
      apply (evolves_mono _ (fun e => is_console e || is_EngineLoad e) _
               (fun q => wav_path q \/ temp_file_of fuel input w q)) in Hc;
      [|done|by left| |done|by left]; intros [= <- <-]; (split; [done|]); [|done].
    intros ? ? ? [= <- <- <-]. destruct (Hflags _ _ eq_refl) as [-> ->].
    split; [done|]. split; [done|]. by intros q Hq%elem_of_nil.
Qed.

Lemma delete_temp_files_evolves (tempFilesToDelete : list string) (w : World) :
  evolves is_FsRemove (fun q => q ∈ tempFilesToDelete) w
    (delete_temp_files tempFilesToDelete w).
Proof.
  split.
  - destruct (delete_temp_files_removed tempFilesToDelete w) as (removed & Hr & _).
    exists (map FsRemove removed). split; [done|]. by apply Forall_map, Forall_true.
  - intros q. rewrite delete_temp_files_fs.
    destruct (decide (q ∈ tempFilesToDelete)) as [Hin|Hnin]; [done|].
    by rewrite bool_decide_eq_false_2.
Qed.

(** X22: what a run without [-v] on its command line leaves behind.
    Without [-v] the log stream is never opened and nothing is written to a
    log; and every file that the run creates, changes or removes is either
    an output file (a path made of a directory, a name and the extension
    [.wav]) or, for an outer container, one of the temporary files that the
    extractor returned.  In particular the input file is changed only if
    its own path is one of these. *)
Theorem main_without_log_changes_only_outputs (fuel : nat) (argv : list string)
    (w w' : World) (code : Z) :
  "-v" ∉ drop 2 argv ->
  main substitute fuel argv w = Finished (code, w') ->
  (exists events, w_trace w' = w_trace w ++ events
                  /\ Forall (fun e => is_LogLine e = false) events)
  /\ forall q, w_fs w' !! q <> w_fs w !! q ->
       wav_path q
       \/ (is_bank_path (default EmptyString (argv !! 1%nat)) = true
           /\ exists tempFsbFiles fs',
                BANKtoFSBExtractor.ExtractFSBsFromBankFile fuel
                  (default EmptyString (argv !! 1%nat)) (w_fs w)
                = Finished (tempFsbFiles, fs')
                /\ q ∈ tempFsbFiles).
Proof.
  intros Hv Hrun.
  set (input := default EmptyString (argv !! 1%nat)).
  enough (Hgoal : evolves (fun e => negb (is_LogLine e))
                    (fun q => wav_path q \/ temp_file_of fuel input w q) w w').
  { destruct Hgoal as [(events & Ht & Hall) Hfs]. split; [|done].
    exists events. split; [done|]. eapply Forall_impl; [exact Hall|].
    by intros e He%negb_true_iff. }
  unfold main in Hrun.
  destruct (Z.of_nat (length argv) <? 2); [injection Hrun as _ <-; evolves_tac|].
  destruct ((Z.of_nat (length argv) =? 2) && is_help _);
    [injection Hrun as _ <-; evolves_tac|].
  destruct ((2 <? Z.of_nat (length argv)) && existsb is_help _);
    [injection Hrun as _ <-; evolves_tac|].
  destruct (main_try substitute fuel argv w) as [[e w1]| |] eqn:Htry; try done.
  apply main_try_quiet in Htry as [Hext Hdone]; [|done].
  apply (evolves_mono _ (fun e => negb (is_LogLine e)) _
           (fun q => wav_path q \/ temp_file_of fuel input w q)) in Hext;
    [|by intros []|done].
  destruct e as [c|verbose logOpen temps|what].
  - by injection Hrun as _ <-.
  - injection Hrun as _ <-. destruct (Hdone _ _ _ eq_refl) as (_ & -> & Htemps).
    eapply evolves_trans; [exact Hext|].
    eapply evolves_trans; [|eapply evolves_mono; [| |apply delete_temp_files_evolves]].
    + evolves_tac.
    + by intros [].
    + intros q Hq. right. by apply Htemps.
  - injection Hrun as _ <-. eapply evolves_trans; [exact Hext|]. evolves_tac.
Qed.

End MainQuiet.

Section MainDispatch.
Context {engine : FMOD} {os : OS}.
Variable substitute : ascii -> string.





End MainDispatch.

(** ** Examples for the properties above *)

Section LoopExamples.
Import AudioProcessor.

Lemma samples_of_zeros (k : nat) :
  Forall (fun bits => sample_ok bits = true) (samples_of (replicate k Byte.x00)).
Proof.
  assert (H : forall n j, (j <= n)%nat ->
            Forall (fun bits => sample_ok bits = true) (samples_of (replicate j Byte.x00))).
  { induction n as [|n IH]; intros j Hj.
    - replace j with 0%nat by lia. constructor.
    - destruct j as [|[|[|[|j]]]]; try (cbn; constructor).
      + reflexivity.
      + apply IH. lia. }
  by apply (H k k).
Qed.

Lemma silent_readData_in_range (s : nat) (n : Z) :
  Forall (fun bits => sample_ok bits = true) (samples_of (silent_readData s n).1.2).
Proof. destruct s; [by constructor|]. apply samples_of_zeros. Qed.

Lemma WritePCMFloatDataChunk_in_range_is_copy_witness :
  (forall s n, Forall (fun bits => sample_ok bits = true)
                 (samples_of (silent_readData s n).1.2))
  /\ WriteAudioDataChunk silent_readData 3 8%nat (mk_ofstream true []) 8 0
     = Finished (true, 0%nat, mk_ofstream true (replicate 8 Byte.x00), 1, 8)
  /\ WritePCMFloatDataChunk silent_readData 3 8%nat (mk_ofstream true []) 8 0
     = WriteAudioDataChunk silent_readData 3 8%nat (mk_ofstream true []) 8 0.
Proof.
  split; [exact silent_readData_in_range|]. split; [reflexivity|].
  exact (WritePCMFloatDataChunk_in_range_is_copy silent_readData 3 8%nat
           (mk_ofstream true []) 8 0 silent_readData_in_range eq_refl).
Defined.

Lemma sample24_readData_bounded : readData_bounded sample24_readData.
Proof.
  intros s n Hn. unfold sample24_readData. destruct s as [|b s]; [simpl; lia|].
  cbn [fst snd]. rewrite complete_samples_length, length_take.
  pose proof (Nat.Div0.mul_div_le (Z.to_nat n `min` length (b :: s)) 3). lia.
Qed.

Lemma sample24_readData_whole (s : list byte) (n : Z) :
  (length (sample24_readData s n).1.2 mod 3 = 0)%nat.
Proof.
  unfold sample24_readData. destruct s as [|b s]; [reflexivity|].
  cbn [fst snd]. rewrite complete_samples_length, Nat.mul_comm.
  apply Nat.Div0.mod_mul.
Qed.

Lemma WritePCM24DataChunk_whole_samples_is_copy_witness :
  readData_bounded sample24_readData
  /\ (forall s n, (length (sample24_readData s n).1.2 mod 3 = 0)%nat)
  /\ WriteAudioDataChunk sample24_readData 3 (junk 6) (mk_ofstream true []) 6 0
     = Finished (true, [], mk_ofstream true (junk 6), 1, 6)
  /\ WritePCM24DataChunk sample24_readData 3 (junk 6) (mk_ofstream true []) 6 0
     = WriteAudioDataChunk sample24_readData 3 (junk 6) (mk_ofstream true []) 6 0.
Proof.
  split; [exact sample24_readData_bounded|]. split; [exact sample24_readData_whole|].
  split; [reflexivity|].
  exact (WritePCM24DataChunk_whole_samples_is_copy sample24_readData 3 (junk 6)
           (mk_ofstream true []) 6 0 sample24_readData_bounded sample24_readData_whole
           eq_refl).
Defined.

Lemma transcription_beyond_32_bits_never_succeeds_witness :
  2 ^ 32 <= 2 ^ 32 + 1
  /\ WriteAudioDataChunk streaming_readData 2 [Byte.x2a] (mk_ofstream true []) (2 ^ 32 + 1) 0
     = Finished (false, [], mk_ofstream true [Byte.x2a], 2, 1)
  /\ false = false.
Proof.
  split; [lia|]. split; [reflexivity|].
  exact (transcription_beyond_32_bits_never_succeeds streaming_readData 2 [Byte.x2a]
           (mk_ofstream true []) (2 ^ 32 + 1) 0 false [] (mk_ofstream true [Byte.x2a]) 2 1
           ltac:(lia) (or_introl eq_refl)).
Defined.

Lemma trickle_readData_bounded : readData_bounded trickle_readData.
Proof.
  intros s n Hn. unfold trickle_readData. destruct s as [|b s]; [simpl; lia|].
  cbn [fst snd]. rewrite length_take. lia.
Qed.

Lemma trickle_readData_progress : readData_progress trickle_readData.
Proof.
  intros s n Hn. unfold trickle_readData. destruct s as [|b s]; [done|].
  intros _. cbn [fst snd]. rewrite length_take. cbn [length]. lia.
Qed.

Lemma transcription_read_count_witness :
  readData_bounded trickle_readData
  /\ readData_progress trickle_readData
  /\ WriteAudioDataChunk trickle_readData 4 (junk 5) (mk_ofstream true []) 5 0
     = Finished (true, [], mk_ofstream true (junk 5), 3, 5)
  /\ 5 <= 4096 * (3 - 0) /\ 3 - 0 <= 5 /\ 0 <= 3 < 2 ^ 31.
Proof.
  split; [exact trickle_readData_bounded|]. split; [exact trickle_readData_progress|].
  split; [reflexivity|].
  exact (transcription_read_count trickle_readData 4 (junk 5) (mk_ofstream true []) 5 0
           [] (mk_ofstream true (junk 5)) 3 5 trickle_readData_bounded
           trickle_readData_progress ltac:(lia) ltac:(lia) ltac:(lia)
           (or_introl eq_refl)).
Defined.

Lemma sampleRate_of_unrepresentable_witness :
  Q_of_float (S754_finite false 8388608 8) = Some (inject_Z (2 ^ 31))
  /\ sampleRate_of (S754_finite false 8388608 8) = None.
Proof.
  split; [reflexivity|].
  apply (sampleRate_of_unrepresentable (S754_finite false 8388608 8)).
  right. exists (inject_Z (2 ^ 31)). split; [reflexivity | apply Qle_refl].
Defined.

End LoopExamples.

Section ExtractEdgeExamples.
Import BANKtoFSBExtractor.

Lemma ExtractFSBsFromBankFile_frame_witness :
  @ExtractFSBsFromBankFile toy_OS 3 "x.bank" (<["x.bank" := bank_two_fsbs]> ∅)
  = Finished
      (["/tmp/x.fsb"; "/tmp/x_2.fsb"],
       <["/tmp/x_2.fsb" := take 60 (drop 71 bank_two_fsbs)]>
         (<["/tmp/x.fsb" := take 63 (drop 3 bank_two_fsbs)]>
            (<["x.bank" := bank_two_fsbs]> ∅)))
  /\ forall q, q ∉ ["/tmp/x.fsb"; "/tmp/x_2.fsb"] ->
       (<["/tmp/x_2.fsb" := take 60 (drop 71 bank_two_fsbs)]>
          (<["/tmp/x.fsb" := take 63 (drop 3 bank_two_fsbs)]>
             (<["x.bank" := bank_two_fsbs]> (∅ : gmap string (list byte))))) !! q
       = (<["x.bank" := bank_two_fsbs]> (∅ : gmap string (list byte))) !! q.
Proof.
  assert (Hrun :
    @ExtractFSBsFromBankFile toy_OS 3 "x.bank" (<["x.bank" := bank_two_fsbs]> ∅)
    = Finished
        (["/tmp/x.fsb"; "/tmp/x_2.fsb"],
         <["/tmp/x_2.fsb" := take 60 (drop 71 bank_two_fsbs)]>
           (<["/tmp/x.fsb" := take 63 (drop 3 bank_two_fsbs)]>
              (<["x.bank" := bank_two_fsbs]> ∅)))).
  { vm_compute. reflexivity. }
  split; [exact Hrun|].
  exact (proj2 (proj2 (@ExtractFSBsFromBankFile_frame toy_OS 3 "x.bank" _ _ _ Hrun))).
Defined.

Lemma ExtractFSBsFromBankFile_unopenable_never_returns_witness :
  (forall p, @ofstream_can_open readonly_OS p = false)
  /\ first_signature bank_two_fsbs 0 = Some 3
  /\ forall fuel : nat,
       @ExtractFSBsFromBankFile readonly_OS fuel "x.bank" (<["x.bank" := bank_two_fsbs]> ∅)
       = OutOfFuel.
Proof.
  split; [reflexivity|]. split; [reflexivity|].
  exact (@ExtractFSBsFromBankFile_unopenable_never_returns readonly_OS "x.bank"
           (<["x.bank" := bank_two_fsbs]> ∅) bank_two_fsbs 3 (fun _ => eq_refl)
           eq_refl eq_refl).
Defined.

Lemma ExtractFSBsFromBankFile_zero_length_never_returns_witness :
  first_signature bank_zero_length 0 = Some 2
  /\ declared_length bank_zero_length 2 = 2 ^ 32
  /\ forall fuel : nat,
       @ExtractFSBsFromBankFile toy_OS fuel "x.bank" (<["x.bank" := bank_zero_length]> ∅)
       = OutOfFuel.
Proof.
  split; [reflexivity|]. split; [reflexivity|].
  refine (@ExtractFSBsFromBankFile_zero_length_never_returns toy_OS "x.bank"
            (<["x.bank" := bank_zero_length]> ∅) bank_zero_length 2 (fun _ => eq_refl)
            eq_refl eq_refl _ eq_refl).
  vm_compute. discriminate.
Defined.

Lemma ExtractFSBsFromBankFile_truncated_zero_filled_witness :
  first_signature bank_cut_short 0 = Some 2
  /\ declared_length bank_cut_short 2 = 70
  /\ Z.of_nat (length bank_cut_short) = 66
  /\ @ExtractFSBsFromBankFile toy_OS 2 "x.bank" (<["x.bank" := bank_cut_short]> ∅)
     = Finished (["/tmp/x.fsb"],
                 <["/tmp/x.fsb" := drop 2 bank_cut_short ++ replicate 6 Byte.x00]>
                   (<["x.bank" := bank_cut_short]> ∅)).
Proof.
  split; [reflexivity|]. split; [reflexivity|]. split; [reflexivity|].
  refine (proj1 (@ExtractFSBsFromBankFile_truncated_zero_filled toy_OS 0 "x.bank"
                   (<["x.bank" := bank_cut_short]> ∅) bank_cut_short 2
                   eq_refl eq_refl _ _ eq_refl)); vm_compute; congruence.
Defined.

Lemma ExtractFSBsFromBankFile_truncated_header_witness :
  first_signature bank_cut_in_header 0 = Some 2
  /\ Z.of_nat (length bank_cut_in_header) = 17
  /\ @ExtractFSBsFromBankFile toy_OS 1 "x.bank" (<["x.bank" := bank_cut_in_header]> ∅)
     = Undefined.
Proof.
  split; [reflexivity|]. split; [reflexivity|].
  exact (@ExtractFSBsFromBankFile_truncated_header toy_OS 0 "x.bank"
           (<["x.bank" := bank_cut_in_header]> ∅) bank_cut_in_header 2
           eq_refl eq_refl eq_refl eq_refl).
Defined.

End ExtractEdgeExamples.

Section EffectExamples.
Import AudioProcessor.

Lemma ProcessSubSound_failure_leaves_partial_file_witness :
  readData_bounded toy_readData
  /\ @ProcessSubSound toy_FMOD toy_OS toy_substitute 10 pcm16_cut_short 0 1
       "x" "/out" (mk_World ∅ [])
     = Finished (Threw "Failed to write audio data to WAV file",
                 mk_World
                   (<["/out/x_0.wav" :=
                        WAVHeader_bytes 44100 1 6 16 FMOD_SOUND_FORMAT_PCM16
                        ++ toy_data pcm16_cut_short]> ∅)
                   [Cout "Processing sub-sound";
                    Cerr "Error writing audio data to WAV file"])
  /\ exists (soundInfo : SoundInfo) (fullOutputPath : string) (header data : list byte),
       @GetSoundInfo toy_FMOD pcm16_cut_short = Finished (Ok soundInfo)
       /\ (<["/out/x_0.wav" :=
               WAVHeader_bytes 44100 1 6 16 FMOD_SOUND_FORMAT_PCM16
               ++ toy_data pcm16_cut_short]> (∅ : gmap string (list byte)))
            !! fullOutputPath = Some (header ++ data)
       /\ length header = 44%nat
       /\ hdr_data_size header = soundLengthBytes soundInfo
       /\ Z.of_nat (length data) < soundLengthBytes soundInfo.
Proof.
  split; [apply toy_readData_bounded|].
  assert (Hrun :
    @ProcessSubSound toy_FMOD toy_OS toy_substitute 10 pcm16_cut_short 0 1
      "x" "/out" (mk_World ∅ [])
    = Finished (Threw "Failed to write audio data to WAV file",
                mk_World
                  (<["/out/x_0.wav" :=
                       WAVHeader_bytes 44100 1 6 16 FMOD_SOUND_FORMAT_PCM16
                       ++ toy_data pcm16_cut_short]> ∅)
                  [Cout "Processing sub-sound";
                   Cerr "Error writing audio data to WAV file"])).
  { vm_compute. reflexivity. }
  split; [exact Hrun|].
  exact (@ProcessSubSound_failure_leaves_partial_file toy_FMOD toy_OS toy_substitute 10
           pcm16_cut_short 0 1 "x" "/out" (mk_World ∅ []) _ toy_readData_bounded Hrun).
Defined.

End EffectExamples.

Section MainExamples.

Lemma main_try_early_success_witness :
  reaches_try ["prog"; "x.bank"; "-v"] = true
  /\ @main_try toy_FMOD toy_OS toy_substitute 10 ["prog"; "x.bank"; "-v"]
       (world_with_bank (junk 8))
     = Finished (TryReturn 0,
                 emit (Cout "No FSB files found inside bank file")
                   (world_with_bank (junk 8)))
  /\ is_bank_path "x.bank" = true.
Proof.
  split; [reflexivity|]. split; [vm_compute; reflexivity|].
  exact (proj1 (proj2 (@main_try_early_success toy_FMOD toy_OS toy_substitute 10
                         ["prog"; "x.bank"; "-v"] (world_with_bank (junk 8)) _ eq_refl)
                  ltac:(vm_compute; reflexivity))).
Defined.


Lemma main_without_log_changes_only_outputs_witness :
  ("-v" ∉ drop 2 ["prog"; "x.bank"])
  /\ @main toy_FMOD toy_OS toy_substitute 10 ["prog"; "x.bank"]
       (world_with_bank bank_two_fsbs)
     = Finished (0, world_after (@main toy_FMOD toy_OS toy_substitute 10 ["prog"; "x.bank"]
                                   (world_with_bank bank_two_fsbs)))
  /\ (exists events,
        w_trace (world_after (@main toy_FMOD toy_OS toy_substitute 10 ["prog"; "x.bank"]
                                (world_with_bank bank_two_fsbs)))
        = w_trace (world_with_bank bank_two_fsbs) ++ events
        /\ Forall (fun e => is_LogLine e = false) events)
  /\ forall q,
       w_fs (world_after (@main toy_FMOD toy_OS toy_substitute 10 ["prog"; "x.bank"]
                            (world_with_bank bank_two_fsbs))) !! q
       <> w_fs (world_with_bank bank_two_fsbs) !! q ->
       @wav_path toy_OS q
       \/ (is_bank_path "x.bank" = true
           /\ exists tempFsbFiles fs',
                @BANKtoFSBExtractor.ExtractFSBsFromBankFile toy_OS 10 "x.bank"
                  (w_fs (world_with_bank bank_two_fsbs))
                = Finished (tempFsbFiles, fs')
                /\ q ∈ tempFsbFiles).
Proof.
  assert (Hrun :
    @main toy_FMOD toy_OS toy_substitute 10 ["prog"; "x.bank"]
      (world_with_bank bank_two_fsbs)
    = Finished (0, world_after (@main toy_FMOD toy_OS toy_substitute 10 ["prog"; "x.bank"]
                                  (world_with_bank bank_two_fsbs)))).
  { vm_compute. reflexivity. }
  split; [apply not_elem_of_nil|]. split; [exact Hrun|].
  exact (@main_without_log_changes_only_outputs toy_FMOD toy_OS toy_substitute 10
           ["prog"; "x.bank"] (world_with_bank bank_two_fsbs) _ 0
           (not_elem_of_nil "-v") Hrun).
Defined.


Lemma main_deletes_only_temp_files_witness :
  @main toy_FMOD toy_OS toy_substitute 10 ["prog"; "x.bank"]
    (world_with_bank_and_temp bank_two_fsbs)
  = Finished (0, world_after (@main toy_FMOD toy_OS toy_substitute 10 ["prog"; "x.bank"]
                                (world_with_bank_and_temp bank_two_fsbs)))
  /\ w_fs (world_with_bank_and_temp bank_two_fsbs) !! "/tmp/x.fsb" = Some [Byte.x00]
  /\ w_fs (world_after (@main toy_FMOD toy_OS toy_substitute 10 ["prog"; "x.bank"]
                          (world_with_bank_and_temp bank_two_fsbs))) !! "/tmp/x.fsb" = None
  /\ is_bank_path "x.bank" = true
  /\ exists tempFsbFiles fs',
       @BANKtoFSBExtractor.ExtractFSBsFromBankFile toy_OS 10 "x.bank"
         (w_fs (world_with_bank_and_temp bank_two_fsbs)) = Finished (tempFsbFiles, fs')
       /\ "/tmp/x.fsb" ∈ tempFsbFiles.
Proof.
  assert (Hrun :
    @main toy_FMOD toy_OS toy_substitute 10 ["prog"; "x.bank"]
      (world_with_bank_and_temp bank_two_fsbs)
    = Finished (0, world_after (@main toy_FMOD toy_OS toy_substitute 10 ["prog"; "x.bank"]
                                  (world_with_bank_and_temp bank_two_fsbs)))).
  { vm_compute. reflexivity. }
  assert (Hafter :
    w_fs (world_after (@main toy_FMOD toy_OS toy_substitute 10 ["prog"; "x.bank"]
                         (world_with_bank_and_temp bank_two_fsbs))) !! "/tmp/x.fsb" = None).
  { vm_compute. reflexivity. }
  split; [exact Hrun|]. split; [reflexivity|]. split; [exact Hafter|].
  exact (@main_deletes_only_temp_files toy_FMOD toy_OS toy_substitute 10 ["prog"; "x.bank"]
           (world_with_bank_and_temp bank_two_fsbs) _ 0 "/tmp/x.fsb" Hrun
           (ex_intro _ [Byte.x00] eq_refl) Hafter).
Defined.


Lemma main_engine_unavailable_witness :
  reaches_try ["prog"; "missing.fsb"] = true
  /\ @FMODSystem_ctor outdated_FMOD = Threw "FMOD version mismatch"
  /\ @main outdated_FMOD toy_OS toy_substitute 10 ["prog"; "missing.fsb"]
       (world_with_bank bank_two_fsbs)
     = Finished (1, mk_World (w_fs (world_with_bank bank_two_fsbs))
                      (w_trace (world_with_bank bank_two_fsbs)
                       ++ [Cerr "FMOD lib version is less than header version"]
                       ++ error_banner)).
Proof.
  split; [reflexivity|]. split; [reflexivity|].
  exact (@main_engine_unavailable outdated_FMOD toy_OS toy_substitute 10
           ["prog"; "missing.fsb"] (world_with_bank bank_two_fsbs) _ eq_refl eq_refl).
Defined.

End MainExamples.
